(** * CareTraceAI: safety checker and pattern engine

    A shallow embedding of the algorithmic core of the repository:
    - [src/agents/safety_agent.py]  (interaction lookup, severity ranking),
    - [src/agents/pattern_agent.py] (keyword recurrence, temporal correlation),
    - [src/utils/helpers.py]        ([clean_drug_name],
                                     [extract_keywords_from_text]),
    - [src/agents/memory_agent.py]  (the timestamp ordering of
                                     [get_patient_history]),
    - [src/config.py]               ([PATTERN_REPEAT_THRESHOLD]).

    Python [str] values are modelled as [string]; a character stands for
    the code point of the same number, so the embedding covers text in the
    range U+0000..U+00FF, on which [str.lower] is a per-character map that
    stays inside the range.  Dictionaries with a fixed set of keys are
    records; a key read with [dict.get] and a default is an [option]
    field. *)

From Stdlib Require Import ZArith NArith List Bool Ascii String Lia Arith.
From Stdlib Require Import Permutation Sorted DecimalString.
Import ListNotations.

Local Open Scope string_scope.
Local Open Scope list_scope.

(* ================================================================== *)
(** ** Python strings *)
(* ================================================================== *)

Definition code (c : ascii) : N := N_of_ascii c.

Definition in_range (lo hi : N) (c : ascii) : bool :=
  (N.leb lo (code c) && N.leb (code c) hi)%bool.

Definition is_code (n : N) (c : ascii) : bool := N.eqb (code c) n.

(** [str.isspace] on one character; also the separators of [str.split()]
    and the class [\s] of [re]. *)
Definition isspace (c : ascii) : bool :=
  in_range 9 13 c || in_range 28 32 c || is_code 133 c || is_code 160 c.

(** The class [\w] of [re] on [str] patterns: alphanumerics and the
    underscore. *)
Definition isword (c : ascii) : bool :=
  in_range 48 57 c || in_range 65 90 c || is_code 95 c || in_range 97 122 c
  || is_code 170 c || in_range 178 179 c || is_code 181 c
  || in_range 185 186 c || in_range 188 190 c
  || in_range 192 214 c || in_range 216 246 c || in_range 248 255 c.

(** Characters changed by [str.lower]: A-Z and U+00C0..U+00DE but the
    multiplication sign U+00D7. *)
Definition has_lower (c : ascii) : bool :=
  in_range 65 90 c || (in_range 192 222 c && negb (is_code 215 c)).

Definition lower_char (c : ascii) : ascii :=
  if has_lower c then ascii_of_N (code c + 32) else c.

Fixpoint str_lower (s : string) : string :=
  match s with
  | EmptyString => EmptyString
  | String c s' => String (lower_char c) (str_lower s')
  end.

(** [str.upper], restricted to the letters a-z: the source applies it to
    a severity name only. *)
Definition upper_char (c : ascii) : ascii :=
  if in_range 97 122 c then ascii_of_N (code c - 32) else c.

Fixpoint str_upper (s : string) : string :=
  match s with
  | EmptyString => EmptyString
  | String c s' => String (upper_char c) (str_upper s')
  end.

Definition is_empty (s : string) : bool :=
  match s with EmptyString => true | String _ _ => false end.

Fixpoint lstrip_by (p : ascii -> bool) (s : string) : string :=
  match s with
  | EmptyString => EmptyString
  | String c s' => if p c then lstrip_by p s' else s
  end.

Fixpoint rstrip_by (p : ascii -> bool) (s : string) : string :=
  match s with
  | EmptyString => EmptyString
  | String c s' =>
      let r := rstrip_by p s' in
      if (is_empty r && p c)%bool then EmptyString else String c r
  end.

Definition strip_by (p : ascii -> bool) (s : string) : string :=
  rstrip_by p (lstrip_by p s).

(** [s.strip()] *)
Definition str_strip (s : string) : string := strip_by isspace s.

Fixpoint char_in (c : ascii) (chars : string) : bool :=
  match chars with
  | EmptyString => false
  | String d rest => (Ascii.eqb c d || char_in c rest)%bool
  end.

(** [s.strip(chars)] *)
Definition str_strip_chars (chars : string) (s : string) : string :=
  strip_by (fun c => char_in c chars) s.

(** [s.split()]: the maximal runs of characters that are not white
    space, in order.  [cur] is the run being read. *)
Fixpoint split_from (cur : string) (s : string) : list string :=
  match s with
  | EmptyString => if is_empty cur then [] else [cur]
  | String c s' =>
      if isspace c
      then (if is_empty cur then split_from EmptyString s'
            else cur :: split_from EmptyString s')
      else split_from (cur ++ String c EmptyString) s'
  end.

Definition str_split (s : string) : list string := split_from EmptyString s.

(** [needle in hay] on strings. *)
Fixpoint str_contains (needle hay : string) : bool :=
  (String.prefix needle hay
   || match hay with
      | EmptyString => false
      | String _ hay' => str_contains needle hay'
      end)%bool.

(** [x in l] on a list of strings. *)
Definition str_mem (x : string) (l : list string) : bool :=
  existsb (String.eqb x) l.

(** [sorted(l)] on strings: code-point order, stable. *)
Fixpoint insert_sorted (x : string) (l : list string) : list string :=
  match l with
  | [] => [x]
  | y :: l' => if String.leb x y then x :: l else y :: insert_sorted x l'
  end.

Definition sorted_strings (l : list string) : list string :=
  fold_right insert_sorted [] l.

Definition str_of_nat (n : nat) : string :=
  NilEmpty.string_of_uint (Nat.to_uint n).

(* ================================================================== *)
(** ** Exceptions *)
(* ================================================================== *)

Inductive exn : Type := ValueError | TypeError | KeyError.

Inductive Exc (A : Type) : Type :=
| Return (a : A)
| Raise (e : exn).

Arguments Return {A} a.
Arguments Raise {A} e.

Definition bind {A B : Type} (m : Exc A) (k : A -> Exc B) : Exc B :=
  match m with
  | Return a => k a
  | Raise e => Raise e
  end.

Notation "x <- m ;; k" := (bind m (fun x => k))
  (at level 61, m at next level, right associativity).

(** Reading a required key: [d[key]]. *)
Definition required {A : Type} (field : option A) : Exc A :=
  match field with
  | Some a => Return a
  | None => Raise KeyError
  end.

(** Reading with a default: [d.get(key, default)]. *)
Definition get_or {A : Type} (field : option A) (default : A) : A :=
  match field with
  | Some a => a
  | None => default
  end.

(* ================================================================== *)
(** ** Data model *)
(* ================================================================== *)

(** A patient event payload.  [text] is read with [event["text"]]
    everywhere; [timestamp] and [drugs] are read with a default in some
    places, so they may be absent. *)
Record Event : Type := mkEvent {
  patient_id : string;
  event_type : string;
  text : string;
  timestamp : option string;
  drugs : option (list string)
}.

(** A drug-drug interaction as [get_all_drug_interactions] returns it,
    with [explanation] filled in.  [severity] is read with
    [interaction.get("severity", "mild")]. *)
Record Interaction : Type := mkInteraction {
  drug_a : string;
  drug_b : string;
  severity : option string;
  explanation : string
}.

(** What the agents read from the memory agent: the payloads held by
    the vector store, in the order its scroll yields them.  A failure of
    the store itself, which the memory agent turns into an empty list,
    is not part of the model. *)
Record MemoryAgent : Type := mkMemory {
  stored_events : list Event;
  stored_interactions : list Interaction
}.

(* ================================================================== *)
(** ** memory_agent.py *)
(* ================================================================== *)

(** [events.sort(key=lambda x: x.get("timestamp", ""), reverse=True)]:
    a stable sort on the timestamp string, greatest first. *)
Definition timestamp_key (e : Event) : string := get_or (timestamp e) "".

Fixpoint insert_newest_first (e : Event) (l : list Event) : list Event :=
  match l with
  | [] => [e]
  | y :: l' =>
      if String.ltb (timestamp_key e) (timestamp_key y)
      then y :: insert_newest_first e l'
      else e :: l
  end.

Definition sort_newest_first (l : list Event) : list Event :=
  fold_right insert_newest_first [] l.

Definition matches_filter (pid : string) (etype : option string)
    (e : Event) : bool :=
  (String.eqb (patient_id e) pid
   && match etype with
      | Some t => is_empty t || String.eqb (event_type e) t
      | None => true
      end)%bool.

(** [MemoryAgent.get_patient_history], with the scroll of the vector
    store read as the first [limit] stored events that pass the filter;
    an empty [event_type] adds no condition. *)
Definition get_patient_history (m : MemoryAgent) (pid : string)
    (etype : option string) (limit : nat) : list Event :=
  sort_newest_first (firstn limit (filter (matches_filter pid etype)
                                          (stored_events m))).

Definition default_limit : nat := 100.

Definition get_all_drug_interactions (m : MemoryAgent) : list Interaction :=
  firstn 1000 (stored_interactions m).

(* ================================================================== *)
(** ** helpers.py *)
(* ================================================================== *)

(** [clean_drug_name]: [drug_name.strip().lower()] *)
Definition clean_drug_name (drug_name : string) : string :=
  str_lower (str_strip drug_name).

Definition space : ascii := ascii_of_N 32.

(** [re.sub(r'[^\w\s]', ' ', text)] *)
Fixpoint sub_nonword (s : string) : string :=
  match s with
  | EmptyString => EmptyString
  | String c s' =>
      String (if (isword c || isspace c)%bool then c else space)
             (sub_nonword s')
  end.

Definition helper_stop_words : list string :=
  [ "the"; "a"; "an"; "and"; "or"; "but"; "in"; "on"; "at"; "to"; "for";
    "of"; "with"; "by"; "from"; "as"; "is"; "was"; "are"; "were"; "been";
    "be"; "have"; "has"; "had"; "do"; "does"; "did"; "will"; "would";
    "should"; "could"; "may"; "might"; "must"; "can"; "this"; "that";
    "these"; "those"; "i"; "you"; "he"; "she"; "it"; "we"; "they";
    "my"; "your"; "his"; "her"; "its"; "our"; "their"; "me"; "him";
    "them"; "us"; "am"; "been"; "being"; "have"; "has" ].

Definition extract_keywords_from_text (text : string) (min_length : nat)
    : list string :=
  let text' := sub_nonword (str_lower text) in
  let words := str_split text' in
  filter (fun word =>
            (Nat.leb min_length (String.length word)
             && negb (str_mem word helper_stop_words))%bool)
         words.

Definition default_min_length : nat := 4.

(* ================================================================== *)
(** ** config.py *)
(* ================================================================== *)

Definition PATTERN_REPEAT_THRESHOLD : nat := 2.

(* ================================================================== *)
(** ** safety_agent.py *)
(* ================================================================== *)

Module SafetyAgent.

(** The verdict dictionary of [check_new_medication]; [max_severity] is
    present only in the unsafe verdict. *)
Record Verdict : Type := mkVerdict {
  safe : bool;
  new_drug : string;
  current_drugs : list string;
  interactions : list Interaction;
  max_severity : option string;
  message : string
}.

(** [_get_patient_medications]: the sorted set of the drugs of all
    prescriptions of the patient. *)
Definition _get_patient_medications (m : MemoryAgent) (pid : string)
    : list string :=
  let prescriptions :=
    get_patient_history m pid (Some "prescription") default_limit in
  let drugs := flat_map (fun rx => get_or (drugs rx) []) prescriptions in
  sorted_strings (nodup string_dec drugs).

Definition applies (new_drug_lower : string)
    (current_drugs_lower : list string) (interaction : Interaction) : bool :=
  let a := str_lower (drug_a interaction) in
  let b := str_lower (drug_b interaction) in
  ((String.eqb a new_drug_lower && str_mem b current_drugs_lower)
   || (String.eqb b new_drug_lower && str_mem a current_drugs_lower))%bool.

Definition _find_interactions (m : MemoryAgent) (new_drug : string)
    (current_drugs : list string) : list Interaction :=
  let all_interactions := get_all_drug_interactions m in
  let new_drug_lower := str_lower new_drug in
  let current_drugs_lower := map str_lower current_drugs in
  filter (applies new_drug_lower current_drugs_lower) all_interactions.

(** [severity_order.get(severity, 1)] *)
Definition severity_order (severity : string) : nat :=
  if String.eqb severity "severe" then 3
  else if String.eqb severity "moderate" then 2
  else if String.eqb severity "mild" then 1
  else 1.

(** One turn of the loop of [_get_max_severity] on the state
    [(max_level, max_value)]. *)
Definition max_severity_step (st : string * nat) (interaction : Interaction)
    : string * nat :=
  let '(max_level, max_value) := st in
  let sev := str_lower (get_or (severity interaction) "mild") in
  let value := severity_order sev in
  if Nat.ltb max_value value then (sev, value) else (max_level, max_value).

Definition _get_max_severity (interactions : list Interaction) : string :=
  fst (fold_left max_severity_step interactions ("mild", 1)).

(** The warning sign U+26A0 U+FE0F that opens the unsafe message, as its
    UTF-8 bytes. *)
Definition warning_sign : string :=
  String (ascii_of_N 226) (String (ascii_of_N 154) (String (ascii_of_N 160)
  (String (ascii_of_N 239) (String (ascii_of_N 184)
  (String (ascii_of_N 143) EmptyString))))).

Definition no_medications_message : string :=
  "No current medications on record.".

Definition no_interactions_message (new_drug : string) : string :=
  "No known interactions found between " ++ new_drug
  ++ " and current medications.".

Definition check_new_medication (m : MemoryAgent) (pid : string)
    (new_drug : string) : Verdict :=
  let current_drugs := _get_patient_medications m pid in
  match current_drugs with
  | [] =>
      mkVerdict true new_drug [] [] None no_medications_message
  | _ :: _ =>
      let interactions := _find_interactions m new_drug current_drugs in
      match interactions with
      | [] =>
          mkVerdict true new_drug current_drugs [] None
                    (no_interactions_message new_drug)
      | _ :: _ =>
          let max_severity := _get_max_severity interactions in
          mkVerdict false new_drug current_drugs interactions
                    (Some max_severity)
                    (warning_sign ++ " Found "
                     ++ str_of_nat (List.length interactions)
                     ++ " potential interaction(s). Maximum severity: "
                     ++ str_upper max_severity)
      end
  end.

Fixpoint first_match (drug_a_lower drug_b_lower : string)
    (l : list Interaction) : option Interaction :=
  match l with
  | [] => None
  | interaction :: rest =>
      let ia := str_lower (drug_a interaction) in
      let ib := str_lower (drug_b interaction) in
      if ((String.eqb ia drug_a_lower && String.eqb ib drug_b_lower)
          || (String.eqb ia drug_b_lower && String.eqb ib drug_a_lower))%bool
      then Some interaction
      else first_match drug_a_lower drug_b_lower rest
  end.

Definition get_interaction_details (m : MemoryAgent)
    (drug_a drug_b : string) : option Interaction :=
  first_match (str_lower drug_a) (str_lower drug_b)
              (get_all_drug_interactions m).

End SafetyAgent.

(* ================================================================== *)
(** ** datetime *)
(* ================================================================== *)

(** A [datetime]: the proleptic Gregorian ordinal of its day, the
    microseconds elapsed in that day, and the UTC offset in microseconds
    of an aware value ([None] for a naive one). *)
Record datetime : Type := mkDatetime {
  ordinal : Z;
  day_us : Z;
  utcoffset : option Z
}.

Definition US_PER_DAY : Z := 86400000000.

Definition instant_us (d : datetime) : Z :=
  (ordinal d * US_PER_DAY + day_us d)%Z.

(** [a - b] on datetimes, as a [timedelta] in microseconds.  A naive and
    an aware value cannot be subtracted. *)
Definition datetime_sub (a b : datetime) : Exc Z :=
  match utcoffset a, utcoffset b with
  | None, None => Return (instant_us a - instant_us b)%Z
  | Some oa, Some ob => Return ((instant_us a - oa) - (instant_us b - ob))%Z
  | _, _ => Raise TypeError
  end.

(** [timedelta.days]: a [timedelta] is normalised with a non-negative
    time part, so the days are the floor of the quotient. *)
Definition timedelta_days (td : Z) : Z := (td / US_PER_DAY)%Z.

(** *** A parser for the timestamps the ingestion code writes

    The correlator is defined over any parser, and its properties are
    proved for every parser; [iso_parse] serves the concrete runs.
    [datetime.utcnow().isoformat()] writes [YYYY-MM-DDTHH:MM:SS] with an
    optional [.ffffff]; a calendar date is [YYYY-MM-DD].  [iso_parse]
    reads these layouts as [datetime.fromisoformat] does, a date that
    does not exist included, and answers [ValueError] on every other
    string; the further layouts of the library (a time cut at the hour
    or the minute, a UTC offset) are not read by it. *)

Definition digit (c : ascii) : option Z :=
  if in_range 48 57 c then Some (Z.of_N (code c) - 48)%Z else None.

Fixpoint read_digits (n : nat) (acc : Z) (s : string) : option (Z * string) :=
  match n with
  | O => Some (acc, s)
  | S n' =>
      match s with
      | EmptyString => None
      | String c s' =>
          match digit c with
          | Some d => read_digits n' (10 * acc + d)%Z s'
          | None => None
          end
      end
  end.

Definition expect (c : ascii) (s : string) : option string :=
  match s with
  | String c' s' => if Ascii.eqb c c' then Some s' else None
  | EmptyString => None
  end.

Definition is_leap (y : Z) : bool :=
  ((y mod 4 =? 0) && (negb (y mod 100 =? 0) || (y mod 400 =? 0)))%Z.

Definition days_in_month (y m : Z) : Z :=
  if (m =? 2)%Z then (if is_leap y then 29 else 28)%Z
  else if ((m =? 4) || (m =? 6) || (m =? 9) || (m =? 11))%Z then 30%Z
  else 31%Z.

Definition days_before_year (y : Z) : Z :=
  let p := (y - 1)%Z in (p * 365 + p / 4 - p / 100 + p / 400)%Z.

Fixpoint days_before_month_from (y : Z) (k : nat) (m : Z) : Z :=
  match k with
  | O => 0%Z
  | S k' => (days_in_month y (m - 1) + days_before_month_from y k' (m - 1))%Z
  end.

Definition days_before_month (y m : Z) : Z :=
  days_before_month_from y (Z.to_nat (m - 1)) m.

Definition ymd2ord (y m d : Z) : Z :=
  (days_before_year y + days_before_month y m + d)%Z.

Definition parse_date (s : string) : option (Z * string) :=
  match read_digits 4 0%Z s with
  | Some (y, s1) =>
  match expect "-"%char s1 with
  | Some s2 =>
  match read_digits 2 0%Z s2 with
  | Some (m, s3) =>
  match expect "-"%char s3 with
  | Some s4 =>
  match read_digits 2 0%Z s4 with
  | Some (d, rest) =>
      if ((1 <=? y) && (1 <=? m) && (m <=? 12) && (1 <=? d)
          && (d <=? days_in_month y m))%Z
      then Some (ymd2ord y m d, rest) else None
  | None => None end
  | None => None end
  | None => None end
  | None => None end
  | None => None end.

Definition parse_fraction (s : string) : option Z :=
  match s with
  | EmptyString => Some 0%Z
  | String c s' =>
      if Ascii.eqb c "."%char then
        match read_digits 6 0%Z s' with
        | Some (f, EmptyString) => Some f
        | _ => None
        end
      else None
  end.

Definition parse_time (s : string) : option Z :=
  match read_digits 2 0%Z s with
  | Some (hh, s1) =>
  match expect ":"%char s1 with
  | Some s2 =>
  match read_digits 2 0%Z s2 with
  | Some (mm, s3) =>
  match expect ":"%char s3 with
  | Some s4 =>
  match read_digits 2 0%Z s4 with
  | Some (ss, s5) =>
  match parse_fraction s5 with
  | Some f =>
      if ((hh <=? 23) && (mm <=? 59) && (ss <=? 59))%Z
      then Some (((hh * 60 + mm) * 60 + ss) * 1000000 + f)%Z else None
  | None => None end
  | None => None end
  | None => None end
  | None => None end
  | None => None end
  | None => None end.

Definition iso_parse (s : string) : Exc datetime :=
  match parse_date s with
  | None => Raise ValueError
  | Some (ord, EmptyString) => Return (mkDatetime ord 0 None)
  | Some (ord, String _ rest) =>
      match parse_time rest with
      | Some us => Return (mkDatetime ord us None)
      | None => Raise ValueError
      end
  end.

(* ================================================================== *)
(** ** pattern_agent.py *)
(* ================================================================== *)

(** A loop over a list whose body may raise. *)
Fixpoint for_each {A S : Type} (body : S -> A -> Exc S) (l : list A) (s : S)
    : Exc S :=
  match l with
  | [] => Return s
  | a :: l' => s' <- body s a ;; for_each body l' s'
  end.

(** [collections.Counter(l)]: the elements of [l] in the order of their
    first occurrence, each with the number of its occurrences. *)
Fixpoint counter_add (k : string) (c : list (string * nat))
    : list (string * nat) :=
  match c with
  | [] => [(k, 1)]
  | (k', n) :: c' =>
      if String.eqb k k' then (k', S n) :: c' else (k', n) :: counter_add k c'
  end.

Definition Counter (l : list string) : list (string * nat) :=
  fold_left (fun c k => counter_add k c) l [].

Module PatternAgent.

Definition stop_words : list string :=
  [ "i"; "am"; "have"; "been"; "having"; "feel"; "feeling";
    "the"; "a"; "an"; "and"; "or"; "but"; "in"; "on"; "at";
    "to"; "for"; "of"; "with"; "my"; "me"; "is"; "was"; "are" ].

Definition _extract_keywords (text : string) : list string :=
  let words := str_split (str_lower text) in
  map (str_strip_chars ".,!?;:")
      (filter (fun word =>
                 (Nat.ltb 3 (String.length word)
                  && negb (str_mem word stop_words))%bool)
              words).

Record KeywordOccurrence : Type := mkOccurrence {
  keywords : list string;
  occ_timestamp : string;
  full_text : string
}.

Record RecurringPattern : Type := mkPattern {
  symptom_keyword : string;
  occurrence_count : nat;
  dates : list string;
  reports : list string
}.

Record PatternResult : Type := mkPatternResult {
  has_patterns : bool;
  recurring_symptoms : option (list RecurringPattern);
  message : string
}.

Definition occurrence_of (symptom : Event) : KeywordOccurrence :=
  mkOccurrence (_extract_keywords (text symptom))
               (get_or (timestamp symptom) "")
               (text symptom).

Definition pattern_of (keyword_occurrences : list KeywordOccurrence)
    (entry : string * nat) : RecurringPattern :=
  let '(keyword, count) := entry in
  let occurrences :=
    filter (fun item => str_mem keyword (keywords item)) keyword_occurrences in
  mkPattern keyword count
            (map occ_timestamp occurrences)
            (map full_text occurrences).

Definition detect_recurring_symptoms (m : MemoryAgent) (pid : string)
    : PatternResult :=
  let symptoms := get_patient_history m pid (Some "symptom") default_limit in
  if Nat.ltb (List.length symptoms) 2 then
    mkPatternResult false None
      "Insufficient data to detect patterns (need at least 2 symptom reports)"
  else
    let keyword_occurrences := map occurrence_of symptoms in
    let all_keywords := flat_map keywords keyword_occurrences in
    let keyword_counts := Counter all_keywords in
    let recurring :=
      filter (fun entry => Nat.leb PATTERN_REPEAT_THRESHOLD (snd entry))
             keyword_counts in
    match recurring with
    | [] => mkPatternResult false None "No recurring symptom patterns detected"
    | _ :: _ =>
        let patterns := map (pattern_of keyword_occurrences) recurring in
        mkPatternResult true (Some patterns)
          (SafetyAgent.warning_sign ++ " Detected "
           ++ str_of_nat (List.length patterns)
           ++ " recurring symptom pattern(s)")
    end.

Record Correlation : Type := mkCorrelation {
  symptom_text : string;
  symptom_date : string;
  prescription_drugs : list string;
  prescription_date : string;
  days_apart : Z
}.

Record CorrelationResult : Type := mkCorrelationResult {
  correlation_found : bool;
  correlations : option (list Correlation);
  correlation_message : string
}.

Section Correlator.

(** [datetime.fromisoformat], the parser of the standard library. *)
Variable fromisoformat : string -> Exc datetime.

(** [abs((symptom_time - rx_time).days)] *)
Definition time_diff_of (symptom_time rx_time : datetime) : Exc Z :=
  td <- datetime_sub symptom_time rx_time ;;
  Return (Z.abs (timedelta_days td)).

(** The body of the inner loop, on the list [correlations]. *)
Definition correlate_rx (symptom : Event) (symptom_ts : string)
    (symptom_time : datetime) (correlations : list Correlation) (rx : Event)
    : Exc (list Correlation) :=
  rx_ts <- required (timestamp rx) ;;
  rx_time <- fromisoformat rx_ts ;;
  time_diff <- time_diff_of symptom_time rx_time ;;
  if (time_diff <=? 7)%Z then
    Return (correlations
            ++ [mkCorrelation (text symptom) symptom_ts
                              (get_or (drugs rx) []) rx_ts time_diff])
  else Return correlations.

(** The body of the outer loop. *)
Definition correlate_symptom (prescriptions : list Event)
    (correlations : list Correlation) (symptom : Event)
    : Exc (list Correlation) :=
  symptom_ts <- required (timestamp symptom) ;;
  symptom_time <- fromisoformat symptom_ts ;;
  for_each (correlate_rx symptom symptom_ts symptom_time)
           prescriptions correlations.

Definition matches_keyword (symptom_keyword : string) (s : Event) : bool :=
  str_contains (str_lower symptom_keyword) (str_lower (text s)).

Definition correlate_with_medications (m : MemoryAgent) (pid : string)
    (symptom_keyword : string) : Exc CorrelationResult :=
  let symptoms := get_patient_history m pid (Some "symptom") default_limit in
  let prescriptions :=
    get_patient_history m pid (Some "prescription") default_limit in
  match prescriptions with
  | [] => Return (mkCorrelationResult false None
                    "No prescription records to correlate")
  | _ :: _ =>
      let matching_symptoms :=
        filter (matches_keyword symptom_keyword) symptoms in
      match matching_symptoms with
      | [] => Return (mkCorrelationResult false None
                        ("No reports found containing '" ++ symptom_keyword
                         ++ "'"))
      | _ :: _ =>
          correlations <-
            for_each (correlate_symptom prescriptions) matching_symptoms [] ;;
          match correlations with
          | [] => Return (mkCorrelationResult false None
                            ("No temporal correlation found between '"
                             ++ symptom_keyword ++ "' and prescriptions"))
          | _ :: _ =>
              Return (mkCorrelationResult true (Some correlations)
                        (SafetyAgent.warning_sign ++ " Found "
                         ++ str_of_nat (List.length correlations)
                         ++ " temporal correlation(s) between symptom and medication timing"))
          end
      end
  end.

End Correlator.

End PatternAgent.

(* ================================================================== *)
(** ** Vocabulary of the properties *)
(* ================================================================== *)

(** The unordered pairs [{x, y}] and [{a, b}] are the same set. *)
Definition unordered_pair_eq (x y a b : string) : Prop :=
  forall z : string, (z = x \/ z = y) <-> (z = a \/ z = b).

(** Two names that differ in letter case only. *)
Definition same_ignoring_case (a b : string) : Prop :=
  str_lower a = str_lower b.

(** Two names that differ in letter case or surrounding white space only. *)
Definition same_ignoring_case_and_space (a b : string) : Prop :=
  str_lower (str_strip a) = str_lower (str_strip b).

(** The same interaction stored with its two sides exchanged. *)
Definition swap_sides (i : Interaction) : Interaction :=
  mkInteraction (drug_b i) (drug_a i) (severity i) (explanation i).

Definition swap_storage (m : MemoryAgent) : MemoryAgent :=
  mkMemory (stored_events m) (map swap_sides (stored_interactions m)).

Definition severity_names : list string := ["mild"; "moderate"; "severe"].

(** The severity of the record is one of the three names, in any letter
    case. *)
Definition recognised (i : Interaction) : Prop :=
  exists s, severity i = Some s /\ In (str_lower s) severity_names.

Definition recognisedb (i : Interaction) : bool :=
  match severity i with
  | Some s => str_mem (str_lower s) severity_names
  | None => false
  end.

(** The rank of a record in the comparison of [_get_max_severity]. *)
Definition rank_of (i : Interaction) : nat :=
  SafetyAgent.severity_order (str_lower (get_or (severity i) "mild")).

(** The record with an unrecognised or missing severity replaced by
    [mild]. *)
Definition as_mild_if_unknown (i : Interaction) : Interaction :=
  if recognisedb i then i
  else mkInteraction (drug_a i) (drug_b i) (Some "mild") (explanation i).

(** Every character of the string satisfies [p]. *)
Fixpoint all_chars (p : ascii -> bool) (s : string) : bool :=
  match s with
  | EmptyString => true
  | String c s' => (p c && all_chars p s')%bool
  end.

(** The count stored for a key in a counter, 0 for an absent key. *)
Fixpoint count_of (k : string) (c : list (string * nat)) : nat :=
  match c with
  | [] => 0
  | (k', n) :: c' => if String.eqb k k' then n else count_of k c'
  end.

(** The symptom reports a detection runs on. *)
Definition symptom_history (m : MemoryAgent) (pid : string) : list Event :=
  get_patient_history m pid (Some "symptom") default_limit.

Definition prescription_history (m : MemoryAgent) (pid : string)
    : list Event :=
  get_patient_history m pid (Some "prescription") default_limit.

(** The keywords of all reports, in order, with repetitions. *)
Definition all_keywords_of (symptoms : list Event) : list string :=
  flat_map (fun s => PatternAgent._extract_keywords (text s)) symptoms.

(** The keyword is among the keywords of the report. *)
Definition mentions (kw : string) (s : Event) : bool :=
  str_mem kw (PatternAgent._extract_keywords (text s)).

(** The patterns of a result, none when the key is absent. *)
Definition patterns_of (r : PatternAgent.PatternResult)
    : list PatternAgent.RecurringPattern :=
  get_or (PatternAgent.recurring_symptoms r) [].

(** The number of occurrences of the keyword inside one report. *)
Definition count_in_report (kw : string) (s : Event) : nat :=
  count_occ string_dec (PatternAgent._extract_keywords (text s)) kw.

(** The entries of the counter that reach the threshold. *)
Definition recurring_entries (symptoms : list Event) : list (string * nat) :=
  filter (fun entry => Nat.leb PATTERN_REPEAT_THRESHOLD (snd entry))
         (Counter (all_keywords_of symptoms)).

(** The timestamp of the event is present and parses to a naive
    datetime. *)
Definition naive_ok (parse : string -> Exc datetime) (e : Event) : Prop :=
  exists ts dt,
    timestamp e = Some ts /\ parse ts = Return dt /\ utcoffset dt = None.


(** The datetime of an event whose timestamp parses. *)
Definition parsed (parse : string -> Exc datetime) (e : Event) : datetime :=
  match timestamp e with
  | Some ts =>
      match parse ts with
      | Return dt => dt
      | Raise _ => mkDatetime 0 0 None
      end
  | None => mkDatetime 0 0 None
  end.

(** The day difference the correlator computes on two naive datetimes. *)
Definition floor_days (a b : datetime) : Z :=
  Z.abs ((instant_us a - instant_us b) / US_PER_DAY).

Definition in_window (parse : string -> Exc datetime) (s rx : Event) : bool :=
  (floor_days (parsed parse s) (parsed parse rx) <=? 7)%Z.

Definition record_of (parse : string -> Exc datetime) (s rx : Event)
    : PatternAgent.Correlation :=
  PatternAgent.mkCorrelation (text s) (timestamp_key s) (get_or (drugs rx) [])
    (timestamp_key rx) (floor_days (parsed parse s) (parsed parse rx)).

(** The records of all pairs in the window, symptom by symptom. *)
Definition window_records (parse : string -> Exc datetime)
    (symptoms prescriptions : list Event) : list PatternAgent.Correlation :=
  flat_map (fun s => map (record_of parse s)
                         (filter (in_window parse s) prescriptions))
           symptoms.

(** The records of a result, none when the key is absent. *)
Definition correlations_of (r : PatternAgent.CorrelationResult)
    : list PatternAgent.Correlation :=
  get_or (PatternAgent.correlations r) [].

(** Greatest timestamp string first. *)
Definition newest_first (a b : Event) : Prop :=
  String.leb (timestamp_key b) (timestamp_key a) = true.

(** The severity name of a rank. *)
Definition name_of_rank (n : nat) : string :=
  match n with
  | 3 => "severe"
  | 2 => "moderate"
  | _ => "mild"
  end.

(* ================================================================== *)
(** ** Sample data *)
(* ================================================================== *)

Definition warfarin_aspirin : Interaction :=
  mkInteraction "Warfarin" "Aspirin" (Some "severe") "Bleeding risk".

Definition aspirin_ibuprofen : Interaction :=
  mkInteraction "Ibuprofen" "aspirin" (Some "Moderate") "GI bleeding".

Definition statin_unknown : Interaction :=
  mkInteraction "Simvastatin" "Aspirin" (Some "critical") "".

Definition sample_interactions : list Interaction :=
  [warfarin_aspirin; aspirin_ibuprofen; statin_unknown].

Definition rx_aspirin : Event :=
  mkEvent "p1" "prescription" "Aspirin 100mg daily"
          (Some "2024-01-01") (Some ["Aspirin"]).

Definition sample_memory : MemoryAgent :=
  mkMemory [rx_aspirin] sample_interactions.

(** A patient without any prescription on record. *)
Definition empty_memory : MemoryAgent := mkMemory [] sample_interactions.

(** A patient on Tylenol, with no interaction stored at all. *)
Definition rx_tylenol : Event :=
  mkEvent "p1" "prescription" "Tylenol as needed"
          (Some "2024-01-02") (Some ["Tylenol"]).

Definition tylenol_memory : MemoryAgent := mkMemory [rx_tylenol] [].

(** The scenario of the specification: "headache" on day 1 and "bad
    headache again" on day 3. *)
Definition headache_memory : MemoryAgent :=
  mkMemory
    [ mkEvent "p1" "symptom" "headache" (Some "2024-01-01") None;
      mkEvent "p1" "symptom" "bad headache again" (Some "2024-01-03") None ]
    [].

(** One report that repeats a keyword, and an unrelated second report. *)
Definition repeated_memory : MemoryAgent :=
  mkMemory
    [ mkEvent "p1" "symptom" "headache headache" (Some "2024-01-01") None;
      mkEvent "p1" "symptom" "nausea" (Some "2024-01-02") None ]
    [].

(** A prescription on 2024-01-01 and two reports of dizziness, 7 and 8
    days later. *)
Definition rx_day0 : Event :=
  mkEvent "p1" "prescription" "Lisinopril 10mg"
          (Some "2024-01-01") (Some ["Lisinopril"]).

Definition dizzy_day7 : Event :=
  mkEvent "p1" "symptom" "dizzy" (Some "2024-01-08") None.

Definition dizzy_day8 : Event :=
  mkEvent "p1" "symptom" "Dizzy again" (Some "2024-01-09") None.

Definition window_memory : MemoryAgent :=
  mkMemory [rx_day0; dizzy_day7; dizzy_day8] [].

(** Midnight and noon of 2024-01-01. *)
Definition midnight : datetime := mkDatetime 738886 0 None.
Definition noon : datetime := mkDatetime 738886 43200000000 None.

(** Noon of 2024-01-08, seven and a half days after [midnight]. *)
Definition noon_day7 : datetime := mkDatetime 738893 43200000000 None.

(** A report at midnight and a prescription at noon of the same day, and
    the same two times exchanged. *)
Definition half_day_memory : MemoryAgent :=
  mkMemory
    [ mkEvent "p1" "symptom" "dizzy" (Some "2024-01-01T00:00:00") None;
      mkEvent "p1" "prescription" "Lisinopril 10mg"
              (Some "2024-01-01T12:00:00") (Some ["Lisinopril"]) ]
    [].

Definition half_day_swapped_memory : MemoryAgent :=
  mkMemory
    [ mkEvent "p1" "symptom" "dizzy" (Some "2024-01-01T12:00:00") None;
      mkEvent "p1" "prescription" "Lisinopril 10mg"
              (Some "2024-01-01T00:00:00") (Some ["Lisinopril"]) ]
    [].

(** A report whose timestamp is no ISO date. *)
Definition dizzy_undated : Event :=
  mkEvent "p1" "symptom" "dizzy" (Some "not-a-date") None.

Definition undated_memory : MemoryAgent :=
  mkMemory [rx_day0; dizzy_undated; dizzy_day7] [].

(** A patient on Warfarin and Ibuprofen: the candidate Aspirin meets
    two stored interactions, one severe and one moderate. *)
Definition rx_warfarin_ibuprofen : Event :=
  mkEvent "p1" "prescription" "Warfarin 5mg, Ibuprofen 200mg"
          (Some "2024-01-03") (Some ["Warfarin"; "Ibuprofen"]).

Definition two_drug_memory : MemoryAgent :=
  mkMemory [rx_warfarin_ibuprofen] sample_interactions.



(** A single report that repeats a keyword. *)
Definition single_report_memory : MemoryAgent :=
  mkMemory
    [ mkEvent "p1" "symptom" "headache headache" (Some "2024-01-01") None ]
    [].

(* ================================================================== *)
(** ** Further code: helpers.py *)
(* ================================================================== *)

(** [s[:n]] for [n >= 0]. *)
Fixpoint str_take (n : nat) (s : string) : string :=
  match n, s with
  | S n', String c s' => String c (str_take n' s')
  | _, _ => EmptyString
  end.

(** [s[n:]] for [n >= 0]. *)
Fixpoint str_drop (n : nat) (s : string) : string :=
  match n, s with
  | S n', String _ s' => str_drop n' s'
  | _, _ => s
  end.

(** [s[:k]] for any integer [k]: a negative [k] counts from the end. *)
Definition slice_to (k : Z) (s : string) : string :=
  if (0 <=? k)%Z then str_take (Z.to_nat k) s
  else str_take (Z.to_nat (Z.of_nat (String.length s) + k)) s.

(** A value tested as a condition: an absent or empty string is false. *)
Definition truthy (s : option string) : bool :=
  match s with
  | Some (String _ _) => true
  | _ => false
  end.

(** [a < b] on datetimes; a naive and an aware value cannot be
    compared. *)
Definition datetime_lt (a b : datetime) : Exc bool :=
  match utcoffset a, utcoffset b with
  | None, None => Return (instant_us a <? instant_us b)%Z
  | Some oa, Some ob => Return (instant_us a - oa <? instant_us b - ob)%Z
  | _, _ => Raise TypeError
  end.

(** The loop of [min] and [max]: the running extreme is replaced by an
    item that is better. *)
Fixpoint extreme (better : datetime -> datetime -> Exc bool)
    (cur : datetime) (l : list datetime) : Exc datetime :=
  match l with
  | [] => Return cur
  | x :: l' =>
      b <- better x cur ;;
      extreme better (if b then x else cur) l'
  end.

(** [min(l)] and [max(l)] on a non-empty list of datetimes. *)
Definition min_datetime (first : datetime) (rest : list datetime)
    : Exc datetime :=
  extreme datetime_lt first rest.

Definition max_datetime (first : datetime) (rest : list datetime)
    : Exc datetime :=
  extreme (fun x cur => datetime_lt cur x) first rest.

Module Helpers.

(** [truncate_text] *)
Definition truncate_text (text : string) (max_length : Z) (suffix : string)
    : string :=
  if (Z.of_nat (String.length text) <=? max_length)%Z then text
  else slice_to (max_length - Z.of_nat (String.length suffix)) text ++ suffix.

Definition default_max_length : Z := 100.
Definition default_suffix : string := "...".

(** The class [[a-zA-Z0-9_]]. *)
Definition is_id_char (c : ascii) : bool :=
  in_range 97 122 c || in_range 65 90 c || in_range 48 57 c || is_code 95 c.

(** The number of leading characters of [s] that satisfy [p]. *)
Fixpoint count_prefix (p : ascii -> bool) (s : string) : nat :=
  match s with
  | String c s' => if p c then S (count_prefix p s') else 0
  | EmptyString => 0
  end.

(** [$]: the end of the string, or the newline that ends it. *)
Definition at_end (rest : string) : bool :=
  match rest with
  | EmptyString => true
  | String c EmptyString => is_code 10 c
  | String _ (String _ _) => false
  end.

(** [validate_patient_id]: [re.match(r'^[a-zA-Z0-9_]{3,50}$', patient_id)].
    The repetition takes as many characters of the class as it can, up
    to 50, and gives them back one by one, down to 3, until [$]
    matches. *)
Definition validate_patient_id (patient_id : string) : bool :=
  let longest := Nat.min 50 (count_prefix is_id_char patient_id) in
  existsb (fun k => at_end (str_drop k patient_id))
          (rev (seq 3 (longest + 1 - 3))).

(** The coloured circles, as their UTF-8 bytes: U+1F7E1 (yellow),
    U+1F7E0 (orange), U+1F534 (red) and U+26AA (white). *)
Definition utf8 (bytes : list N) : string :=
  string_of_list_ascii (map ascii_of_N bytes).

Definition yellow_circle : string := utf8 [240; 159; 159; 161]%N.
Definition orange_circle : string := utf8 [240; 159; 159; 160]%N.
Definition red_circle : string := utf8 [240; 159; 148; 180]%N.
Definition white_circle : string := utf8 [226; 154; 170]%N.

(** [severity_to_color]: [severity_map.get(severity.lower(), white)] *)
Definition severity_to_color (severity : string) : string :=
  let key := str_lower severity in
  if String.eqb key "mild" then yellow_circle
  else if String.eqb key "moderate" then orange_circle
  else if String.eqb key "severe" then red_circle
  else white_circle.

Record DateRange : Type := mkDateRange {
  earliest : string;
  latest : string;
  span_days : Z
}.

Record SummaryStats : Type := mkSummary {
  total_events : nat;
  symptom_count : nat;
  prescription_count : nat;
  unique_drugs : list string;
  date_range : option DateRange
}.

Section Stats.

(** [datetime.fromisoformat] and [datetime.isoformat]. *)
Variable fromisoformat : string -> Exc datetime.
Variable isoformat : datetime -> string.

(** The loop of [create_summary_stats] on one event: a timestamp that
    is present and not empty is parsed, and any failure is passed
    over. *)
Definition timestamps_step (timestamps : list datetime) (event : Event)
    : list datetime :=
  if truthy (timestamp event) then
    match fromisoformat (timestamp_key event) with
    | Return dt => timestamps ++ [dt]
    | Raise _ => timestamps
    end
  else timestamps.

(** [set.update(items)] on a set of strings, kept as a list without
    repetition.  The order of a set as a list is left open by the
    language: here it is the order of first insertion. *)
Definition set_add (x : string) (s : list string) : list string :=
  if str_mem x s then s else s ++ [x].

Definition set_update (s : list string) (items : list string) : list string :=
  fold_left (fun acc x => set_add x acc) items s.

(** The state of the loop of [create_summary_stats]. *)
Record StatsState : Type := mkStatsState {
  st_symptoms : nat;
  st_prescriptions : nat;
  st_drugs : list string;
  st_timestamps : list datetime
}.

Definition stats_step (st : StatsState) (event : Event) : StatsState :=
  let timestamps := timestamps_step (st_timestamps st) event in
  if String.eqb (event_type event) "symptom" then
    mkStatsState (S (st_symptoms st)) (st_prescriptions st) (st_drugs st)
                 timestamps
  else if String.eqb (event_type event) "prescription" then
    mkStatsState (st_symptoms st) (S (st_prescriptions st))
                 (set_update (st_drugs st) (get_or (drugs event) []))
                 timestamps
  else
    mkStatsState (st_symptoms st) (st_prescriptions st) (st_drugs st)
                 timestamps.

(** [create_summary_stats] *)
Definition create_summary_stats (events : list Event) : Exc SummaryStats :=
  let st := fold_left stats_step events (mkStatsState 0 0 [] []) in
  match st_timestamps st with
  | [] =>
      Return (mkSummary (List.length events) (st_symptoms st)
                        (st_prescriptions st) (st_drugs st) None)
  | first :: rest =>
      lo <- min_datetime first rest ;;
      hi <- max_datetime first rest ;;
      span <- datetime_sub hi lo ;;
      Return (mkSummary (List.length events) (st_symptoms st)
                        (st_prescriptions st) (st_drugs st)
                        (Some (mkDateRange (isoformat lo) (isoformat hi)
                                           (timedelta_days span))))
  end.

End Stats.

(** [str(n)] on an integer. *)
Definition str_of_Z (z : Z) : string := NilEmpty.string_of_int (Z.to_int z).

(** ['s' if n != 1 else ''] *)
Definition plural (n : Z) : string :=
  if (n =? 1)%Z then EmptyString else "s".

(** [timedelta.seconds]: the whole seconds of the time part. *)
Definition timedelta_seconds (td : Z) : Z :=
  ((td mod US_PER_DAY) / 1000000)%Z.

(** The words of [get_relative_time] for a time difference. *)
Definition relative_words (diff : Z) : string :=
  let days := timedelta_days diff in
  if (days =? 0)%Z then
    let hours := (timedelta_seconds diff / 3600)%Z in
    if (hours =? 0)%Z then
      let minutes := (timedelta_seconds diff / 60)%Z in
      str_of_Z minutes ++ " minute" ++ plural minutes ++ " ago"
    else str_of_Z hours ++ " hour" ++ plural hours ++ " ago"
  else if (days =? 1)%Z then "yesterday"
  else if (days <? 7)%Z then str_of_Z days ++ " days ago"
  else if (days <? 30)%Z then
    let weeks := (days / 7)%Z in
    str_of_Z weeks ++ " week" ++ plural weeks ++ " ago"
  else
    let months := (days / 30)%Z in
    str_of_Z months ++ " month" ++ plural months ++ " ago".

Section RelativeTime.

Variable fromisoformat : string -> Exc datetime.

(** [get_relative_time], with the reading of the clock, [now], as an
    argument.  Of the failures of the [try] only [ValueError] is caught
    here: [AttributeError] needs a timestamp that is no string. *)
Definition get_relative_time (now : datetime) (iso_timestamp : string)
    : Exc string :=
  match fromisoformat iso_timestamp with
  | Return dt =>
      diff <- datetime_sub now dt ;;
      Return (relative_words diff)
  | Raise ValueError => Return "unknown time"
  | Raise e => Raise e
  end.

End RelativeTime.

End Helpers.

(* ================================================================== *)
(** ** Further code: timeline_manager.py *)
(* ================================================================== *)

Module TimelineManager.

(** An event dictionary whose keys may all be absent, as
    [validate_event_edit] reads it. *)
Record EventDict : Type := mkEventDict {
  d_patient_id : option string;
  d_event_type : option string;
  d_text : option string;
  d_timestamp : option string;
  d_drugs : option (list string)
}.

Definition present {A : Type} (field : option A) : bool :=
  match field with Some _ => true | None => false end.

(** [a != b] on two values read with [dict.get]. *)
Definition differs (a b : option string) : bool :=
  match a, b with
  | Some x, Some y => negb (String.eqb x y)
  | None, None => false
  | _, _ => true
  end.

(** [validate_event_edit] *)
Definition validate_event_edit (original_event updated_event : EventDict)
    : bool * string :=
  if negb (present (d_patient_id updated_event)) then
    (false, "Missing required field: patient_id")
  else if negb (present (d_event_type updated_event)) then
    (false, "Missing required field: event_type")
  else if negb (present (d_text updated_event)) then
    (false, "Missing required field: text")
  else if negb (present (d_timestamp updated_event)) then
    (false, "Missing required field: timestamp")
  else if differs (d_patient_id original_event) (d_patient_id updated_event)
  then (false, "Cannot change patient_id during edit")
  else if differs (d_event_type original_event) (d_event_type updated_event)
  then (false, "Cannot change event_type during edit")
  else if is_empty (str_strip (get_or (d_text updated_event) "")) then
    (false, "Text cannot be empty")
  else (true, "").

Section DateRange.

Variable fromisoformat : string -> Exc datetime.

(** The body of the [try] of [filter_timeline_by_date_range] on one
    event: whether the event is appended. *)
Definition in_date_range (start_date end_date : option string)
    (event : Event) : Exc bool :=
  event_date <- fromisoformat (timestamp_key event) ;;
  before <- (if truthy start_date then
               start_dt <- fromisoformat (get_or start_date "") ;;
               datetime_lt event_date start_dt
             else Return false) ;;
  if before then Return false
  else
    after <- (if truthy end_date then
                end_dt <- fromisoformat (get_or end_date "") ;;
                datetime_lt end_dt event_date
              else Return false) ;;
    Return (negb after).

(** [except (ValueError, TypeError): continue] *)
Definition skip_invalid (m : Exc bool) : Exc bool :=
  match m with
  | Raise ValueError => Return false
  | Raise TypeError => Return false
  | other => other
  end.

Definition filter_step (start_date end_date : option string)
    (filtered : list Event) (event : Event) : Exc (list Event) :=
  keep <- skip_invalid (in_date_range start_date end_date event) ;;
  Return (if keep then filtered ++ [event] else filtered).

(** [filter_timeline_by_date_range] *)
Definition filter_timeline_by_date_range (events : list Event)
    (start_date end_date : option string) : Exc (list Event) :=
  if (negb (truthy start_date) && negb (truthy end_date))%bool then
    Return events
  else for_each (filter_step start_date end_date) events [].

End DateRange.

Record BulkResult : Type := mkBulkResult {
  success : list string;
  failed : list string;
  total : nat
}.

Section BulkDelete.

(** The memory agent of [bulk_delete_events]: its state and its
    [delete_event], which answers whether the deletion succeeded. *)
Variable Store : Type.
Variable delete_event : Store -> string -> Store * bool.

Definition bulk_step (acc : Store * BulkResult) (point_id : string)
    : Store * BulkResult :=
  let '(store, results) := acc in
  let '(store', ok) := delete_event store point_id in
  if ok then
    (store', mkBulkResult (success results ++ [point_id]) (failed results)
                          (total results))
  else
    (store', mkBulkResult (success results) (failed results ++ [point_id])
                          (total results)).

(** [bulk_delete_events] *)
Definition bulk_delete_events (store : Store) (point_ids : list string)
    : Store * BulkResult :=
  fold_left bulk_step point_ids
            (store, mkBulkResult [] [] (List.length point_ids)).

End BulkDelete.

End TimelineManager.

(* ================================================================== *)
(** ** Further code: population_agent.py *)
(* ================================================================== *)

(** [sorted(entries, key=count, reverse=True)], stable: the order of
    [Counter.most_common]. *)
Fixpoint insert_by_count (e : string * nat) (l : list (string * nat))
    : list (string * nat) :=
  match l with
  | [] => [e]
  | y :: l' =>
      if Nat.ltb (snd e) (snd y) then y :: insert_by_count e l' else e :: l
  end.

Definition sort_by_count (c : list (string * nat)) : list (string * nat) :=
  fold_right insert_by_count [] c.

(** [counter.most_common(n)] *)
Definition most_common (n : nat) (c : list (string * nat))
    : list (string * nat) :=
  firstn n (sort_by_count c).

Module PopulationAgent.

(** A similar patient, as the analyses read it. *)
Record Patient : Type := mkPatient {
  medications : option (list string);
  symptoms : option (list string);
  conditions : option (list string)
}.

Record Insight : Type := mkInsight {
  insight_type : string;
  common : list (string * nat);
  insight_message : string
}.

(** The three analyses differ in the key they read and in their
    words. *)
Definition analyze (field : Patient -> option (list string))
    (kind : string) (similar_patients : list Patient) : Insight :=
  let all_items := flat_map (fun p => get_or (field p) []) similar_patients in
  let counts := Counter all_items in
  let common_items := most_common 5 counts in
  mkInsight kind common_items
    ("Among " ++ str_of_nat (List.length similar_patients)
     ++ " similar patients, most common " ++ kind ++ " are: "
     ++ String.concat ", " (map fst (firstn 3 common_items))).

Definition _analyze_medication_patterns := analyze medications "medications".
Definition _analyze_symptom_patterns := analyze symptoms "symptoms".
Definition _analyze_condition_patterns := analyze conditions "conditions".

End PopulationAgent.

(* ================================================================== *)
(** ** Vocabulary of the further properties *)
(* ================================================================== *)

Definition newline : string := String (ascii_of_N 10) EmptyString.

(** No character of the string is changed by [str.lower]. *)
Definition no_upper (c : ascii) : bool := negb (has_lower c).

(** The string is empty or starts with a character outside [p]. *)
Definition lstripped (p : ascii -> bool) (s : string) : Prop :=
  match s with
  | EmptyString => True
  | String c _ => p c = false
  end.

(** The event is of the given type. *)
Definition has_type (t : string) (e : Event) : bool :=
  String.eqb (event_type e) t.

(** The timestamp of the event is present, not empty, and parses to
    [dt]: the statistics take it into account. *)
Definition dated (parse : string -> Exc datetime) (e : Event) (dt : datetime)
    : Prop :=
  truthy (timestamp e) = true /\ parse (timestamp_key e) = Return dt.

(** The datetime carries no UTC offset. *)
Definition naive (dt : datetime) : Prop := utcoffset dt = None.


(** The parser fails with [ValueError] only, as [datetime.fromisoformat]
    does on a string. *)
Definition value_errors_only (parse : string -> Exc datetime) : Prop :=
  forall s err, parse s = Raise err -> err = ValueError.

(** The timestamp of the event parses and lies between the bounds that
    are given, both included. *)
Definition within_bounds (parse : string -> Exc datetime)
    (start_date end_date : option string) (e : Event) : Prop :=
  exists dt,
    parse (timestamp_key e) = Return dt
    /\ (truthy start_date = true ->
        exists start_dt,
          parse (get_or start_date "") = Return start_dt
          /\ datetime_lt dt start_dt = Return false)
    /\ (truthy end_date = true ->
        exists end_dt,
          parse (get_or end_date "") = Return end_dt
          /\ datetime_lt end_dt dt = Return false).

(** An event of patient p1 as the editor holds it, and three edits. *)
Definition original_dict : TimelineManager.EventDict :=
  TimelineManager.mkEventDict (Some "p1") (Some "symptom") (Some "headache")
                              (Some "2024-01-01") None.

Definition good_edit : TimelineManager.EventDict :=
  TimelineManager.mkEventDict (Some "p1") (Some "symptom")
                              (Some "strong headache") (Some "2024-01-01")
                              None.

Definition blank_edit : TimelineManager.EventDict :=
  TimelineManager.mkEventDict (Some "p1") (Some "symptom") (Some "   ")
                              (Some "2024-01-01") None.

Definition moved_edit : TimelineManager.EventDict :=
  TimelineManager.mkEventDict (Some "p2") (Some "symptom") (Some "headache")
                              (Some "2024-01-01") None.

(** Whether [filter_timeline_by_date_range] keeps the event: the body
    of its [try] answers yes. *)
Definition kept (parse : string -> Exc datetime)
    (start_date end_date : option string) (e : Event) : bool :=
  match TimelineManager.in_date_range parse start_date end_date e with
  | Return b => b
  | Raise _ => false
  end.

(** A store of point ids whose deletion succeeds for the ids it holds. *)
Definition sample_delete (store : list string) (point_id : string)
    : list string * bool :=
  (remove string_dec point_id store, str_mem point_id store).

(** The first string comes strictly before the second in code-point
    order. *)
Definition strictly_before (a b : string) : Prop := String.ltb a b = true.

(** The event passes the filter of a history request. *)
Definition requested (pid : string) (etype : option string) (e : Event)
    : Prop :=
  patient_id e = pid
  /\ forall t, etype = Some t -> t <> EmptyString -> event_type e = t.

(** Two prescriptions naming the same drug, and a third drug. *)
Definition repeat_memory : MemoryAgent :=
  mkMemory
    [ mkEvent "p1" "prescription" "Warfarin 5mg" (Some "2024-01-01")
              (Some ["Warfarin"; "Aspirin"]);
      mkEvent "p1" "prescription" "Aspirin 100mg" (Some "2024-02-01")
              (Some ["Aspirin"]);
      mkEvent "p2" "prescription" "Ibuprofen" (Some "2024-02-01")
              (Some ["Ibuprofen"]) ]
    sample_interactions.

(** The first entry counts at least as much as the second. *)
Definition by_count_desc (a b : string * nat) : Prop := snd b <= snd a.

(** Three similar patients and their medications. *)
Definition similar_sample : list PopulationAgent.Patient :=
  [ PopulationAgent.mkPatient (Some ["Metformin"; "Aspirin"]) None None;
    PopulationAgent.mkPatient (Some ["Aspirin"; "Lisinopril"]) None None;
    PopulationAgent.mkPatient None (Some ["fatigue"]) None;
    PopulationAgent.mkPatient (Some ["Lisinopril"; "Aspirin"]) None None ].

(* ================================================================== *)
(** * Properties *)
(* ================================================================== *)

(** ** Strings and lists *)

Lemma str_mem_In (x : string) (l : list string) :
  str_mem x l = true <-> In x l.
Proof.
  unfold str_mem. rewrite existsb_exists. split.
  - intros [y [Hy Heq]]. apply String.eqb_eq in Heq. now subst.
  - intros H. exists x. split; [assumption | apply String.eqb_refl].
Qed.

Lemma unordered_pair_eq_cases (x y a b : string) :
  unordered_pair_eq x y a b <-> (x = a /\ y = b) \/ (x = b /\ y = a).
Proof.
  unfold unordered_pair_eq. split.
  - intros H.
    destruct (proj1 (H x) (or_introl eq_refl)) as [Hx | Hx];
    destruct (proj1 (H y) (or_intror eq_refl)) as [Hy | Hy];
    destruct (proj2 (H a) (or_introl eq_refl)) as [Ha | Ha];
    destruct (proj2 (H b) (or_intror eq_refl)) as [Hb | Hb];
    subst; auto.
  - intros [[-> ->] | [-> ->]] z; tauto.
Qed.

Lemma insert_sorted_In (x y : string) (l : list string) :
  In y (insert_sorted x l) <-> y = x \/ In y l.
Proof.
  induction l as [| z l IH]; simpl.
  - intuition auto.
  - destruct (String.leb x z); simpl; [| rewrite IH]; intuition auto.
Qed.

Lemma sorted_strings_In (y : string) (l : list string) :
  In y (sorted_strings l) <-> In y l.
Proof.
  induction l as [| x l IH]; simpl; [tauto |].
  rewrite insert_sorted_In, IH. intuition auto.
Qed.

Lemma insert_newest_first_perm (e : Event) (l : list Event) :
  Permutation (insert_newest_first e l) (e :: l).
Proof.
  induction l as [| y l IH]; simpl; [reflexivity |].
  destruct (String.ltb (timestamp_key e) (timestamp_key y)).
  - rewrite IH. apply perm_swap.
  - reflexivity.
Qed.

Lemma sort_newest_first_perm (l : list Event) :
  Permutation (sort_newest_first l) l.
Proof.
  induction l as [| e l IH]; simpl; [reflexivity |].
  rewrite insert_newest_first_perm. now constructor.
Qed.

(** ** Tokens *)

Lemma all_chars_app (p : ascii -> bool) (s t : string) :
  all_chars p (s ++ t) = (all_chars p s && all_chars p t)%bool.
Proof.
  induction s as [| c s IH]; simpl; [reflexivity |].
  now rewrite IH, andb_assoc.
Qed.

Lemma str_lower_app (s t : string) :
  str_lower (s ++ t) = (str_lower s ++ str_lower t)%string.
Proof. induction s as [| c s IH]; simpl; [reflexivity | now rewrite IH]. Qed.

Lemma sub_nonword_app (s t : string) :
  sub_nonword (s ++ t) = (sub_nonword s ++ sub_nonword t)%string.
Proof. induction s as [| c s IH]; simpl; [reflexivity | now rewrite IH]. Qed.

Lemma is_empty_snoc (cur : string) (c : ascii) :
  is_empty (cur ++ String c EmptyString) = false.
Proof. now destruct cur. Qed.

(** Every token of a split is made of the characters that are not white
    space, provided the run being read is. *)
Lemma split_from_chars (q : ascii -> bool) (s : string) :
  forall cur,
    all_chars q cur = true ->
    all_chars (fun c => isspace c || q c) s = true ->
    Forall (fun tok => all_chars q tok = true) (split_from cur s).
Proof.
  induction s as [| c s IH]; intros cur Hcur Hs; simpl.
  - destruct (is_empty cur); auto.
  - simpl in Hs. apply andb_true_iff in Hs. destruct Hs as [Hc Hs].
    destruct (isspace c) eqn:Hsp.
    + destruct (is_empty cur); [| constructor; [assumption |]];
        now apply IH.
    + apply IH; [| assumption].
      rewrite all_chars_app, Hcur. simpl in *. now rewrite Hc.
Qed.

Lemma split_from_nonempty (s : string) :
  forall cur, Forall (fun tok => is_empty tok = false) (split_from cur s).
Proof.
  induction s as [| c s IH]; intros cur; simpl.
  - destruct (is_empty cur) eqn:E; auto.
  - destruct (isspace c).
    + destruct (is_empty cur) eqn:E; [apply IH |].
      constructor; [assumption | apply IH].
    + apply IH.
Qed.

(** A split distributes over a white space character. *)
Lemma split_from_sep (a b : string) (sp : ascii) :
  isspace sp = true ->
  forall cur,
    split_from cur (a ++ String sp b)
    = split_from cur a ++ split_from EmptyString b.
Proof.
  intros Hsp. induction a as [| c a IH]; intros cur; simpl.
  - rewrite Hsp. now destruct (is_empty cur).
  - destruct (isspace c).
    + destruct (is_empty cur); now rewrite IH.
    + apply IH.
Qed.

Lemma str_split_sep (a b : string) :
  str_split (a ++ " " ++ b) = str_split a ++ str_split b.
Proof. unfold str_split. now apply split_from_sep. Qed.

Lemma split_from_blank (s : string) :
  all_chars isspace s = true -> split_from EmptyString s = [].
Proof.
  induction s as [| c s IH]; simpl; [reflexivity |].
  intros H. apply andb_true_iff in H. destruct H as [Hc Hs].
  rewrite Hc. now apply IH.
Qed.

Lemma isspace_space : isspace space = true.
Proof. reflexivity. Qed.

Lemma sub_nonword_chars (s : string) :
  all_chars (fun c => isspace c || isword c) (sub_nonword s) = true.
Proof.
  induction s as [| c s IH]; simpl; [reflexivity |].
  rewrite IH, andb_true_r.
  destruct (isword c) eqn:Hw; simpl; [rewrite Hw; apply orb_true_r |].
  destruct (isspace c) eqn:Hs; simpl; [now rewrite Hs | reflexivity].
Qed.

Lemma sub_nonword_blank (s : string) :
  all_chars (fun c => negb (isword c)) s = true ->
  all_chars isspace (sub_nonword s) = true.
Proof.
  induction s as [| c s IH]; simpl; [reflexivity |].
  intros H. apply andb_true_iff in H. destruct H as [Hc Hs].
  rewrite (IH Hs), andb_true_r.
  apply negb_true_iff in Hc. rewrite Hc. simpl.
  destruct (isspace c) eqn:E; [exact E | reflexivity].
Qed.

Lemma lower_char_word (c : ascii) : isword (lower_char c) = isword c.
Proof.
  destruct c as [[] [] [] [] [] [] [] []]; reflexivity.
Qed.

Lemma str_lower_nonword (s : string) :
  all_chars (fun c => negb (isword c)) (str_lower s)
  = all_chars (fun c => negb (isword c)) s.
Proof.
  induction s as [| c s IH]; simpl; [reflexivity |].
  now rewrite IH, lower_char_word.
Qed.

(** ** The safety checker *)

Module SafetyFacts.
Import SafetyAgent.

Lemma applies_iff (new_drug : string) (cur : list string) (i : Interaction) :
  applies (str_lower new_drug) (map str_lower cur) i = true <->
  exists d, In d cur /\
    unordered_pair_eq (str_lower new_drug) (str_lower d)
                      (str_lower (drug_a i)) (str_lower (drug_b i)).
Proof.
  unfold applies.
  rewrite orb_true_iff, !andb_true_iff, !String.eqb_eq, !str_mem_In,
    !in_map_iff.
  split.
  - intros [[Ha [d [Hd Hin]]] | [Hb [d [Hd Hin]]]];
      exists d; (split; [assumption |]);
      apply unordered_pair_eq_cases; [left | right]; auto.
  - intros [d [Hin Hp]]. apply unordered_pair_eq_cases in Hp.
    destruct Hp as [[H1 H2] | [H1 H2]]; [left | right];
      (split; [auto | exists d; auto]).
Qed.

Lemma applies_swap (n : string) (cur : list string) (i : Interaction) :
  applies n cur (swap_sides i) = applies n cur i.
Proof. unfold applies, swap_sides; simpl. apply orb_comm. Qed.

Lemma filter_map_swap (p : Interaction -> bool) (l : list Interaction) :
  (forall i, p (swap_sides i) = p i) ->
  filter p (map swap_sides l) = map swap_sides (filter p l).
Proof.
  intros Hp. induction l as [| i l IH]; simpl; [reflexivity |].
  rewrite Hp. destruct (p i); simpl; now rewrite IH.
Qed.

Lemma first_match_sym (a b : string) (l : list Interaction) :
  first_match a b l = first_match b a l.
Proof.
  induction l as [| i l IH]; simpl; [reflexivity |].
  rewrite IH.
  now rewrite (orb_comm (String.eqb (str_lower (drug_a i)) a
                          && String.eqb (str_lower (drug_b i)) b)).
Qed.

Lemma find_interactions_In (m : MemoryAgent) (new_drug : string)
    (cur : list string) (i : Interaction) :
  In i (_find_interactions m new_drug cur) <->
  In i (get_all_drug_interactions m) /\
  exists d, In d cur /\
    unordered_pair_eq (str_lower new_drug) (str_lower d)
                      (str_lower (drug_a i)) (str_lower (drug_b i)).
Proof.
  unfold _find_interactions. rewrite filter_In, applies_iff. reflexivity.
Qed.

Lemma nonempty_iff_In {A : Type} (l : list A) :
  l <> [] <-> exists x, In x l.
Proof.
  destruct l as [| x l]; split.
  - intros H. now elim H.
  - intros [x []].
  - intros _. exists x. now left.
  - discriminate.
Qed.

Lemma safe_false_iff (m : MemoryAgent) (pid new_drug : string) :
  safe (check_new_medication m pid new_drug) = false <->
  _find_interactions m new_drug (_get_patient_medications m pid) <> [].
Proof.
  unfold check_new_medication.
  destruct (_get_patient_medications m pid) as [| d ds] eqn:Hmeds.
  - simpl. split; [discriminate |].
    intros H. apply nonempty_iff_In in H. destruct H as [i Hi].
    apply find_interactions_In in Hi. destruct Hi as [_ [d [[] _]]].
  - destruct (_find_interactions m new_drug (d :: ds)); simpl;
      split; congruence.
Qed.

(** C1.  The safety check flags an interaction exactly when some stored
    interaction has, up to letter case, the unordered pair
    [{drug_a, drug_b}] equal to [{candidate, d}] for a current drug [d]:
    this characterises the records found, the non-emptiness of the
    result and the [safe] flag of the verdict.  Storing every interaction
    with its sides exchanged finds the same records (exchanged), and
    [get_interaction_details a b] is [get_interaction_details b a]. *)
Theorem C1_unordered_pair_lookup (m : MemoryAgent) (pid : string)
    (new_drug : string) (cur : list string) :
  (forall i,
     In i (_find_interactions m new_drug cur) <->
     In i (get_all_drug_interactions m) /\
     exists d, In d cur /\
       unordered_pair_eq (str_lower new_drug) (str_lower d)
                         (str_lower (drug_a i)) (str_lower (drug_b i)))
  /\ (_find_interactions m new_drug cur <> [] <->
      exists i d, In i (get_all_drug_interactions m) /\ In d cur /\
        unordered_pair_eq (str_lower new_drug) (str_lower d)
                          (str_lower (drug_a i)) (str_lower (drug_b i)))
  /\ (safe (check_new_medication m pid new_drug) = false <->
      exists i d, In i (get_all_drug_interactions m) /\
        In d (_get_patient_medications m pid) /\
        unordered_pair_eq (str_lower new_drug) (str_lower d)
                          (str_lower (drug_a i)) (str_lower (drug_b i)))
  /\ _find_interactions (swap_storage m) new_drug cur
     = map swap_sides (_find_interactions m new_drug cur)
  /\ (forall a b,
        get_interaction_details m a b = get_interaction_details m b a).
Proof.
  assert (Hne : forall c,
    _find_interactions m new_drug c <> [] <->
    exists i d, In i (get_all_drug_interactions m) /\ In d c /\
      unordered_pair_eq (str_lower new_drug) (str_lower d)
                        (str_lower (drug_a i)) (str_lower (drug_b i))).
  { intros c. rewrite nonempty_iff_In. split.
    - intros [i Hi]. apply find_interactions_In in Hi.
      destruct Hi as [Hall [d [Hd Hp]]]. now exists i, d.
    - intros [i [d [Hall [Hd Hp]]]]. exists i.
      apply find_interactions_In. split; [assumption | now exists d]. }
  split; [intros i; apply find_interactions_In |].
  split; [apply Hne |].
  split; [rewrite safe_false_iff; apply Hne |].
  split.
  - unfold _find_interactions, get_all_drug_interactions, swap_storage.
    cbn [stored_interactions]. rewrite firstn_map. apply filter_map_swap.
    intros i. apply applies_swap.
  - intros a b. unfold get_interaction_details. apply first_match_sym.
Qed.

Lemma severity_order_cases (s : string) :
  (s = "severe" /\ severity_order s = 3)
  \/ (s = "moderate" /\ severity_order s = 2)
  \/ (s <> "severe" /\ s <> "moderate" /\ severity_order s = 1).
Proof.
  unfold severity_order.
  destruct (String.eqb_spec s "severe") as [-> | H1]; [now left |].
  destruct (String.eqb_spec s "moderate") as [-> | H2]; [now right; left |].
  right; right. now destruct (String.eqb s "mild").
Qed.

Lemma name_of_severity_order (s : string) :
  In s severity_names -> name_of_rank (severity_order s) = s.
Proof.
  intros [<- | [<- | [<- | []]]]; reflexivity.
Qed.

Lemma max_severity_step_eq (lvl : string) (v : nat) (i : Interaction) :
  max_severity_step (lvl, v) i
  = if Nat.ltb v (rank_of i)
    then (str_lower (get_or (severity i) "mild"), rank_of i)
    else (lvl, v).
Proof. reflexivity. Qed.

Lemma max_severity_fold (l : list Interaction) :
  forall lvl v,
    In lvl severity_names -> v = severity_order lvl ->
    In (fst (fold_left max_severity_step l (lvl, v))) severity_names
    /\ snd (fold_left max_severity_step l (lvl, v))
       = severity_order (fst (fold_left max_severity_step l (lvl, v)))
    /\ snd (fold_left max_severity_step l (lvl, v))
       = Nat.max v (list_max (map rank_of l)).
Proof.
  induction l as [| i l IH]; intros lvl v Hin Hv.
  - simpl. repeat split; auto. now rewrite Nat.max_0_r.
  - cbn [fold_left map]. rewrite max_severity_step_eq.
    change (list_max (rank_of i :: map rank_of l))
      with (Nat.max (rank_of i) (list_max (map rank_of l))).
    destruct (Nat.ltb_spec v (rank_of i)) as [Hlt | Hge].
    + destruct (IH (str_lower (get_or (severity i) "mild")) (rank_of i))
        as [H1 [H2 H3]].
      * unfold rank_of in Hlt.
        destruct (severity_order_cases (str_lower (get_or (severity i) "mild")))
          as [[-> _] | [[-> _] | [_ [_ H]]]];
          [simpl; auto | simpl; auto |].
        rewrite H in Hlt.
        destruct (severity_order_cases lvl) as [[_ E] | [[_ E] | [_ [_ E]]]];
          rewrite <- Hv in E; lia.
      * reflexivity.
      * repeat split; auto. rewrite H3. lia.
    + destruct (IH lvl v Hin Hv) as [H1 [H2 H3]].
      repeat split; auto. rewrite H3. lia.
Qed.

Lemma rank_of_bounds (i : Interaction) : 1 <= rank_of i <= 3.
Proof.
  unfold rank_of.
  destruct (severity_order_cases (str_lower (get_or (severity i) "mild")))
    as [[_ E] | [[_ E] | [_ [_ E]]]]; rewrite E; lia.
Qed.

Lemma get_max_severity_rank (l : list Interaction) :
  In (_get_max_severity l) severity_names
  /\ severity_order (_get_max_severity l)
     = Nat.max 1 (list_max (map rank_of l)).
Proof.
  unfold _get_max_severity.
  destruct (max_severity_fold l "mild" 1) as [H1 [H2 H3]];
    [simpl; auto | reflexivity |].
  split; [exact H1 | now rewrite <- H2].
Qed.

Lemma get_max_severity_name (l : list Interaction) :
  _get_max_severity l = name_of_rank (Nat.max 1 (list_max (map rank_of l))).
Proof.
  destruct (get_max_severity_rank l) as [H1 H2].
  rewrite <- H2. symmetry. now apply name_of_severity_order.
Qed.

Lemma recognisedb_spec (i : Interaction) :
  recognisedb i = true <-> recognised i.
Proof.
  unfold recognisedb, recognised. destruct (severity i) as [s |].
  - rewrite str_mem_In. split.
    + intros H. now exists s.
    + intros [s' [E H]]. now inversion E; subst.
  - split; [discriminate | intros [s [E _]]; discriminate].
Qed.

Lemma rank_of_unrecognised (i : Interaction) :
  ~ recognised i -> rank_of i = 1.
Proof.
  intros Hn. unfold rank_of.
  destruct (severity i) as [s |] eqn:Hs; [| reflexivity]. simpl.
  destruct (severity_order_cases (str_lower s))
    as [[E _] | [[E _] | [_ [_ E]]]]; [| | exact E];
    exfalso; apply Hn; exists s; rewrite E; simpl; auto.
Qed.

Lemma rank_of_as_mild (i : Interaction) :
  rank_of (as_mild_if_unknown i) = rank_of i.
Proof.
  unfold as_mild_if_unknown.
  destruct (recognisedb i) eqn:Hr; [reflexivity |].
  rewrite (rank_of_unrecognised i); [reflexivity |].
  intros H. apply recognisedb_spec in H. congruence.
Qed.

Lemma list_max_attained (l : list nat) : l <> [] -> In (list_max l) l.
Proof.
  induction l as [| x l IH]; [congruence | intros _].
  destruct l as [| y l].
  - left. simpl. lia.
  - change (list_max (x :: y :: l)) with (Nat.max x (list_max (y :: l))).
    destruct (Nat.max_spec x (list_max (y :: l))) as [[_ E] | [_ E]];
      rewrite E.
    + right. apply IH. discriminate.
    + now left.
Qed.

Lemma verdict_max_severity (m : MemoryAgent) (pid new_drug : string) :
  safe (check_new_medication m pid new_drug) = false ->
  interactions (check_new_medication m pid new_drug) <> []
  /\ max_severity (check_new_medication m pid new_drug)
     = Some (_get_max_severity
               (interactions (check_new_medication m pid new_drug))).
Proof.
  unfold check_new_medication.
  destruct (_get_patient_medications m pid) as [| d ds]; [discriminate |].
  destruct (_find_interactions m new_drug (d :: ds)) as [| i l];
    [discriminate |].
  intros _. split; [discriminate | reflexivity].
Qed.

Lemma max_severity_attained (l : list Interaction) :
  l <> [] -> Forall recognised l ->
  exists i, In i l
    /\ _get_max_severity l = str_lower (get_or (severity i) "mild")
    /\ forall j, In j l -> rank_of j <= rank_of i.
Proof.
  intros Hne Hrec.
  assert (Hin : In (list_max (map rank_of l)) (map rank_of l)).
  { apply list_max_attained. destruct l; [congruence | discriminate]. }
  apply in_map_iff in Hin. destruct Hin as [i [Hi Hil]].
  exists i. split; [assumption |]. split.
  - rewrite get_max_severity_name, <- Hi.
    pose proof (rank_of_bounds i) as Hb.
    rewrite Nat.max_r by lia. unfold rank_of.
    apply name_of_severity_order.
    rewrite Forall_forall in Hrec. destruct (Hrec i Hil) as [s [Hs Hn]].
    now rewrite Hs.
  - intros j Hj. rewrite Hi.
    assert (H := proj1 (list_max_le (map rank_of l)
                          (list_max (map rank_of l))) (Nat.le_refl _)).
    rewrite Forall_forall in H. apply H. now apply in_map.
Qed.

(** The verdict for a non-empty list of applying interactions. *)
Lemma verdict_of_findings (m : MemoryAgent) (pid new_drug : string) :
  _find_interactions m new_drug (_get_patient_medications m pid) <> [] ->
  safe (check_new_medication m pid new_drug) = false
  /\ interactions (check_new_medication m pid new_drug)
     = _find_interactions m new_drug (_get_patient_medications m pid)
  /\ max_severity (check_new_medication m pid new_drug)
     = Some (_get_max_severity
               (_find_interactions m new_drug
                  (_get_patient_medications m pid))).
Proof.
  intros Hfound. pose proof (proj2 (safe_false_iff m pid new_drug) Hfound)
    as Hsafe.
  revert Hfound Hsafe. unfold check_new_medication.
  destruct (_get_patient_medications m pid) as [| d ds];
    [intros _ H; discriminate H |].
  destruct (_find_interactions m new_drug (d :: ds)) as [| i l];
    [intros _ H; discriminate H |].
  intros _ _. repeat split.
Qed.

(** C2.  For a non-empty list of interactions whose severities are all
    among mild, moderate and severe (in any letter case), the severity
    returned is the lower-cased severity of a record of the list whose
    rank is maximal, for the ranks severe 3, moderate 2, mild 1.  A
    record with an unrecognised or missing severity has rank 1 and is
    treated as mild: replacing its severity by mild does not change the
    result, which is always one of the three names.  An unsafe verdict
    carries this severity of its non-empty list of interactions.
    Whenever the list of applying interactions is not empty, the verdict
    is unsafe, carries that list, and its [max_severity] is the severity
    returned for the list: the lower-cased severity of an applying
    interaction of maximal rank when all their severities are among the
    three names. *)
Theorem C2_max_severity (l : list Interaction) :
  (l <> [] -> Forall recognised l ->
   exists i, In i l
     /\ _get_max_severity l = str_lower (get_or (severity i) "mild")
     /\ forall j, In j l -> rank_of j <= rank_of i)
  /\ (severity_order "severe" = 3 /\ severity_order "moderate" = 2
      /\ severity_order "mild" = 1)
  /\ (forall i, ~ recognised i -> rank_of i = 1)
  /\ _get_max_severity l = _get_max_severity (map as_mild_if_unknown l)
  /\ In (_get_max_severity l) severity_names
  /\ (forall m pid new_drug,
        safe (check_new_medication m pid new_drug) = false ->
        interactions (check_new_medication m pid new_drug) <> []
        /\ max_severity (check_new_medication m pid new_drug)
           = Some (_get_max_severity
                     (interactions (check_new_medication m pid new_drug))))
  /\ (forall m pid new_drug,
        _find_interactions m new_drug (_get_patient_medications m pid)
        <> [] ->
        safe (check_new_medication m pid new_drug) = false
        /\ interactions (check_new_medication m pid new_drug)
           = _find_interactions m new_drug (_get_patient_medications m pid)
        /\ max_severity (check_new_medication m pid new_drug)
           = Some (_get_max_severity
                     (_find_interactions m new_drug
                        (_get_patient_medications m pid)))
        /\ (Forall recognised
              (_find_interactions m new_drug
                 (_get_patient_medications m pid)) ->
            exists i,
              In i (_find_interactions m new_drug
                      (_get_patient_medications m pid))
              /\ max_severity (check_new_medication m pid new_drug)
                 = Some (str_lower (get_or (severity i) "mild"))
              /\ forall j,
                   In j (_find_interactions m new_drug
                           (_get_patient_medications m pid)) ->
                   rank_of j <= rank_of i)).
Proof.
  split; [| split; [| split; [| split; [| split; [| split]]]]].
  - apply max_severity_attained.
  - repeat split; reflexivity.
  - apply rank_of_unrecognised.
  - rewrite !get_max_severity_name, map_map.
    do 3 f_equal. apply map_ext. intros i. symmetry. apply rank_of_as_mild.
  - apply get_max_severity_rank.
  - apply verdict_max_severity.
  - intros m pid new_drug Hfound.
    destruct (verdict_of_findings m pid new_drug Hfound) as [Hs [Hi Hm]].
    split; [exact Hs |]. split; [exact Hi |]. split; [exact Hm |].
    intros Hrec.
    destruct (max_severity_attained _ Hfound Hrec) as [i [Hin [Hmax Hle]]].
    exists i. split; [exact Hin |]. split; [| exact Hle].
    now rewrite Hm, Hmax.
Qed.

(** C1, on the sample data: Warfarin is stored as [drug_a] and Aspirin as
    [drug_b]; the candidate "warfarin" against a patient on Aspirin is
    flagged through the pair of the stored record. *)
Lemma C1_unordered_pair_lookup_witness :
  safe (check_new_medication sample_memory "p1" "warfarin") = false
  /\ get_interaction_details sample_memory "aspirin" "WARFARIN"
     = get_interaction_details sample_memory "WARFARIN" "aspirin".
Proof.
  destruct (C1_unordered_pair_lookup sample_memory "p1" "warfarin" ["Aspirin"])
    as [_ [_ [H3 [_ H5]]]].
  split; [| apply H5].
  apply H3. exists warfarin_aspirin, "Aspirin".
  split; [simpl; auto |]. split; [simpl; auto |].
  apply unordered_pair_eq_cases. left. split; reflexivity.
Defined.

(** C2, on the sample data: against a patient on Warfarin and
    Ibuprofen the candidate "aspirin" meets a severe and a moderate
    interaction, and the verdict reports "severe". *)
Lemma C2_max_severity_witness :
  [aspirin_ibuprofen; warfarin_aspirin] <> []
  /\ Forall recognised [aspirin_ibuprofen; warfarin_aspirin]
  /\ _get_max_severity [aspirin_ibuprofen; warfarin_aspirin] = "severe"
  /\ (exists i, In i [aspirin_ibuprofen; warfarin_aspirin]
        /\ _get_max_severity [aspirin_ibuprofen; warfarin_aspirin]
           = str_lower (get_or (severity i) "mild")
        /\ forall j, In j [aspirin_ibuprofen; warfarin_aspirin] ->
                     rank_of j <= rank_of i)
  /\ _find_interactions two_drug_memory "aspirin"
       (_get_patient_medications two_drug_memory "p1")
     = [warfarin_aspirin; aspirin_ibuprofen]
  /\ safe (check_new_medication two_drug_memory "p1" "aspirin") = false
  /\ max_severity (check_new_medication two_drug_memory "p1" "aspirin")
     = Some "severe".
Proof.
  assert (Hne : [aspirin_ibuprofen; warfarin_aspirin] <> []) by discriminate.
  assert (Hrec : Forall recognised [aspirin_ibuprofen; warfarin_aspirin]).
  { repeat constructor.
    - exists "Moderate". split; [reflexivity | simpl; auto].
    - exists "severe". split; [reflexivity | simpl; auto]. }
  split; [exact Hne |]. split; [exact Hrec |]. split; [reflexivity |].
  split.
  { exact (proj1 (C2_max_severity [aspirin_ibuprofen; warfarin_aspirin])
                 Hne Hrec). }
  assert (Hfound : _find_interactions two_drug_memory "aspirin"
                     (_get_patient_medications two_drug_memory "p1")
                   = [warfarin_aspirin; aspirin_ibuprofen]) by reflexivity.
  split; [exact Hfound |].
  destruct (C2_max_severity []) as [_ [_ [_ [_ [_ [_ Hverdict]]]]]].
  destruct (Hverdict two_drug_memory "p1" "aspirin")
    as [Hsafe [_ [Hmax _]]].
  - rewrite Hfound. discriminate.
  - split; [exact Hsafe |]. rewrite Hmax, Hfound. reflexivity.
Defined.

Lemma messages_differ (new_drug : string) :
  no_interactions_message new_drug <> no_medications_message.
Proof.
  unfold no_interactions_message, no_medications_message. simpl.
  intros H. discriminate H.
Qed.

(** C3.  With no current medication on record the verdict is safe and
    carries the message "No current medications on record."; with
    current medications of which none takes part in an applying
    interaction the verdict is safe and carries the message "No known
    interactions found between <candidate> and current medications.".
    The two messages differ for every candidate, and both outcomes are
    verdicts, not exceptions. *)
Theorem C3_no_data_vs_clear (m : MemoryAgent) (pid new_drug : string) :
  (_get_patient_medications m pid = [] ->
   check_new_medication m pid new_drug
   = mkVerdict true new_drug [] [] None "No current medications on record.")
  /\ (_get_patient_medications m pid <> [] ->
      _find_interactions m new_drug (_get_patient_medications m pid) = [] ->
      check_new_medication m pid new_drug
      = mkVerdict true new_drug (_get_patient_medications m pid) [] None
          ("No known interactions found between " ++ new_drug
           ++ " and current medications.")%string)
  /\ ("No known interactions found between " ++ new_drug
      ++ " and current medications.")%string
     <> "No current medications on record.".
Proof.
  split; [| split].
  - intros H. unfold check_new_medication. now rewrite H.
  - intros Hne Hnone. unfold check_new_medication.
    destruct (_get_patient_medications m pid) as [| d ds]; [congruence |].
    now rewrite Hnone.
  - apply messages_differ.
Qed.

Lemma C3_no_data_vs_clear_witness :
  message (check_new_medication empty_memory "p1" "Aspirin")
  = "No current medications on record."
  /\ message (check_new_medication tylenol_memory "p1" "Aspirin")
     = "No known interactions found between Aspirin and current medications."
  /\ safe (check_new_medication empty_memory "p1" "Aspirin") = true
  /\ safe (check_new_medication tylenol_memory "p1" "Aspirin") = true.
Proof.
  destruct (C3_no_data_vs_clear empty_memory "p1" "Aspirin") as [H1 _].
  destruct (C3_no_data_vs_clear tylenol_memory "p1" "Aspirin") as [_ [H2 _]].
  rewrite H1 by reflexivity.
  rewrite H2; [| discriminate | reflexivity].
  repeat split.
Defined.

(** C4 as stated fails: "Warfarin " with a trailing blank and "Warfarin"
    differ in surrounding white space only, yet the first finds nothing
    where the second finds the stored interaction, as candidate and as
    an argument of [get_interaction_details]. *)
Lemma C4_trimming_counterexample :
  ~ (forall m a a' b cur,
       same_ignoring_case_and_space a a' ->
       _find_interactions m a cur = _find_interactions m a' cur
       /\ get_interaction_details m a b = get_interaction_details m a' b).
Proof.
  intros H.
  destruct (H sample_memory "Warfarin" "Warfarin " "Aspirin" ["Aspirin"]
              eq_refl) as [H1 _].
  vm_compute in H1. discriminate H1.
Qed.

Lemma same_case_map (cur cur' : list string) :
  Forall2 same_ignoring_case cur cur' ->
  map str_lower cur = map str_lower cur'.
Proof.
  induction 1 as [| x y l l' Hxy _ IH]; simpl; [reflexivity |].
  unfold same_ignoring_case in Hxy. now rewrite Hxy, IH.
Qed.

(** C4, amended.  The safety checker normalises a name by lower-casing
    only: candidates, current drugs and the arguments of
    [get_interaction_details] that differ in letter case only give the
    same result.  Surrounding white space is not removed. *)
Theorem C4_case_insensitive_only (m : MemoryAgent)
    (a a' b b' : string) (cur cur' : list string) :
  same_ignoring_case a a' ->
  same_ignoring_case b b' ->
  Forall2 same_ignoring_case cur cur' ->
  _find_interactions m a cur = _find_interactions m a' cur'
  /\ get_interaction_details m a b = get_interaction_details m a' b'.
Proof.
  unfold same_ignoring_case. intros Ha Hb Hcur.
  unfold _find_interactions, get_interaction_details.
  now rewrite Ha, Hb, (same_case_map _ _ Hcur).
Qed.

Lemma C4_case_insensitive_only_witness :
  _find_interactions sample_memory "WARFARIN" ["ASPIRIN"]
  = _find_interactions sample_memory "warfarin" ["aspirin"]
  /\ get_interaction_details sample_memory "WARFARIN" "Aspirin"
     = get_interaction_details sample_memory "warfarin" "aSPIRIN".
Proof.
  apply C4_case_insensitive_only.
  - reflexivity.
  - reflexivity.
  - repeat constructor.
Defined.

End SafetyFacts.

(** ** The keyword extractors *)

Module KeywordFacts.
Import PatternAgent.

Lemma lower_sep (t1 t2 : string) :
  str_lower (t1 ++ " " ++ t2) = (str_lower t1 ++ " " ++ str_lower t2)%string.
Proof. now rewrite str_lower_app. Qed.

Lemma helper_tokens_sep (t1 t2 : string) :
  str_split (sub_nonword (str_lower (t1 ++ " " ++ t2)))
  = str_split (sub_nonword (str_lower t1))
    ++ str_split (sub_nonword (str_lower t2)).
Proof.
  rewrite lower_sep, sub_nonword_app.
  change (sub_nonword (" " ++ str_lower t2))
    with (" " ++ sub_nonword (str_lower t2))%string.
  apply str_split_sep.
Qed.

(** C9 as stated fails on the extractor of the pattern agent, the one
    the detector calls: it strips the characters ".,!?;:" from the ends
    of a word only, so the token "head-ache" keeps its hyphen, which is
    no word character. *)
Lemma C9_pattern_extractor_counterexample :
  ~ (forall text tok,
       In tok (_extract_keywords text) ->
       all_chars isword tok = true
       /\ default_min_length <= String.length tok
       /\ ~ In tok stop_words).
Proof.
  intros H.
  destruct (H "My head-ache!" "head-ache") as [Hword _].
  - vm_compute. auto.
  - vm_compute in Hword. discriminate Hword.
Qed.

(** C9, amended.  Every token returned by [extract_keywords_from_text]
    consists of word characters only, has at least [min_length]
    characters and is no stop word; the empty text and a text without any
    word character give no token; the tokens of two texts joined by a
    blank are the tokens of the first followed by those of the second, so
    order and repetitions are kept.  The extractor of the pattern agent,
    [_extract_keywords], keeps order and repetitions too and returns
    nothing on the empty text, but each of its tokens is only the result
    of stripping the characters ".,!?;:" from both ends of a lower-cased
    word of more than 3 characters that is none of its stop words. *)
Theorem C9_keyword_tokens (text : string) (min_length : nat) :
  (forall tok,
     In tok (extract_keywords_from_text text min_length) ->
     all_chars isword tok = true
     /\ min_length <= String.length tok
     /\ ~ In tok helper_stop_words)
  /\ extract_keywords_from_text "" min_length = []
  /\ (all_chars (fun c => negb (isword c)) text = true ->
      extract_keywords_from_text text min_length = [])
  /\ (forall t1 t2,
        extract_keywords_from_text (t1 ++ " " ++ t2) min_length
        = extract_keywords_from_text t1 min_length
          ++ extract_keywords_from_text t2 min_length)
  /\ (forall tok,
        In tok (_extract_keywords text) ->
        exists word,
          In word (str_split (str_lower text))
          /\ 3 < String.length word
          /\ ~ In word stop_words
          /\ tok = str_strip_chars ".,!?;:" word)
  /\ _extract_keywords "" = []
  /\ (forall t1 t2,
        _extract_keywords (t1 ++ " " ++ t2)
        = _extract_keywords t1 ++ _extract_keywords t2).
Proof.
  split; [| split; [| split; [| split; [| split; [| split]]]]].
  - intros tok Hin. unfold extract_keywords_from_text in Hin.
    apply filter_In in Hin. destruct Hin as [Hin Hc].
    apply andb_true_iff in Hc. destruct Hc as [Hlen Hstop].
    split; [| split].
    + pose proof (split_from_chars isword (sub_nonword (str_lower text))
                    EmptyString eq_refl (sub_nonword_chars _)) as HF.
      rewrite Forall_forall in HF. now apply HF.
    + now apply Nat.leb_le.
    + apply negb_true_iff in Hstop. intros Hmem.
      apply str_mem_In in Hmem. congruence.
  - reflexivity.
  - intros Hnw. unfold extract_keywords_from_text, str_split.
    rewrite split_from_blank; [reflexivity |].
    apply sub_nonword_blank. now rewrite str_lower_nonword.
  - intros t1 t2. unfold extract_keywords_from_text.
    now rewrite helper_tokens_sep, filter_app.
  - intros tok Hin. unfold _extract_keywords in Hin.
    apply in_map_iff in Hin. destruct Hin as [word [Htok Hin]].
    apply filter_In in Hin. destruct Hin as [Hin Hc].
    apply andb_true_iff in Hc. destruct Hc as [Hlen Hstop].
    exists word. split; [assumption |]. split; [now apply Nat.ltb_lt |].
    split; [| now symmetry].
    apply negb_true_iff in Hstop. intros Hmem.
    apply str_mem_In in Hmem. congruence.
  - reflexivity.
  - intros t1 t2. unfold _extract_keywords.
    now rewrite lower_sep, str_split_sep, filter_app, map_app.
Qed.

Lemma C9_keyword_tokens_witness :
  In "headache" (extract_keywords_from_text "I have a bad HEADACHE!" 4)
  /\ all_chars isword "headache" = true
  /\ 4 <= String.length "headache"
  /\ ~ In "headache" helper_stop_words
  /\ extract_keywords_from_text "?! ... --" 4 = []
  /\ extract_keywords_from_text "pain, pain" 4 = ["pain"; "pain"].
Proof.
  assert (Hin : In "headache"
                  (extract_keywords_from_text "I have a bad HEADACHE!" 4)).
  { vm_compute. auto. }
  destruct (C9_keyword_tokens "I have a bad HEADACHE!" 4) as [H _].
  destruct (H "headache" Hin) as [H1 [H2 H3]].
  destruct (C9_keyword_tokens "?! ... --" 4) as [_ [_ [Hblank _]]].
  repeat split; auto.
Defined.

End KeywordFacts.

(** ** Counters *)

Lemma counter_add_count (k k' : string) (c : list (string * nat)) :
  count_of k' (counter_add k c)
  = count_of k' c + (if String.eqb k' k then 1 else 0).
Proof.
  induction c as [| [k0 n] c IH]; simpl.
  - now destruct (String.eqb k' k).
  - destruct (String.eqb_spec k k0) as [-> | Hk]; simpl.
    + destruct (String.eqb k' k0); lia.
    + destruct (String.eqb_spec k' k0) as [-> | Hk'].
      * destruct (String.eqb_spec k0 k); [congruence | lia].
      * apply IH.
Qed.

Lemma counter_add_keys (k k' : string) (c : list (string * nat)) :
  In k' (map fst (counter_add k c)) <-> k' = k \/ In k' (map fst c).
Proof.
  induction c as [| [k0 n] c IH]; simpl.
  - intuition auto.
  - destruct (String.eqb_spec k k0) as [-> | Hk]; simpl.
    + intuition auto.
    + rewrite IH. intuition auto.
Qed.

Lemma counter_add_NoDup (k : string) (c : list (string * nat)) :
  NoDup (map fst c) -> NoDup (map fst (counter_add k c)).
Proof.
  induction c as [| [k0 n] c IH]; simpl; intros Hnd.
  - repeat constructor. intros [].
  - inversion Hnd as [| ? ? Hnotin Hnd']; subst.
    destruct (String.eqb_spec k k0) as [-> | Hk]; simpl.
    + now constructor.
    + constructor; [| now apply IH].
      rewrite counter_add_keys. intros [E | Hin]; [congruence | auto].
Qed.

Lemma counter_add_positive (k : string) (c : list (string * nat)) :
  Forall (fun e => 0 < snd e) c ->
  Forall (fun e => 0 < snd e) (counter_add k c).
Proof.
  induction c as [| [k0 n] c IH]; simpl; intros H.
  - repeat constructor.
  - inversion H; subst.
    destruct (String.eqb k k0); constructor; simpl in *; auto; lia.
Qed.

Lemma Counter_snoc (l : list string) (k : string) :
  Counter (l ++ [k]) = counter_add k (Counter l).
Proof. unfold Counter. now rewrite fold_left_app. Qed.

Lemma Counter_count (l : list string) (k : string) :
  count_of k (Counter l) = count_occ string_dec l k.
Proof.
  induction l as [| x l IH] using rev_ind; [reflexivity |].
  rewrite Counter_snoc, counter_add_count, IH, count_occ_app. simpl.
  destruct (string_dec x k) as [-> | Hne].
  - now rewrite String.eqb_refl.
  - destruct (String.eqb_spec k x); [congruence | reflexivity].
Qed.

Lemma Counter_keys (l : list string) (k : string) :
  In k (map fst (Counter l)) <-> In k l.
Proof.
  induction l as [| x l IH] using rev_ind; [reflexivity |].
  rewrite Counter_snoc, counter_add_keys, IH, in_app_iff. simpl.
  intuition auto.
Qed.

Lemma Counter_NoDup (l : list string) : NoDup (map fst (Counter l)).
Proof.
  induction l as [| x l IH] using rev_ind; [constructor |].
  rewrite Counter_snoc. now apply counter_add_NoDup.
Qed.

Lemma count_of_entry (c : list (string * nat)) (k : string) (n : nat) :
  NoDup (map fst c) -> In (k, n) c -> count_of k c = n.
Proof.
  induction c as [| [k0 n0] c IH]; simpl; intros Hnd Hin; [contradiction |].
  inversion Hnd as [| ? ? Hnotin Hnd']; subst.
  destruct Hin as [E | Hin].
  - inversion E; subst. now rewrite String.eqb_refl.
  - destruct (String.eqb_spec k k0) as [-> | Hk]; [| now apply IH].
    exfalso. apply Hnotin. now apply (in_map fst) in Hin.
Qed.

Lemma entry_of_key (c : list (string * nat)) (k : string) :
  In k (map fst c) -> In (k, count_of k c) c.
Proof.
  induction c as [| [k0 n0] c IH]; simpl; [tauto |].
  destruct (String.eqb_spec k k0) as [-> | Hk]; [now left |].
  intros [E | Hin]; [congruence | right; now apply IH].
Qed.

(** The entries of a counter: each element of the list, once, with the
    number of its occurrences. *)
Lemma Counter_In (l : list string) (k : string) (n : nat) :
  In (k, n) (Counter l) <-> In k l /\ n = count_occ string_dec l k.
Proof.
  split.
  - intros Hin. split.
    + apply Counter_keys. now apply (in_map fst) in Hin.
    + rewrite <- Counter_count. symmetry.
      apply count_of_entry; [apply Counter_NoDup | assumption].
  - intros [Hin ->]. rewrite <- Counter_count.
    apply entry_of_key. now apply Counter_keys.
Qed.

(** ** The pattern detector *)

Module PatternFacts.
Import PatternAgent.

Lemma keywords_of_occurrences (symptoms : list Event) :
  flat_map keywords (map occurrence_of symptoms) = all_keywords_of symptoms.
Proof.
  induction symptoms as [| s l IH]; simpl; [reflexivity | now rewrite IH].
Qed.

Lemma occurrences_mentioning (kw : string) (symptoms : list Event) :
  filter (fun item => str_mem kw (keywords item)) (map occurrence_of symptoms)
  = map occurrence_of (filter (mentions kw) symptoms).
Proof.
  induction symptoms as [| s l IH]; simpl; [reflexivity |].
  unfold mentions at 1.
  destruct (str_mem kw (_extract_keywords (text s))); simpl; now rewrite IH.
Qed.

Lemma pattern_of_eq (symptoms : list Event) (kw : string) (n : nat) :
  pattern_of (map occurrence_of symptoms) (kw, n)
  = mkPattern kw n
      (map timestamp_key (filter (mentions kw) symptoms))
      (map text (filter (mentions kw) symptoms)).
Proof.
  unfold pattern_of. rewrite occurrences_mentioning, !map_map. reflexivity.
Qed.

Lemma patterns_of_detect (m : MemoryAgent) (pid : string) :
  patterns_of (detect_recurring_symptoms m pid)
  = if Nat.ltb (List.length (symptom_history m pid)) 2 then []
    else map (pattern_of (map occurrence_of (symptom_history m pid)))
             (recurring_entries (symptom_history m pid)).
Proof.
  unfold detect_recurring_symptoms, recurring_entries, symptom_history.
  destruct (Nat.ltb _ 2); [reflexivity |].
  rewrite keywords_of_occurrences.
  destruct (filter _ (Counter _)); reflexivity.
Qed.

Lemma recurring_entries_In (symptoms : list Event) (kw : string) (n : nat) :
  In (kw, n) (recurring_entries symptoms) <->
  In kw (all_keywords_of symptoms)
  /\ n = count_occ string_dec (all_keywords_of symptoms) kw
  /\ PATTERN_REPEAT_THRESHOLD <= n.
Proof.
  unfold recurring_entries. rewrite filter_In, Counter_In.
  change (snd (kw, n)) with n. rewrite Nat.leb_le. tauto.
Qed.

Lemma pattern_In (m : MemoryAgent) (pid : string) (p : RecurringPattern) :
  In p (patterns_of (detect_recurring_symptoms m pid)) <->
  2 <= List.length (symptom_history m pid)
  /\ In (symptom_keyword p) (all_keywords_of (symptom_history m pid))
  /\ PATTERN_REPEAT_THRESHOLD <= occurrence_count p
  /\ p = mkPattern (symptom_keyword p)
           (count_occ string_dec (all_keywords_of (symptom_history m pid))
                      (symptom_keyword p))
           (map timestamp_key
                (filter (mentions (symptom_keyword p)) (symptom_history m pid)))
           (map text
                (filter (mentions (symptom_keyword p)) (symptom_history m pid))).
Proof.
  rewrite patterns_of_detect.
  destruct (Nat.ltb_spec (List.length (symptom_history m pid)) 2) as [Hlt | Hge].
  - split; [intros [] | intros [H _]; lia].
  - rewrite in_map_iff. split.
    + intros [[kw n] [Hp Hin]]. rewrite pattern_of_eq in Hp.
      apply recurring_entries_In in Hin. destruct Hin as [Hkw [Hn Hthr]].
      subst p. simpl. repeat split; auto. now rewrite Hn.
    + intros [_ [Hkw [Hthr Hp]]].
      exists (symptom_keyword p, occurrence_count p). split.
      * rewrite pattern_of_eq. rewrite Hp at 5. rewrite Hp at 2.
        reflexivity.
      * apply recurring_entries_In. repeat split; auto.
        rewrite Hp at 1. reflexivity.
Qed.

(** C7.  Every pattern returned by the detector has an occurrence count
    equal to the total number of occurrences of its keyword in the
    keywords of all reports, and this count reaches the repeat threshold;
    no returned pattern has a keyword whose total count is below the
    threshold; the dates and the reports of a pattern are the timestamps
    and the full texts of all reports whose keywords contain its keyword,
    in the order of the history.  With the configured threshold of 2 and
    at least two reports, every keyword that reaches the threshold has a
    pattern. *)
Theorem C7_threshold_invariant (m : MemoryAgent) (pid : string) :
  (forall p,
     In p (patterns_of (detect_recurring_symptoms m pid)) ->
     occurrence_count p
     = count_occ string_dec (all_keywords_of (symptom_history m pid))
                 (symptom_keyword p)
     /\ PATTERN_REPEAT_THRESHOLD <= occurrence_count p
     /\ dates p
        = map timestamp_key
              (filter (mentions (symptom_keyword p)) (symptom_history m pid))
     /\ reports p
        = map text
              (filter (mentions (symptom_keyword p)) (symptom_history m pid)))
  /\ (forall kw,
        count_occ string_dec (all_keywords_of (symptom_history m pid)) kw
        < PATTERN_REPEAT_THRESHOLD ->
        forall p,
          In p (patterns_of (detect_recurring_symptoms m pid)) ->
          symptom_keyword p <> kw)
  /\ (2 <= List.length (symptom_history m pid) ->
      forall kw,
        PATTERN_REPEAT_THRESHOLD
        <= count_occ string_dec (all_keywords_of (symptom_history m pid)) kw ->
        exists p,
          In p (patterns_of (detect_recurring_symptoms m pid))
          /\ symptom_keyword p = kw)
  /\ PATTERN_REPEAT_THRESHOLD = 2.
Proof.
  assert (H1 : forall p,
     In p (patterns_of (detect_recurring_symptoms m pid)) ->
     occurrence_count p
     = count_occ string_dec (all_keywords_of (symptom_history m pid))
                 (symptom_keyword p)
     /\ PATTERN_REPEAT_THRESHOLD <= occurrence_count p
     /\ dates p
        = map timestamp_key
              (filter (mentions (symptom_keyword p)) (symptom_history m pid))
     /\ reports p
        = map text
              (filter (mentions (symptom_keyword p)) (symptom_history m pid))).
  { intros p Hp. apply pattern_In in Hp. destruct Hp as [_ [_ [Hthr Hp]]].
    split; [rewrite Hp at 1; reflexivity |].
    split; [assumption |].
    split; rewrite Hp at 1; reflexivity. }
  split; [exact H1 |]. split; [| split; [| reflexivity]].
  - intros kw Hlt p Hp Hkw. destruct (H1 p Hp) as [Hc [Hthr _]].
    subst kw. lia.
  - intros Hlen kw Hthr.
    exists (mkPattern kw
              (count_occ string_dec (all_keywords_of (symptom_history m pid)) kw)
              (map timestamp_key
                   (filter (mentions kw) (symptom_history m pid)))
              (map text (filter (mentions kw) (symptom_history m pid)))).
    split; [| reflexivity].
    apply pattern_In. simpl. repeat split; auto.
    apply (count_occ_In string_dec). unfold PATTERN_REPEAT_THRESHOLD in Hthr.
    lia.
Qed.

(** The scenario of the specification: one pattern, for "headache", with
    two occurrences and the dates and texts of both reports. *)
Lemma C7_threshold_invariant_witness :
  patterns_of (detect_recurring_symptoms headache_memory "p1")
  = [mkPattern "headache" 2 ["2024-01-03"; "2024-01-01"]
               ["bad headache again"; "headache"]]
  /\ (exists p,
        In p (patterns_of (detect_recurring_symptoms headache_memory "p1"))
        /\ symptom_keyword p = "headache")
  /\ PATTERN_REPEAT_THRESHOLD
     <= count_occ string_dec
          (all_keywords_of (symptom_history headache_memory "p1")) "headache".
Proof.
  split; [reflexivity |].
  split.
  { destruct (C7_threshold_invariant headache_memory "p1")
      as [_ [_ [Hall _]]].
    apply Hall; vm_compute; lia. }
  destruct (C7_threshold_invariant headache_memory "p1") as [H _].
  destruct (H (mkPattern "headache" 2 ["2024-01-03"; "2024-01-01"]
                         ["bad headache again"; "headache"]))
    as [Hc [Hthr _]].
  - left. reflexivity.
  - cbn [occurrence_count symptom_keyword] in Hc, Hthr.
    rewrite <- Hc. exact Hthr.
Defined.

(** C8 as stated fails: the keyword "headache" is written twice in one
    report and in no other, and the detector returns it as a pattern
    although it appears in a single report. *)
Lemma C8_distinct_reports_counterexample :
  ~ (forall m pid p,
       In p (patterns_of (detect_recurring_symptoms m pid)) ->
       PATTERN_REPEAT_THRESHOLD
       <= List.length (filter (mentions (symptom_keyword p))
                              (symptom_history m pid))).
Proof.
  intros H.
  specialize (H repeated_memory "p1"
                (mkPattern "headache" 2 ["2024-01-01"] ["headache headache"])).
  assert (Hin : In (mkPattern "headache" 2 ["2024-01-01"] ["headache headache"])
                   (patterns_of (detect_recurring_symptoms repeated_memory "p1")))
    by (left; reflexivity).
  apply H in Hin. vm_compute in Hin. lia.
Qed.

Lemma count_occ_flat_map (kw : string) (symptoms : list Event) :
  count_occ string_dec (all_keywords_of symptoms) kw
  = list_sum (map (count_in_report kw) symptoms).
Proof.
  induction symptoms as [| s l IH]; simpl; [reflexivity |].
  now rewrite count_occ_app, IH.
Qed.

Lemma mentions_flat_map (kw : string) (symptoms : list Event) :
  In kw (all_keywords_of symptoms) ->
  1 <= List.length (filter (mentions kw) symptoms).
Proof.
  unfold all_keywords_of. rewrite in_flat_map. intros [s [Hs Hkw]].
  assert (Hin : In s (filter (mentions kw) symptoms)).
  { apply filter_In. split; [assumption |]. now apply str_mem_In. }
  destruct (filter (mentions kw) symptoms); [contradiction | simpl; lia].
Qed.

Lemma count_in_report_le_sum (kw : string) (symptoms : list Event)
    (s : Event) :
  In s symptoms ->
  count_in_report kw s <= list_sum (map (count_in_report kw) symptoms).
Proof.
  induction symptoms as [| e l IH]; simpl; [intros [] |].
  intros [-> | Hin]; [lia |]. specialize (IH Hin). lia.
Qed.

(** A keyword has a pattern exactly when the history holds at least two
    reports and the keyword's occurrences over all reports reach the
    threshold. *)
Lemma pattern_for_keyword (m : MemoryAgent) (pid kw : string) :
  (exists p,
     In p (patterns_of (detect_recurring_symptoms m pid))
     /\ symptom_keyword p = kw
     /\ occurrence_count p
        = list_sum (map (count_in_report kw) (symptom_history m pid)))
  <-> 2 <= List.length (symptom_history m pid)
      /\ PATTERN_REPEAT_THRESHOLD
         <= list_sum (map (count_in_report kw) (symptom_history m pid)).
Proof.
  rewrite <- count_occ_flat_map. split.
  - intros [p [Hp [Hkw Hc]]]. apply pattern_In in Hp.
    destruct Hp as [Hlen [_ [Hthr _]]]. split; [exact Hlen |].
    now rewrite <- Hc.
  - intros [Hlen Hthr].
    exists (mkPattern kw
              (count_occ string_dec (all_keywords_of (symptom_history m pid)) kw)
              (map timestamp_key
                   (filter (mentions kw) (symptom_history m pid)))
              (map text (filter (mentions kw) (symptom_history m pid)))).
    split; [| split; reflexivity].
    apply pattern_In. simpl. repeat split; auto.
    apply (count_occ_In string_dec). unfold PATTERN_REPEAT_THRESHOLD in Hthr.
    lia.
Qed.

(** C8, amended.  A keyword is returned as a recurring pattern only if
    the sum, over all reports, of the number of its occurrences in the
    keywords of the report reaches the threshold, and only from a
    history of at least two reports; occurrences inside one report all
    count, and the keyword appears in at least one report.  In a history
    of at least two reports this is also sufficient: a keyword has a
    pattern exactly when its occurrences over all reports reach the
    threshold, so a keyword that occurs a threshold number of times
    inside one report has a pattern.  A history of fewer than two
    reports yields no pattern. *)
Theorem C8_total_occurrences (m : MemoryAgent) (pid : string) :
  (forall p,
     In p (patterns_of (detect_recurring_symptoms m pid)) ->
     occurrence_count p
     = list_sum (map (count_in_report (symptom_keyword p))
                     (symptom_history m pid))
     /\ PATTERN_REPEAT_THRESHOLD
        <= list_sum (map (count_in_report (symptom_keyword p))
                         (symptom_history m pid))
     /\ 1 <= List.length (filter (mentions (symptom_keyword p))
                                 (symptom_history m pid))
     /\ List.length (reports p)
        = List.length (filter (mentions (symptom_keyword p))
                              (symptom_history m pid))
     /\ 2 <= List.length (symptom_history m pid))
  /\ (forall kw,
        (exists p,
           In p (patterns_of (detect_recurring_symptoms m pid))
           /\ symptom_keyword p = kw
           /\ occurrence_count p
              = list_sum (map (count_in_report kw) (symptom_history m pid)))
        <-> 2 <= List.length (symptom_history m pid)
            /\ PATTERN_REPEAT_THRESHOLD
               <= list_sum (map (count_in_report kw)
                                (symptom_history m pid)))
  /\ (2 <= List.length (symptom_history m pid) ->
      forall kw s,
        In s (symptom_history m pid) ->
        PATTERN_REPEAT_THRESHOLD <= count_in_report kw s ->
        exists p,
          In p (patterns_of (detect_recurring_symptoms m pid))
          /\ symptom_keyword p = kw
          /\ PATTERN_REPEAT_THRESHOLD <= occurrence_count p)
  /\ (List.length (symptom_history m pid) < 2 ->
      patterns_of (detect_recurring_symptoms m pid) = []).
Proof.
  split; [| split; [| split]].
  - intros p Hp. apply pattern_In in Hp.
    destruct Hp as [Hlen [Hkw [Hthr Hp]]].
    rewrite <- count_occ_flat_map.
    assert (Hc : occurrence_count p
                 = count_occ string_dec
                     (all_keywords_of (symptom_history m pid))
                     (symptom_keyword p)) by (rewrite Hp at 1; reflexivity).
    split; [exact Hc |]. split; [now rewrite <- Hc |].
    split; [now apply mentions_flat_map |].
    split; [| exact Hlen].
    rewrite Hp at 1. simpl. apply length_map.
  - intros kw. apply pattern_for_keyword.
  - intros Hlen kw s Hin Hthr.
    pose proof (count_in_report_le_sum kw _ s Hin) as Hle.
    destruct (proj2 (pattern_for_keyword m pid kw)) as [p [Hp [Hkw Hc]]].
    + split; [exact Hlen | lia].
    + exists p. split; [exact Hp |]. split; [exact Hkw |]. lia.
  - intros Hlen. rewrite patterns_of_detect.
    destruct (Nat.ltb_spec (List.length (symptom_history m pid)) 2);
      [reflexivity | lia].
Qed.

(** C8, on the sample data.  With the reports "headache headache" and
    "nausea" the keyword "headache" has a pattern of count 2 made of one
    report; the report "headache headache" alone gives no pattern. *)
Lemma C8_total_occurrences_witness :
  In (mkPattern "headache" 2 ["2024-01-01"] ["headache headache"])
     (patterns_of (detect_recurring_symptoms repeated_memory "p1"))
  /\ list_sum (map (count_in_report "headache")
                   (symptom_history repeated_memory "p1")) = 2
  /\ List.length (filter (mentions "headache")
                         (symptom_history repeated_memory "p1")) = 1
  /\ (exists p,
        In p (patterns_of (detect_recurring_symptoms repeated_memory "p1"))
        /\ symptom_keyword p = "headache"
        /\ PATTERN_REPEAT_THRESHOLD <= occurrence_count p)
  /\ (2 <= List.length (symptom_history repeated_memory "p1")
      /\ PATTERN_REPEAT_THRESHOLD
         <= list_sum (map (count_in_report "headache")
                          (symptom_history repeated_memory "p1")))
  /\ List.length (symptom_history single_report_memory "p1") < 2
  /\ patterns_of (detect_recurring_symptoms single_report_memory "p1") = [].
Proof.
  assert (Hin : In (mkPattern "headache" 2 ["2024-01-01"] ["headache headache"])
                   (patterns_of (detect_recurring_symptoms repeated_memory "p1")))
    by (left; reflexivity).
  destruct (C8_total_occurrences repeated_memory "p1")
    as [Honly [Hiff [Hone _]]].
  destruct (Honly _ Hin) as [Hc [_ [_ [Hlen _]]]].
  cbn [symptom_keyword occurrence_count reports] in Hc, Hlen.
  split; [exact Hin |]. split; [rewrite <- Hc; reflexivity |].
  split; [rewrite <- Hlen; reflexivity |].
  split.
  { apply (Hone ltac:(vm_compute; lia) "headache"
                (mkEvent "p1" "symptom" "headache headache"
                         (Some "2024-01-01") None)).
    - right. left. reflexivity.
    - vm_compute. lia. }
  split.
  { apply (proj1 (Hiff "headache")).
    exists (mkPattern "headache" 2 ["2024-01-01"] ["headache headache"]).
    split; [exact Hin |]. split; reflexivity. }
  assert (Hshort : List.length (symptom_history single_report_memory "p1") < 2)
    by (vm_compute; lia).
  split; [exact Hshort |].
  exact (proj2 (proj2 (proj2 (C8_total_occurrences single_report_memory "p1")))
               Hshort).
Defined.

End PatternFacts.

(** ** The temporal correlator *)

Module CorrelatorFacts.
Import PatternAgent.

Section Loops.

Variable parse : string -> Exc datetime.

Lemma naive_ok_parsed (e : Event) :
  naive_ok parse e ->
  exists ts,
    timestamp e = Some ts /\ parse ts = Return (parsed parse e)
    /\ utcoffset (parsed parse e) = None /\ timestamp_key e = ts.
Proof.
  intros [ts [dt [Hts [Hp Hn]]]]. exists ts.
  unfold parsed, timestamp_key. rewrite Hts, Hp. auto.
Qed.

Lemma time_diff_naive (a b : datetime) :
  utcoffset a = None -> utcoffset b = None ->
  time_diff_of a b = Return (floor_days a b).
Proof.
  intros Ha Hb. unfold time_diff_of, datetime_sub. now rewrite Ha, Hb.
Qed.

Lemma correlate_rx_naive (s rx : Event) (acc : list Correlation) :
  utcoffset (parsed parse s) = None ->
  naive_ok parse rx ->
  correlate_rx parse s (timestamp_key s) (parsed parse s) acc rx
  = Return (acc ++ map (record_of parse s)
                       (filter (in_window parse s) [rx])).
Proof.
  intros Hs Hrx. apply naive_ok_parsed in Hrx.
  destruct Hrx as [ts [Hts [Hp [Hn Hk]]]].
  unfold correlate_rx. rewrite Hts. cbn [required bind]. rewrite Hp.
  cbn [bind]. rewrite (time_diff_naive _ _ Hs Hn). cbn [bind filter].
  unfold in_window.
  destruct (floor_days (parsed parse s) (parsed parse rx) <=? 7)%Z.
  - cbn [map]. unfold record_of. now rewrite Hk.
  - cbn [map]. now rewrite app_nil_r.
Qed.

Lemma inner_loop_naive (s : Event) (prescriptions : list Event) :
  utcoffset (parsed parse s) = None ->
  Forall (naive_ok parse) prescriptions ->
  forall acc,
    for_each (correlate_rx parse s (timestamp_key s) (parsed parse s))
             prescriptions acc
    = Return (acc ++ map (record_of parse s)
                         (filter (in_window parse s) prescriptions)).
Proof.
  intros Hs Hall. induction Hall as [| rx l Hrx _ IH]; intros acc.
  - simpl. now rewrite app_nil_r.
  - cbn [for_each]. rewrite (correlate_rx_naive s rx acc Hs Hrx).
    cbn [bind]. rewrite IH, <- app_assoc, <- map_app, <- filter_app.
    reflexivity.
Qed.

Lemma outer_loop_naive (symptoms prescriptions : list Event) :
  Forall (naive_ok parse) symptoms ->
  Forall (naive_ok parse) prescriptions ->
  forall acc,
    for_each (correlate_symptom parse prescriptions) symptoms acc
    = Return (acc ++ window_records parse symptoms prescriptions).
Proof.
  intros Hsym Hrx. induction Hsym as [| s l Hs _ IH]; intros acc.
  - simpl. now rewrite app_nil_r.
  - cbn [for_each]. unfold correlate_symptom at 1.
    destruct (naive_ok_parsed s Hs) as [ts [Hts [Hp [Hn Hk]]]].
    rewrite Hts. cbn [required bind]. rewrite Hp. cbn [bind].
    rewrite <- Hk, (inner_loop_naive s prescriptions Hn Hrx).
    cbn [bind]. rewrite IH, <- app_assoc. reflexivity.
Qed.

Lemma window_records_none (symptoms : list Event) :
  window_records parse symptoms [] = [].
Proof. induction symptoms as [| s l IH]; simpl; auto. Qed.

(** When all timestamps read by the loops parse to naive datetimes, the
    correlator returns, and its records are those of the pairs in the
    window. *)
Lemma correlate_returns (m : MemoryAgent) (pid kw : string) :
  Forall (naive_ok parse)
         (filter (matches_keyword kw) (symptom_history m pid)) ->
  Forall (naive_ok parse) (prescription_history m pid) ->
  exists r,
    correlate_with_medications parse m pid kw = Return r
    /\ correlations_of r
       = window_records parse
           (filter (matches_keyword kw) (symptom_history m pid))
           (prescription_history m pid).
Proof.
  intros Hsym Hrx.
  unfold correlate_with_medications.
  fold (symptom_history m pid). fold (prescription_history m pid).
  destruct (prescription_history m pid) as [| rx rxs] eqn:Hpres.
  - eexists. split; [reflexivity |]. now rewrite window_records_none.
  - destruct (filter (matches_keyword kw) (symptom_history m pid))
      as [| s ss] eqn:Hmatch.
    + eexists. split; reflexivity.
    + rewrite (outer_loop_naive (s :: ss) (rx :: rxs) Hsym Hrx).
      cbn [bind app].
      destruct (window_records parse (s :: ss) (rx :: rxs)) eqn:Hw;
        eexists; split; reflexivity.
Qed.




End Loops.

Lemma history_cases (l : list Event) (P : Event -> Prop) :
  (forall e, In e l -> P e) -> Forall P l.
Proof. intros H. now apply Forall_forall. Qed.




(** C6, the code at a failing input.  With a report at midnight and a
    prescription at noon of the same day the correlator computes
    [abs((-12 h).days) = abs(-1) = 1]; with the two times exchanged it
    computes [abs((12 h).days) = 0].  The absolute value is taken of the
    floored day count, not of the time difference; seven and a half days
    count as 8 when the report comes first and as 7 when it comes
    last. *)
Theorem C6_day_difference_at_half_day :
  iso_parse "2024-01-01T00:00:00" = Return midnight
  /\ iso_parse "2024-01-01T12:00:00" = Return noon
  /\ time_diff_of midnight noon = Return 1%Z
  /\ time_diff_of noon midnight = Return 0%Z
  /\ iso_parse "2024-01-08T12:00:00" = Return noon_day7
  /\ time_diff_of midnight noon_day7 = Return 8%Z
  /\ time_diff_of noon_day7 midnight = Return 7%Z
  /\ (exists r,
        correlate_with_medications iso_parse half_day_memory "p1" "dizzy"
        = Return r
        /\ map days_apart (correlations_of r) = [1%Z])
  /\ (exists r,
        correlate_with_medications iso_parse half_day_swapped_memory
                                   "p1" "dizzy"
        = Return r
        /\ map days_apart (correlations_of r) = [0%Z]).
Proof.
  repeat split; try reflexivity; eexists; split; reflexivity.
Qed.

Lemma ltb_true_leb (a b : string) :
  String.ltb a b = true -> String.leb a b = true.
Proof. unfold String.ltb, String.leb. now destruct (String.compare a b). Qed.

Lemma ltb_false_leb (a b : string) :
  String.ltb a b = false -> String.leb b a = true.
Proof.
  unfold String.ltb, String.leb. rewrite (String.compare_antisym a b).
  now destruct (String.compare b a).
Qed.

Lemma insert_newest_first_sorted (e : Event) (l : list Event) :
  Sorted newest_first l -> Sorted newest_first (insert_newest_first e l).
Proof.
  induction l as [| y l IH]; intros Hs; simpl.
  - repeat constructor.
  - destruct (String.ltb (timestamp_key e) (timestamp_key y)) eqn:E.
    + inversion Hs as [| ? ? Hs' Hhd]; subst.
      constructor; [now apply IH |].
      destruct l as [| z l]; simpl.
      * constructor. now apply ltb_true_leb.
      * destruct (String.ltb (timestamp_key e) (timestamp_key z)).
        -- constructor. now inversion Hhd.
        -- constructor. now apply ltb_true_leb.
    + constructor; [assumption |]. constructor. now apply ltb_false_leb.
Qed.

Lemma sort_newest_first_sorted (l : list Event) :
  Sorted newest_first (sort_newest_first l).
Proof.
  induction l as [| e l IH]; simpl; [constructor |].
  now apply insert_newest_first_sorted.
Qed.

(** C10 as stated fails.  The report [dizzy_undated] carries the
    timestamp "not-a-date", which does not parse: the ordering of
    [get_patient_history] keeps it, and the correlator raises
    [ValueError] instead of returning a result. *)
Lemma C10_unparsable_timestamp_counterexample :
  iso_parse (timestamp_key dizzy_undated) = Raise ValueError
  /\ In dizzy_undated (symptom_history undated_memory "p1")
  /\ correlate_with_medications iso_parse undated_memory "p1" "dizzy"
     = Raise ValueError
  /\ ~ (forall m pid kw,
          exists r,
            correlate_with_medications iso_parse m pid kw = Return r).
Proof.
  split; [reflexivity |]. split; [vm_compute; auto |].
  split; [reflexivity |].
  intros H. destruct (H undated_memory "p1" "dizzy") as [r Hr].
  vm_compute in Hr. discriminate Hr.
Qed.

(** C10, amended.  The ordering of [get_patient_history] does not parse
    timestamps: it returns every event the store yields, whatever its
    timestamp, ordered by the timestamp string, greatest first.  The
    correlator returns a result whenever the timestamp of every matching
    symptom report and of every prescription is present and parses to a
    naive datetime. *)
Theorem C10_ordering_keeps_every_event (parse : string -> Exc datetime)
    (m : MemoryAgent) (pid kw : string) (etype : option string)
    (limit : nat) :
  Permutation (get_patient_history m pid etype limit)
              (firstn limit (filter (matches_filter pid etype)
                                    (stored_events m)))
  /\ Sorted newest_first (get_patient_history m pid etype limit)
  /\ ((forall s, In s (symptom_history m pid) ->
                 matches_keyword kw s = true -> naive_ok parse s) ->
      (forall rx, In rx (prescription_history m pid) -> naive_ok parse rx) ->
      exists r, correlate_with_medications parse m pid kw = Return r).
Proof.
  split; [apply sort_newest_first_perm |].
  split; [apply sort_newest_first_sorted |].
  intros Hsym Hrx.
  destruct (correlate_returns parse m pid kw) as [r [Hr _]].
  - apply history_cases. intros s Hin. apply filter_In in Hin.
    destruct Hin as [Hin Hm]. now apply Hsym.
  - now apply history_cases.
  - now exists r.
Qed.

Lemma C10_ordering_keeps_every_event_witness :
  In dizzy_undated (get_patient_history undated_memory "p1" (Some "symptom")
                                        default_limit)
  /\ exists r,
       correlate_with_medications iso_parse window_memory "p1" "dizzy"
       = Return r.
Proof.
  destruct (C10_ordering_keeps_every_event iso_parse undated_memory
              "p1" "dizzy" (Some "symptom") default_limit) as [Hperm _].
  destruct (C10_ordering_keeps_every_event iso_parse window_memory
              "p1" "dizzy" None default_limit) as [_ [_ Hret]].
  split.
  - apply (Permutation_in _ (Permutation_sym Hperm)).
    left. reflexivity.
  - apply Hret.
    + intros s Hin _.
      change (symptom_history window_memory "p1")
        with [dizzy_day8; dizzy_day7] in Hin.
      destruct Hin as [<- | [<- | []]].
      * exists "2024-01-09", (mkDatetime 738894 0 None). repeat split.
      * exists "2024-01-08", (mkDatetime 738893 0 None). repeat split.
    + intros rx Hin.
      change (prescription_history window_memory "p1") with [rx_day0] in Hin.
      destruct Hin as [<- | []].
      exists "2024-01-01", (mkDatetime 738886 0 None). repeat split.
Defined.

End CorrelatorFacts.

(* ================================================================== *)
(** * Further properties *)
(* ================================================================== *)

(** ** Strings *)

Lemma lower_char_idem (c : ascii) : lower_char (lower_char c) = lower_char c.
Proof. destruct c as [[] [] [] [] [] [] [] []]; reflexivity. Qed.

Lemma isspace_lower_char (c : ascii) : isspace (lower_char c) = isspace c.
Proof. destruct c as [[] [] [] [] [] [] [] []]; reflexivity. Qed.

Lemma no_upper_lower_char (c : ascii) : no_upper (lower_char c) = true.
Proof. destruct c as [[] [] [] [] [] [] [] []]; reflexivity. Qed.

Lemma lower_char_fixed (c : ascii) : no_upper c = true -> lower_char c = c.
Proof.
  unfold no_upper, lower_char. intros H. apply negb_true_iff in H.
  now rewrite H.
Qed.

Lemma str_lower_idem (s : string) : str_lower (str_lower s) = str_lower s.
Proof.
  induction s as [| c s IH]; simpl; [reflexivity |].
  now rewrite lower_char_idem, IH.
Qed.

Lemma str_lower_no_upper (s : string) :
  all_chars no_upper (str_lower s) = true.
Proof.
  induction s as [| c s IH]; simpl; [reflexivity |].
  now rewrite no_upper_lower_char, IH.
Qed.

Lemma str_lower_fixed (s : string) :
  all_chars no_upper s = true -> str_lower s = s.
Proof.
  induction s as [| c s IH]; simpl; [reflexivity |].
  intros H. apply andb_true_iff in H. destruct H as [Hc Hs].
  now rewrite (lower_char_fixed c Hc), (IH Hs).
Qed.

Lemma is_empty_lower (s : string) : is_empty (str_lower s) = is_empty s.
Proof. now destruct s. Qed.

Lemma is_empty_true (s : string) : is_empty s = true <-> s = EmptyString.
Proof. destruct s; simpl; split; congruence. Qed.

Lemma str_length_app (s t : string) :
  String.length (s ++ t) = String.length s + String.length t.
Proof. induction s as [| c s IH]; simpl; [reflexivity | now rewrite IH]. Qed.

Lemma str_app_nil (s : string) : (s ++ EmptyString)%string = s.
Proof. induction s as [| c s IH]; simpl; [reflexivity | now rewrite IH]. Qed.

Lemma lstrip_lower (s : string) :
  lstrip_by isspace (str_lower s) = str_lower (lstrip_by isspace s).
Proof.
  induction s as [| c s IH]; simpl; [reflexivity |].
  rewrite isspace_lower_char. now destruct (isspace c).
Qed.

Lemma rstrip_lower (s : string) :
  rstrip_by isspace (str_lower s) = str_lower (rstrip_by isspace s).
Proof.
  induction s as [| c s IH]; simpl; [reflexivity |].
  rewrite IH, is_empty_lower, isspace_lower_char.
  now destruct (is_empty (rstrip_by isspace s) && isspace c)%bool.
Qed.

Lemma strip_lower (s : string) :
  str_strip (str_lower s) = str_lower (str_strip s).
Proof. unfold str_strip, strip_by. now rewrite lstrip_lower, rstrip_lower. Qed.

Lemma lstrip_lstripped (p : ascii -> bool) (s : string) :
  lstripped p (lstrip_by p s).
Proof.
  induction s as [| c s IH]; simpl; [exact I |].
  destruct (p c) eqn:E; [exact IH | exact E].
Qed.

Lemma lstrip_fixed (p : ascii -> bool) (s : string) :
  lstripped p s -> lstrip_by p s = s.
Proof. destruct s as [| c s]; simpl; [reflexivity | now intros ->]. Qed.

Lemma rstrip_lstripped (p : ascii -> bool) (s : string) :
  lstripped p s -> lstripped p (rstrip_by p s).
Proof.
  destruct s as [| c s]; simpl; [auto |]. intros Hc. rewrite Hc.
  now rewrite andb_false_r.
Qed.

Lemma rstrip_idem (p : ascii -> bool) (s : string) :
  rstrip_by p (rstrip_by p s) = rstrip_by p s.
Proof.
  induction s as [| c s IH]; simpl; [reflexivity |].
  destruct (is_empty (rstrip_by p s) && p c)%bool eqn:E; [reflexivity |].
  simpl. now rewrite IH, E.
Qed.

Lemma strip_idem (p : ascii -> bool) (s : string) :
  strip_by p (strip_by p s) = strip_by p s.
Proof.
  unfold strip_by.
  rewrite (lstrip_fixed p (rstrip_by p (lstrip_by p s))).
  - apply rstrip_idem.
  - apply rstrip_lstripped, lstrip_lstripped.
Qed.

Lemma lstrip_chars (p q : ascii -> bool) (s : string) :
  all_chars q s = true -> all_chars q (lstrip_by p s) = true.
Proof.
  induction s as [| c s IH]; simpl; [auto |].
  intros H. destruct (p c); [| exact H].
  apply andb_true_iff in H. now apply IH.
Qed.

Lemma rstrip_chars (p q : ascii -> bool) (s : string) :
  all_chars q s = true -> all_chars q (rstrip_by p s) = true.
Proof.
  induction s as [| c s IH]; simpl; [auto |].
  intros H. apply andb_true_iff in H. destruct H as [Hc Hs].
  destruct (is_empty (rstrip_by p s) && p c)%bool; [reflexivity |].
  simpl. now rewrite Hc, IH.
Qed.

Lemma strip_chars (p q : ascii -> bool) (s : string) :
  all_chars q s = true -> all_chars q (strip_by p s) = true.
Proof. intros H. unfold strip_by. now apply rstrip_chars, lstrip_chars. Qed.

Lemma str_take_length (n : nat) (s : string) :
  String.length (str_take n s) = Nat.min n (String.length s).
Proof.
  revert s. induction n as [| n IH]; intros [| c s]; simpl; auto.
Qed.

Lemma str_take_drop (n : nat) (s : string) :
  (str_take n s ++ str_drop n s)%string = s.
Proof.
  revert s. induction n as [| n IH]; intros [| c s]; simpl; auto.
  now rewrite IH.
Qed.

Lemma str_drop_app (s t : string) : str_drop (String.length s) (s ++ t) = t.
Proof. induction s as [| c s IH]; simpl; [now destruct t | exact IH]. Qed.

(** ** The reference parser *)

Lemma iso_parse_naive (s : string) (dt : datetime) :
  iso_parse s = Return dt -> utcoffset dt = None.
Proof.
  unfold iso_parse. destruct (parse_date s) as [[ord [| c rest]] |].
  - intros H. now inversion H.
  - destruct (parse_time rest); intros H; now inversion H.
  - discriminate.
Qed.

Lemma iso_parse_value_errors : value_errors_only iso_parse.
Proof.
  intros s err. unfold iso_parse.
  destruct (parse_date s) as [[ord [| c rest]] |].
  - discriminate.
  - destruct (parse_time rest); [discriminate |].
    intros H. now inversion H.
  - intros H. now inversion H.
Qed.

(** ** helpers.py *)

Module HelperFacts.
Import Helpers.

(** X6.  [clean_drug_name] returns a normal form: cleaning a cleaned
    name changes nothing, and a cleaned name is its own lower-casing and
    its own trimming. *)
Theorem X6_clean_drug_name_normal_form (name : string) :
  clean_drug_name (clean_drug_name name) = clean_drug_name name
  /\ str_lower (clean_drug_name name) = clean_drug_name name
  /\ str_strip (clean_drug_name name) = clean_drug_name name.
Proof.
  unfold clean_drug_name. repeat split.
  - rewrite strip_lower, str_lower_idem. unfold str_strip.
    now rewrite strip_idem.
  - apply str_lower_idem.
  - rewrite strip_lower. unfold str_strip. now rewrite strip_idem.
Qed.

Lemma slice_to_length (k : Z) (s : string) :
  Z.of_nat (String.length (slice_to k s))
  = if (0 <=? k)%Z then Z.min k (Z.of_nat (String.length s))
    else Z.max 0 (Z.of_nat (String.length s) + k).
Proof.
  unfold slice_to. destruct (Z.leb_spec 0 k); rewrite str_take_length; lia.
Qed.

(** X7.  [truncate_text] returns a text of at most [max_length]
    characters exactly when the text is short enough or the suffix fits
    into [max_length].  A short text is returned as it is; a longer one,
    when the suffix fits, is cut to exactly [max_length] characters: the
    first [max_length - len(suffix)] characters and the suffix. *)
Theorem X7_truncate_text_length (text : string) (max_length : Z)
    (suffix : string) :
  ((Z.of_nat (String.length text) <= max_length)%Z ->
   truncate_text text max_length suffix = text)
  /\ ((max_length < Z.of_nat (String.length text))%Z ->
      (Z.of_nat (String.length suffix) <= max_length)%Z ->
      truncate_text text max_length suffix
      = (str_take (Z.to_nat (max_length - Z.of_nat (String.length suffix)))
                  text ++ suffix)%string
      /\ Z.of_nat (String.length (truncate_text text max_length suffix))
         = max_length)
  /\ ((Z.of_nat (String.length (truncate_text text max_length suffix))
       <= max_length)%Z
      <-> (Z.of_nat (String.length text) <= max_length)%Z
          \/ (Z.of_nat (String.length suffix) <= max_length)%Z).
Proof.
  unfold truncate_text.
  destruct (Z.leb_spec (Z.of_nat (String.length text)) max_length)
    as [Hshort | Hlong].
  - split; [reflexivity |]. split; [lia |]. split; [auto | lia].
  - assert (Hlen : Z.of_nat (String.length
                     (slice_to (max_length - Z.of_nat (String.length suffix))
                               text ++ suffix))
                   = (Z.of_nat (String.length
                        (slice_to (max_length
                                   - Z.of_nat (String.length suffix)) text))
                      + Z.of_nat (String.length suffix))%Z)
      by (rewrite str_length_app; lia).
    rewrite Hlen, slice_to_length.
    split; [lia |]. split.
    + intros _ Hfit. split.
      * unfold slice_to.
        destruct (Z.leb_spec 0 (max_length - Z.of_nat (String.length suffix)));
          [reflexivity | lia].
      * destruct (Z.leb_spec 0 (max_length - Z.of_nat (String.length suffix)));
          lia.
    + destruct (Z.leb_spec 0 (max_length - Z.of_nat (String.length suffix)));
        split; lia.
Qed.

Lemma X7_truncate_text_length_witness :
  truncate_text "short" 100 "..." = "short"
  /\ truncate_text "a long sentence" 10 "..." = "a long ..."
  /\ ~ (Z.of_nat (String.length (truncate_text "abcdef" 2 "...")) <= 2)%Z.
Proof.
  destruct (X7_truncate_text_length "short" 100 "...") as [H1 _].
  destruct (X7_truncate_text_length "a long sentence" 10 "...")
    as [_ [H2 _]].
  destruct (X7_truncate_text_length "abcdef" 2 "...") as [_ [_ H3]].
  split; [apply H1; simpl; lia |].
  split; [apply H2; simpl; lia |].
  intros H. apply H3 in H. simpl in H. lia.
Defined.

Lemma count_prefix_le (p : ascii -> bool) (s : string) :
  count_prefix p s <= String.length s.
Proof.
  induction s as [| c s IH]; simpl; [lia |]. destruct (p c); lia.
Qed.

Lemma take_prefix_chars (p : ascii -> bool) (s : string) :
  forall k, k <= count_prefix p s -> all_chars p (str_take k s) = true.
Proof.
  induction s as [| c s IH]; intros [| k] Hk; simpl in *; auto.
  destruct (p c) eqn:E; [| lia]. simpl. apply IH. lia.
Qed.

Lemma count_prefix_app (p : ascii -> bool) (body rest : string) :
  all_chars p body = true -> lstripped p rest ->
  count_prefix p (body ++ rest) = String.length body.
Proof.
  intros Hbody Hrest. induction body as [| c body IH]; simpl in *.
  - destruct rest as [| d rest]; simpl in *; [reflexivity | now rewrite Hrest].
  - apply andb_true_iff in Hbody. destruct Hbody as [Hc Hb].
    now rewrite Hc, IH.
Qed.

Lemma at_end_cases (rest : string) :
  at_end rest = true <-> rest = EmptyString \/ rest = newline.
Proof.
  destruct rest as [| c [| d rest]]; simpl.
  - intuition auto.
  - unfold is_code, newline. rewrite N.eqb_eq. split.
    + intros H. right. f_equal. unfold code in H.
      now rewrite <- (ascii_N_embedding c), H.
    + intros [H | H]; [discriminate | now inversion H].
  - split; [discriminate | intros [H | H]; discriminate].
Qed.

(** X8.  [validate_patient_id] accepts exactly the identifiers made of 3
    to 50 letters, digits and underscores, and these identifiers
    followed by one newline, which [$] lets pass. *)
Theorem X8_validate_patient_id_accepts (patient_id : string) :
  validate_patient_id patient_id = true <->
  exists body,
    (patient_id = body \/ patient_id = (body ++ newline)%string)
    /\ 3 <= String.length body <= 50
    /\ all_chars is_id_char body = true.
Proof.
  unfold validate_patient_id. rewrite existsb_exists. split.
  - intros [k [Hk Hend]]. apply in_rev in Hk. apply in_seq in Hk.
    pose proof (count_prefix_le is_id_char patient_id) as Hle.
    assert (Hk' : 3 <= k <= 50 /\ k <= count_prefix is_id_char patient_id)
      by lia.
    exists (str_take k patient_id). split; [| split].
    + apply at_end_cases in Hend.
      pose proof (str_take_drop k patient_id) as Htd.
      destruct Hend as [E | E]; rewrite E in Htd.
      * left. rewrite str_app_nil in Htd. now symmetry.
      * right. now symmetry.
    + rewrite str_take_length. lia.
    + apply take_prefix_chars. lia.
  - intros [body [Hpid [Hlen Hchars]]].
    exists (String.length body).
    assert (Hrun : exists rest,
               patient_id = (body ++ rest)%string
               /\ (rest = EmptyString \/ rest = newline)).
    { destruct Hpid as [-> | ->].
      - exists EmptyString. split; [| now left].
        now rewrite str_app_nil.
      - exists newline. split; [reflexivity | now right]. }
    destruct Hrun as [rest [-> Hrest]].
    assert (Hcount : count_prefix is_id_char (body ++ rest)
                     = String.length body).
    { apply count_prefix_app; [assumption |].
      destruct Hrest as [-> | ->]; simpl; auto. }
    split.
    + apply in_rev. rewrite rev_involutive. apply in_seq.
      rewrite Hcount. lia.
    + rewrite str_drop_app. now apply at_end_cases.
Qed.

Lemma X8_validate_patient_id_accepts_witness :
  validate_patient_id "patient_001" = true
  /\ validate_patient_id ("abc" ++ newline) = true
  /\ validate_patient_id "ab" = false
  /\ validate_patient_id "john doe" = false.
Proof.
  split.
  - apply X8_validate_patient_id_accepts. exists "patient_001".
    split; [now left |]. split; [simpl; lia | reflexivity].
  - split.
    + apply X8_validate_patient_id_accepts. exists "abc".
      split; [now right |]. split; [simpl; lia | reflexivity].
    + split; reflexivity.
Defined.

(** X9.  [severity_to_color] ignores letter case and gives the white
    circle exactly to the severities that are none of mild, moderate and
    severe; on these three names two severities have the same colour
    exactly when the safety checker gives them the same rank. *)
Theorem X9_severity_color_agrees_with_rank (s t : string) :
  severity_to_color (str_lower s) = severity_to_color s
  /\ (severity_to_color s = white_circle <->
      ~ In (str_lower s) severity_names)
  /\ (In (str_lower s) severity_names ->
      In (str_lower t) severity_names ->
      (severity_to_color s = severity_to_color t <->
       SafetyAgent.severity_order (str_lower s)
       = SafetyAgent.severity_order (str_lower t))).
Proof.
  split; [| split].
  - unfold severity_to_color. now rewrite str_lower_idem.
  - unfold severity_to_color, severity_names.
    destruct (String.eqb_spec (str_lower s) "mild") as [E1 | N1].
    { split; [discriminate | intros H; elim H; simpl; auto]. }
    destruct (String.eqb_spec (str_lower s) "moderate") as [E2 | N2].
    { split; [discriminate | intros H; elim H; simpl; auto]. }
    destruct (String.eqb_spec (str_lower s) "severe") as [E3 | N3].
    { split; [discriminate | intros H; elim H; simpl; auto]. }
    split; [| reflexivity]. intros _ [H | [H | [H | []]]]; congruence.
  - unfold severity_to_color.
    intros [Hs | [Hs | [Hs | []]]] [Ht | [Ht | [Ht | []]]];
      rewrite <- Hs, <- Ht; simpl; split; intros H;
      try reflexivity; try discriminate H.
Qed.

Lemma X9_severity_color_agrees_with_rank_witness :
  severity_to_color "SEVERE" = severity_to_color "severe"
  /\ severity_to_color "critical" = white_circle
  /\ severity_to_color "Mild" <> severity_to_color "moderate".
Proof.
  destruct (X9_severity_color_agrees_with_rank "Mild" "moderate")
    as [_ [_ H3]].
  destruct (X9_severity_color_agrees_with_rank "critical" "")
    as [_ [H2 _]].
  split; [reflexivity |]. split.
  - apply H2. simpl. intros [H | [H | [H | []]]]; discriminate H.
  - intros E. apply H3 in E; simpl; auto. discriminate E.
Defined.

Lemma set_add_In (x y : string) (s : list string) :
  In y (set_add x s) <-> y = x \/ In y s.
Proof.
  unfold set_add. destruct (str_mem x s) eqn:E.
  - apply str_mem_In in E. split; [auto | intros [-> | H]; auto].
  - rewrite in_app_iff. simpl. intuition auto.
Qed.

Lemma set_add_NoDup (x : string) (s : list string) :
  NoDup s -> NoDup (set_add x s).
Proof.
  intros H. unfold set_add. destruct (str_mem x s) eqn:E; [assumption |].
  apply NoDup_app; [assumption | repeat constructor; intros [] |].
  intros y Hy [<- | []]. apply str_mem_In in Hy. congruence.
Qed.

Lemma set_update_In (items : list string) :
  forall s y, In y (set_update s items) <-> In y s \/ In y items.
Proof.
  unfold set_update.
  induction items as [| x l IH]; intros s y; simpl; [tauto |].
  rewrite IH, set_add_In. intuition auto.
Qed.

Lemma set_update_NoDup (items : list string) :
  forall s, NoDup s -> NoDup (set_update s items).
Proof.
  unfold set_update.
  induction items as [| x l IH]; intros s H; simpl; [assumption |].
  apply IH. now apply set_add_NoDup.
Qed.

Section StatsFacts.

Variable parse : string -> Exc datetime.
Variable isoformat : datetime -> string.

Lemma timestamps_step_app (acc : list datetime) (e : Event) :
  timestamps_step parse acc e = acc ++ timestamps_step parse [] e.
Proof.
  unfold timestamps_step. destruct (truthy (timestamp e));
    [| now rewrite app_nil_r].
  destruct (parse (timestamp_key e)); [reflexivity | now rewrite app_nil_r].
Qed.

Lemma timestamps_step_In (e : Event) (dt : datetime) :
  In dt (timestamps_step parse [] e) <-> dated parse e dt.
Proof.
  unfold timestamps_step, dated. destruct (truthy (timestamp e)).
  - destruct (parse (timestamp_key e)) as [d | err]; simpl.
    + split; [intros [-> | []]; auto | intros [_ H]; inversion H; auto].
    + split; [intros [] | intros [_ H]; discriminate H].
  - simpl. split; [intros [] | intros [H _]; discriminate H].
Qed.

Lemma stats_step_eq (st : StatsState) (e : Event) :
  stats_step parse st e
  = mkStatsState
      (st_symptoms st + (if has_type "symptom" e then 1 else 0))
      (st_prescriptions st + (if has_type "prescription" e then 1 else 0))
      (if has_type "prescription" e
       then set_update (st_drugs st) (get_or (drugs e) [])
       else st_drugs st)
      (st_timestamps st ++ timestamps_step parse [] e).
Proof.
  unfold stats_step, has_type. rewrite (timestamps_step_app (st_timestamps st)).
  destruct (String.eqb_spec (event_type e) "symptom") as [E | N].
  - rewrite E. simpl. f_equal; lia.
  - destruct (String.eqb (event_type e) "prescription"); f_equal; lia.
Qed.

(** The state after the loop, from any starting state. *)
Lemma stats_fold (events : list Event) :
  forall st,
    st_symptoms (fold_left (stats_step parse) events st)
    = st_symptoms st + List.length (filter (has_type "symptom") events)
    /\ st_prescriptions (fold_left (stats_step parse) events st)
       = st_prescriptions st
         + List.length (filter (has_type "prescription") events)
    /\ st_timestamps (fold_left (stats_step parse) events st)
       = st_timestamps st ++ flat_map (timestamps_step parse []) events
    /\ (NoDup (st_drugs st) ->
        NoDup (st_drugs (fold_left (stats_step parse) events st)))
    /\ (forall d,
          In d (st_drugs (fold_left (stats_step parse) events st)) <->
          In d (st_drugs st)
          \/ exists e, In e events /\ has_type "prescription" e = true
                       /\ In d (get_or (drugs e) [])).
Proof.
  induction events as [| e l IH]; intros st.
  - simpl. rewrite app_nil_r. repeat split; auto; try lia.
    intros [H | [e [[] _]]]; exact H.
  - cbn [fold_left filter flat_map].
    specialize (IH (stats_step parse st e)).
    rewrite stats_step_eq in IH |- *.
    destruct IH as [H1 [H2 [H3 [H4 H5]]]].
    cbn [st_symptoms st_prescriptions st_timestamps st_drugs] in *.
    split; [| split; [| split; [| split]]].
    + rewrite H1. destruct (has_type "symptom" e); simpl; lia.
    + rewrite H2. destruct (has_type "prescription" e); simpl; lia.
    + now rewrite H3, <- app_assoc.
    + intros Hnd. apply H4.
      destruct (has_type "prescription" e); [| assumption].
      now apply set_update_NoDup.
    + intros d. rewrite H5.
      destruct (has_type "prescription" e) eqn:Ht.
      * rewrite set_update_In. split.
        -- intros [[H | H] | [e' [Hin Hrest]]]; [now left | |].
           ++ right. exists e. split; [now left | auto].
           ++ right. exists e'. split; [now right | exact Hrest].
        -- intros [H | [e' [[<- | Hin] [Ht' Hd]]]]; [auto | auto |].
           right. exists e'. auto.
      * split.
        -- intros [H | [e' [Hin Hrest]]]; [now left |].
           right. exists e'. split; [now right | exact Hrest].
        -- intros [H | [e' [[<- | Hin] [Ht' Hd]]]]; [now left | congruence |].
           right. exists e'. auto.
Qed.

End StatsFacts.

Lemma datetime_lt_naive (a b : datetime) :
  naive a -> naive b ->
  datetime_lt a b = Return (instant_us a <? instant_us b)%Z.
Proof. unfold naive, datetime_lt. now intros -> ->. Qed.

Lemma extreme_min (l : list datetime) :
  forall cur,
    naive cur -> Forall naive l ->
    exists m,
      extreme datetime_lt cur l = Return m
      /\ In m (cur :: l) /\ naive m
      /\ forall x, In x (cur :: l) -> (instant_us m <= instant_us x)%Z.
Proof.
  induction l as [| x l IH]; intros cur Hcur Hall.
  - exists cur. simpl. repeat split; auto. intros y [<- | []]. lia.
  - inversion Hall as [| ? ? Hx Hl]; subst.
    cbn [extreme]. rewrite (datetime_lt_naive x cur Hx Hcur). cbn [bind].
    destruct (Z.ltb_spec (instant_us x) (instant_us cur)) as [Hlt | Hge].
    + destruct (IH x Hx Hl) as [m [Hm [Hin [Hn Hmin]]]].
      exists m. split; [exact Hm |]. split; [| split; [exact Hn |]].
      * destruct Hin as [<- | Hin]; simpl; auto.
      * intros y [<- | [<- | Hy]].
        -- specialize (Hmin x (or_introl eq_refl)). lia.
        -- apply Hmin. now left.
        -- apply Hmin. now right.
    + destruct (IH cur Hcur Hl) as [m [Hm [Hin [Hn Hmin]]]].
      exists m. split; [exact Hm |]. split; [| split; [exact Hn |]].
      * destruct Hin as [<- | Hin]; simpl; auto.
      * intros y [<- | [<- | Hy]].
        -- apply Hmin. now left.
        -- specialize (Hmin cur (or_introl eq_refl)). lia.
        -- apply Hmin. now right.
Qed.

Lemma extreme_max (l : list datetime) :
  forall cur,
    naive cur -> Forall naive l ->
    exists m,
      extreme (fun x c => datetime_lt c x) cur l = Return m
      /\ In m (cur :: l) /\ naive m
      /\ forall x, In x (cur :: l) -> (instant_us x <= instant_us m)%Z.
Proof.
  induction l as [| x l IH]; intros cur Hcur Hall.
  - exists cur. simpl. repeat split; auto. intros y [<- | []]. lia.
  - inversion Hall as [| ? ? Hx Hl]; subst.
    cbn [extreme]. rewrite (datetime_lt_naive cur x Hcur Hx). cbn [bind].
    destruct (Z.ltb_spec (instant_us cur) (instant_us x)) as [Hlt | Hge].
    + destruct (IH x Hx Hl) as [m [Hm [Hin [Hn Hmax]]]].
      exists m. split; [exact Hm |]. split; [| split; [exact Hn |]].
      * destruct Hin as [<- | Hin]; simpl; auto.
      * intros y [<- | [<- | Hy]].
        -- specialize (Hmax x (or_introl eq_refl)). lia.
        -- apply Hmax. now left.
        -- apply Hmax. now right.
    + destruct (IH cur Hcur Hl) as [m [Hm [Hin [Hn Hmax]]]].
      exists m. split; [exact Hm |]. split; [| split; [exact Hn |]].
      * destruct Hin as [<- | Hin]; simpl; auto.
      * intros y [<- | [<- | Hy]].
        -- apply Hmax. now left.
        -- specialize (Hmax cur (or_introl eq_refl)). lia.
        -- apply Hmax. now right.
Qed.

Lemma exclusive_filters (events : list Event) :
  List.length (filter (has_type "symptom") events)
  + List.length (filter (has_type "prescription") events)
  <= List.length events.
Proof.
  unfold has_type. induction events as [| e l IH]; simpl; [lia |].
  destruct (String.eqb_spec (event_type e) "symptom") as [E | N].
  - rewrite E. simpl. lia.
  - destruct (String.eqb (event_type e) "prescription"); simpl; lia.
Qed.

Lemma collected_In (parse : string -> Exc datetime) (events : list Event)
    (dt : datetime) :
  In dt (flat_map (timestamps_step parse []) events) <->
  exists e, In e events /\ dated parse e dt.
Proof.
  rewrite in_flat_map. split; intros [e [Hin H]]; exists e;
    (split; [assumption |]); now apply timestamps_step_In.
Qed.

(** X10.  [create_summary_stats], on events whose parsed timestamps are
    all naive, returns: the number of events; the numbers of symptom and
    of prescription events, which together never exceed it; the drugs of
    the prescription events, each once; and a date range that is absent
    exactly when no event has a timestamp that is present, not empty and
    parsable.  A timestamp that does not parse is passed over.  The range
    runs from the earliest to the latest parsed timestamp, and its span
    in days is not negative. *)
Theorem X10_summary_stats (parse : string -> Exc datetime)
    (isoformat : datetime -> string) (events : list Event) :
  (forall e dt, In e events -> dated parse e dt -> utcoffset dt = None) ->
  exists stats,
    create_summary_stats parse isoformat events = Return stats
    /\ total_events stats = List.length events
    /\ symptom_count stats
       = List.length (filter (has_type "symptom") events)
    /\ prescription_count stats
       = List.length (filter (has_type "prescription") events)
    /\ symptom_count stats + prescription_count stats <= total_events stats
    /\ NoDup (unique_drugs stats)
    /\ (forall d,
          In d (unique_drugs stats) <->
          exists e, In e events /\ has_type "prescription" e = true
                    /\ In d (get_or (drugs e) []))
    /\ (date_range stats = None <->
        forall e dt, In e events -> ~ dated parse e dt)
    /\ (forall r,
          date_range stats = Some r ->
          (0 <= span_days r)%Z
          /\ exists lo hi,
               (exists e, In e events /\ dated parse e lo)
               /\ (exists e, In e events /\ dated parse e hi)
               /\ earliest r = isoformat lo
               /\ latest r = isoformat hi
               /\ span_days r
                  = ((instant_us hi - instant_us lo) / US_PER_DAY)%Z
               /\ forall e dt,
                    In e events -> dated parse e dt ->
                    (instant_us lo <= instant_us dt <= instant_us hi)%Z).
Proof.
  intros Hnaive.
  destruct (stats_fold parse events (mkStatsState 0 0 [] []))
    as [H1 [H2 [H3 [H4 H5]]]].
  cbn [st_symptoms st_prescriptions st_timestamps st_drugs] in *.
  simpl in H1, H2, H3.
  assert (Hdrugs : forall d,
            In d (st_drugs (fold_left (stats_step parse) events
                                      (mkStatsState 0 0 [] []))) <->
            exists e, In e events /\ has_type "prescription" e = true
                      /\ In d (get_or (drugs e) [])).
  { intros d. rewrite H5. simpl. tauto. }
  pose proof (exclusive_filters events) as Hex.
  assert (Hall : Forall naive
                   (flat_map (timestamps_step parse []) events)).
  { apply Forall_forall. intros dt Hin. apply collected_In in Hin.
    destruct Hin as [e [He Hd]]. exact (Hnaive e dt He Hd). }
  unfold create_summary_stats. rewrite H3.
  destruct (flat_map (timestamps_step parse []) events)
    as [| first rest] eqn:Hts.
  - eexists. split; [reflexivity |].
    cbn [total_events symptom_count prescription_count unique_drugs
         date_range].
    split; [reflexivity |]. split; [exact H1 |]. split; [exact H2 |].
    split; [lia |]. split; [apply H4; constructor |].
    split; [exact Hdrugs |]. split.
    + split; [| reflexivity]. intros _ e dt He Hd.
      assert (Hin : In dt (flat_map (timestamps_step parse []) events))
        by (apply collected_In; now exists e).
      rewrite Hts in Hin. exact Hin.
    + intros r Hr. discriminate Hr.
  - inversion Hall as [| ? ? Hfirst Hrest]; subst.
    destruct (extreme_min rest first Hfirst Hrest)
      as [lo [Hlo [Hlo_in [Hlo_n Hlo_min]]]].
    destruct (extreme_max rest first Hfirst Hrest)
      as [hi [Hhi [Hhi_in [Hhi_n Hhi_max]]]].
    unfold min_datetime, max_datetime. rewrite Hlo, Hhi. cbn [bind].
    unfold datetime_sub. unfold naive in Hlo_n, Hhi_n.
    rewrite Hlo_n, Hhi_n. cbn [bind].
    eexists. split; [reflexivity |].
    cbn [total_events symptom_count prescription_count unique_drugs
         date_range].
    split; [reflexivity |]. split; [exact H1 |]. split; [exact H2 |].
    split; [lia |]. split; [apply H4; constructor |].
    split; [exact Hdrugs |]. split.
    + split; [discriminate |]. intros Hnone. exfalso.
      assert (Hin : In first (flat_map (timestamps_step parse []) events))
        by (rewrite Hts; now left).
      apply collected_In in Hin. destruct Hin as [e [He Hd]].
      exact (Hnone e first He Hd).
    + intros r Hr. inversion Hr; subst r. clear Hr.
      cbn [span_days earliest latest].
      assert (Hle : (instant_us lo <= instant_us hi)%Z)
        by (apply Hhi_max; exact Hlo_in).
      split.
      * unfold timedelta_days. apply Z.div_pos; [lia |].
        unfold US_PER_DAY. lia.
      * exists lo, hi.
        rewrite <- Hts in Hlo_in, Hhi_in.
        split; [now apply collected_In |].
        split; [now apply collected_In |].
        split; [reflexivity |]. split; [reflexivity |].
        split; [reflexivity |].
        intros e dt He Hd.
        assert (Hin : In dt (first :: rest)).
        { rewrite <- Hts. apply collected_In. now exists e. }
        split; [now apply Hlo_min | now apply Hhi_max].
Qed.

(** A prescription, a report without a readable date and a report a week
    after the prescription: three events, one drug, a span of 7 days. *)
Lemma X10_summary_stats_witness :
  exists stats,
    create_summary_stats iso_parse (fun _ => EmptyString)
                         (stored_events undated_memory)
    = Return stats
    /\ total_events stats = 3
    /\ symptom_count stats = 2
    /\ prescription_count stats = 1
    /\ unique_drugs stats = ["Lisinopril"]
    /\ option_map span_days (date_range stats) = Some 7%Z.
Proof.
  destruct (X10_summary_stats iso_parse (fun _ => EmptyString)
              (stored_events undated_memory))
    as [stats [Hrun [Htotal [Hsym [Hrx _]]]]].
  - intros e dt _ [_ Hparse]. exact (iso_parse_naive _ _ Hparse).
  - exists stats. split; [exact Hrun |].
    split; [exact Htotal |]. split; [exact Hsym |]. split; [exact Hrx |].
    vm_compute in Hrun. inversion Hrun. split; reflexivity.
Defined.

Lemma days_between (lo hi diff : Z) :
  (lo * US_PER_DAY <= diff < hi * US_PER_DAY)%Z ->
  (lo <= timedelta_days diff < hi)%Z.
Proof.
  intros [Hlo Hhi]. unfold timedelta_days.
  assert (HD : (0 < US_PER_DAY)%Z) by (unfold US_PER_DAY; lia).
  split.
  - apply Z.div_le_lower_bound; lia.
  - apply Z.div_lt_upper_bound; lia.
Qed.

(** X23.  [get_relative_time], read against a naive clock, answers
    "unknown time" for a timestamp that does not parse, and fails with
    [TypeError] for a timestamp that carries a UTC offset.  For a naive
    timestamp it returns words: a negative number of days for a
    timestamp in the future, "yesterday" from one day to less than two,
    1 to 4 weeks from 7 days to less than 30, and at least 1 month from
    30 days on. *)
Theorem X23_relative_time_edges (parse : string -> Exc datetime)
    (now : datetime) (iso_timestamp : string) :
  utcoffset now = None ->
  (parse iso_timestamp = Raise ValueError ->
   get_relative_time parse now iso_timestamp = Return "unknown time")
  /\ (forall dt off,
        parse iso_timestamp = Return dt -> utcoffset dt = Some off ->
        get_relative_time parse now iso_timestamp = Raise TypeError)
  /\ (forall dt,
        parse iso_timestamp = Return dt -> utcoffset dt = None ->
        get_relative_time parse now iso_timestamp
        = Return (relative_words (instant_us now - instant_us dt)))
  /\ (forall diff,
        (diff < 0)%Z ->
        (timedelta_days diff < 0)%Z
        /\ relative_words diff
           = (str_of_Z (timedelta_days diff) ++ " days ago")%string)
  /\ (forall diff,
        (US_PER_DAY <= diff < 2 * US_PER_DAY)%Z ->
        relative_words diff = "yesterday")
  /\ (forall diff,
        (7 * US_PER_DAY <= diff < 30 * US_PER_DAY)%Z ->
        exists weeks,
          (1 <= weeks <= 4)%Z
          /\ relative_words diff
             = (str_of_Z weeks ++ " week" ++ plural weeks ++ " ago")%string)
  /\ (forall diff,
        (30 * US_PER_DAY <= diff)%Z ->
        exists months,
          (1 <= months)%Z
          /\ relative_words diff
             = (str_of_Z months ++ " month" ++ plural months
                ++ " ago")%string).
Proof.
  intros Hnow.
  assert (HD : (0 < US_PER_DAY)%Z) by (unfold US_PER_DAY; lia).
  split; [| split; [| split; [| split; [| split; [| split]]]]].
  - intros Hp. unfold get_relative_time. now rewrite Hp.
  - intros dt off Hp Hoff. unfold get_relative_time, datetime_sub.
    now rewrite Hp, Hnow, Hoff.
  - intros dt Hp Hoff. unfold get_relative_time, datetime_sub.
    now rewrite Hp, Hnow, Hoff.
  - intros diff Hneg.
    assert (Hd : (timedelta_days diff < 0)%Z).
    { unfold timedelta_days. apply Z.div_lt_upper_bound; lia. }
    split; [exact Hd |]. unfold relative_words.
    destruct (Z.eqb_spec (timedelta_days diff) 0); [lia |].
    destruct (Z.eqb_spec (timedelta_days diff) 1); [lia |].
    destruct (Z.ltb_spec (timedelta_days diff) 7); [reflexivity | lia].
  - intros diff Hd. assert (H := days_between 1 2 diff ltac:(lia)).
    unfold relative_words.
    destruct (Z.eqb_spec (timedelta_days diff) 0); [lia |].
    destruct (Z.eqb_spec (timedelta_days diff) 1); [reflexivity | lia].
  - intros diff Hd. assert (H := days_between 7 30 diff Hd).
    exists (timedelta_days diff / 7)%Z. split.
    + split; [apply Z.div_le_lower_bound; lia |].
      assert (timedelta_days diff / 7 < 5)%Z
        by (apply Z.div_lt_upper_bound; lia). lia.
    + unfold relative_words.
      destruct (Z.eqb_spec (timedelta_days diff) 0); [lia |].
      destruct (Z.eqb_spec (timedelta_days diff) 1); [lia |].
      destruct (Z.ltb_spec (timedelta_days diff) 7); [lia |].
      destruct (Z.ltb_spec (timedelta_days diff) 30); [reflexivity | lia].
  - intros diff Hd.
    assert (H : (30 <= timedelta_days diff)%Z).
    { unfold timedelta_days. apply Z.div_le_lower_bound; lia. }
    exists (timedelta_days diff / 30)%Z. split.
    + apply Z.div_le_lower_bound; lia.
    + unfold relative_words.
      destruct (Z.eqb_spec (timedelta_days diff) 0); [lia |].
      destruct (Z.eqb_spec (timedelta_days diff) 1); [lia |].
      destruct (Z.ltb_spec (timedelta_days diff) 7); [lia |].
      destruct (Z.ltb_spec (timedelta_days diff) 30); [lia | reflexivity].
Qed.

Lemma X23_relative_time_edges_witness :
  get_relative_time iso_parse midnight "next week" = Return "unknown time"
  /\ get_relative_time iso_parse midnight "2024-01-08T12:00:00"
     = Return "-8 days ago"
  /\ relative_words (8 * US_PER_DAY) = "1 week ago".
Proof.
  destruct (X23_relative_time_edges iso_parse midnight "next week" eq_refl)
    as [Hbad _].
  destruct (X23_relative_time_edges iso_parse midnight "2024-01-08T12:00:00"
              eq_refl) as [_ [_ [Hrun [Hfuture [_ [Hweeks _]]]]]].
  split; [apply Hbad; reflexivity |]. split.
  - rewrite (Hrun noon_day7) by reflexivity.
    destruct (Hfuture (instant_us midnight - instant_us noon_day7)%Z)
      as [_ Hw]; [vm_compute; reflexivity |].
    rewrite Hw. reflexivity.
  - destruct (Hweeks (8 * US_PER_DAY)%Z) as [w [_ Hw]];
      [unfold US_PER_DAY; lia |].
    reflexivity.
Defined.

End HelperFacts.

(** ** timeline_manager.py *)

Module TimelineFacts.
Import TimelineManager.

(** X11.  [validate_event_edit] accepts an edit exactly when the updated
    event has its patient, type, text and timestamp, the patient and the
    type are those of the original event, and the text is not blank.  It
    returns an empty message exactly when it accepts. *)
Theorem X11_validate_event_edit_accepts (original updated : EventDict) :
  (fst (validate_event_edit original updated) = true <->
   exists pid ty tx ts,
     d_patient_id updated = Some pid /\ d_event_type updated = Some ty
     /\ d_text updated = Some tx /\ d_timestamp updated = Some ts
     /\ d_patient_id original = Some pid /\ d_event_type original = Some ty
     /\ str_strip tx <> EmptyString)
  /\ (snd (validate_event_edit original updated) = EmptyString <->
      fst (validate_event_edit original updated) = true).
Proof.
  unfold validate_event_edit.
  destruct updated as [[pid |] [ty |] [tx |] [ts |] dr];
    destruct original as [[pid0 |] [ty0 |] tx0 ts0 dr0];
    cbn [d_patient_id d_event_type d_text d_timestamp present negb differs
         get_or];
    try solve [split; [split; [discriminate
                              | intros (? & ? & ? & ? & ? & ? & ? & ? & ? & ? & ?);
                                congruence]
                      | split; discriminate]];
    try solve [destruct (negb (String.eqb pid0 pid));
               (split; [split; [discriminate
                               | intros (? & ? & ? & ? & ? & ? & ? & ? & ? & ? & ?);
                                 congruence]
                       | split; discriminate])].
  destruct (String.eqb_spec pid0 pid) as [-> | Hp]; cbn [negb].
  - destruct (String.eqb_spec ty0 ty) as [-> | Ht]; cbn [negb].
    + destruct (is_empty (str_strip tx)) eqn:Hb; cbn [fst snd].
      * apply is_empty_true in Hb.
        split; [split; [discriminate |] | split; discriminate].
        intros [? [? [x [? [_ [_ [E [_ [_ [_ H]]]]]]]]]].
        inversion E; subst. contradiction.
      * split; [| split; reflexivity]. split; [intros _ | reflexivity].
        exists pid, ty, tx, ts. repeat split; auto.
        intros E. rewrite E in Hb. discriminate Hb.
    + split; [split; [discriminate |] | split; discriminate].
      intros [? [y [? [? [_ [E [_ [_ [_ [E' _]]]]]]]]]].
      inversion E; inversion E'; subst. contradiction.
  - split; [split; [discriminate |] | split; discriminate].
    intros [x [? [? [? [E [_ [_ [_ [E' _]]]]]]]]].
    inversion E; inversion E'; subst. contradiction.
Qed.

Lemma X11_validate_event_edit_accepts_witness :
  validate_event_edit original_dict good_edit = (true, EmptyString)
  /\ fst (validate_event_edit original_dict blank_edit) = false
  /\ fst (validate_event_edit original_dict moved_edit) = false.
Proof.
  destruct (X11_validate_event_edit_accepts original_dict good_edit)
    as [Hacc Hmsg].
  assert (H : fst (validate_event_edit original_dict good_edit) = true).
  { apply Hacc. exists "p1", "symptom", "strong headache", "2024-01-01".
    repeat split; try reflexivity. discriminate. }
  apply Hmsg in H. split; [| split; reflexivity].
  destruct (validate_event_edit original_dict good_edit) as [b msg] eqn:E.
  vm_compute in E. inversion E. reflexivity.
Defined.

Lemma datetime_lt_error (a b : datetime) (err : exn) :
  datetime_lt a b = Raise err -> err = TypeError.
Proof.
  unfold datetime_lt.
  destruct (utcoffset a), (utcoffset b); intros H; now inversion H.
Qed.

Lemma filter_all {A : Type} (l : list A) : filter (fun _ => true) l = l.
Proof. induction l as [| x l IH]; simpl; [reflexivity | now rewrite IH]. Qed.

Lemma filter_idem {A : Type} (f : A -> bool) (l : list A) :
  filter f (filter f l) = filter f l.
Proof.
  induction l as [| x l IH]; simpl; [reflexivity |].
  destruct (f x) eqn:E; simpl; [now rewrite E, IH | exact IH].
Qed.

Section DateRangeFacts.

Variable parse : string -> Exc datetime.
Variables start_date end_date : option string.

Lemma in_date_range_true (e : Event) :
  in_date_range parse start_date end_date e = Return true <->
  within_bounds parse start_date end_date e.
Proof.
  unfold in_date_range, within_bounds.
  destruct (parse (timestamp_key e)) as [dt | err]; cbn [bind].
  2: { split; [discriminate | intros [dt [H _]]; discriminate H]. }
  destruct (truthy start_date).
  - destruct (parse (get_or start_date "")) as [sdt | err]; cbn [bind].
    2: { split; [discriminate |].
         intros [dt' [_ [H _]]]. destruct (H eq_refl) as [x [Hx _]].
         discriminate Hx. }
    destruct (datetime_lt dt sdt) as [[|] | err] eqn:Hlt; cbn [bind].
    + split; [discriminate |].
      intros [dt' [E [H _]]]. inversion E; subst dt'.
      destruct (H eq_refl) as [x [Hx Hf]]. inversion Hx; subst x. congruence.
    + destruct (truthy end_date).
      * destruct (parse (get_or end_date "")) as [edt | err]; cbn [bind].
        2: { split; [discriminate |].
             intros [dt' [_ [_ H]]]. destruct (H eq_refl) as [x [Hx _]].
             discriminate Hx. }
        destruct (datetime_lt edt dt) as [[|] | err] eqn:Hgt; cbn [bind negb].
        -- split; [discriminate |].
           intros [dt' [E [_ H]]]. inversion E; subst dt'.
           destruct (H eq_refl) as [x [Hx Hf]]. inversion Hx; subst x.
           congruence.
        -- split; [intros _ | reflexivity]. exists dt.
           split; [reflexivity |]. split; intros _; eauto.
        -- split; [discriminate |].
           intros [dt' [E [_ H]]]. inversion E; subst dt'.
           destruct (H eq_refl) as [x [Hx Hf]]. inversion Hx; subst x.
           congruence.
      * cbn [bind negb]. split; [intros _ | reflexivity]. exists dt.
        split; [reflexivity |]. split; [intros _; eauto | discriminate].
    + split; [discriminate |].
      intros [dt' [E [H _]]]. inversion E; subst dt'.
      destruct (H eq_refl) as [x [Hx Hf]]. inversion Hx; subst x. congruence.
  - cbn [bind]. destruct (truthy end_date).
    + destruct (parse (get_or end_date "")) as [edt | err]; cbn [bind].
      2: { split; [discriminate |].
           intros [dt' [_ [_ H]]]. destruct (H eq_refl) as [x [Hx _]].
           discriminate Hx. }
      destruct (datetime_lt edt dt) as [[|] | err] eqn:Hgt; cbn [bind negb].
      * split; [discriminate |].
        intros [dt' [E [_ H]]]. inversion E; subst dt'.
        destruct (H eq_refl) as [x [Hx Hf]]. inversion Hx; subst x.
        congruence.
      * split; [intros _ | reflexivity]. exists dt.
        split; [reflexivity |]. split; [discriminate | intros _; eauto].
      * split; [discriminate |].
        intros [dt' [E [_ H]]]. inversion E; subst dt'.
        destruct (H eq_refl) as [x [Hx Hf]]. inversion Hx; subst x.
        congruence.
    + cbn [bind negb]. split; [intros _ | reflexivity]. exists dt.
      split; [reflexivity |]. split; discriminate.
Qed.

Lemma kept_true (e : Event) :
  kept parse start_date end_date e = true <->
  within_bounds parse start_date end_date e.
Proof.
  rewrite <- in_date_range_true. unfold kept.
  destruct (in_date_range parse start_date end_date e) as [[|] | err];
    split; congruence.
Qed.

Hypothesis parse_errors : value_errors_only parse.

Lemma in_date_range_error (e : Event) (err : exn) :
  in_date_range parse start_date end_date e = Raise err ->
  err = ValueError \/ err = TypeError.
Proof.
  unfold in_date_range.
  destruct (parse (timestamp_key e)) as [dt | err0] eqn:Hp; cbn [bind].
  2: { intros H. inversion H; subst. left. exact (parse_errors _ _ Hp). }
  assert (Hbound : forall (d : option string) (cmp : datetime -> Exc bool)
                          (k : bool -> Exc bool),
            (forall x err', cmp x = Raise err' -> err' = TypeError) ->
            (forall b, k b = Raise err -> err = ValueError \/ err = TypeError) ->
            (b <- (if truthy d then x <- parse (get_or d "") ;; cmp x
                   else Return false) ;; k b) = Raise err ->
            err = ValueError \/ err = TypeError).
  { intros d cmp k Hcmp Hk. destruct (truthy d); cbn [bind]; [| apply Hk].
    destruct (parse (get_or d "")) as [x | err1] eqn:Hx; cbn [bind].
    - destruct (cmp x) as [b | err2] eqn:Hc; cbn [bind]; [apply Hk |].
      intros H. inversion H; subst. right. exact (Hcmp _ _ Hc).
    - intros H. inversion H; subst. left. exact (parse_errors _ _ Hx). }
  apply Hbound.
  - intros x err'. apply datetime_lt_error.
  - intros [|]; [discriminate |]. apply Hbound.
    + intros x err'. apply datetime_lt_error.
    + intros b. discriminate.
Qed.

Lemma skip_invalid_kept (e : Event) :
  skip_invalid (in_date_range parse start_date end_date e)
  = Return (kept parse start_date end_date e).
Proof.
  unfold kept.
  destruct (in_date_range parse start_date end_date e) as [b | err] eqn:H;
    [reflexivity |].
  destruct (in_date_range_error e err H) as [-> | ->]; reflexivity.
Qed.

Lemma filter_loop (events : list Event) :
  forall acc,
    for_each (filter_step parse start_date end_date) events acc
    = Return (acc ++ filter (kept parse start_date end_date) events).
Proof.
  induction events as [| e l IH]; intros acc; cbn [for_each filter].
  - now rewrite app_nil_r.
  - unfold filter_step at 1. rewrite skip_invalid_kept. cbn [bind].
    destruct (kept parse start_date end_date e); rewrite IH;
      [now rewrite <- app_assoc | reflexivity].
Qed.

Lemma filter_timeline_eq (events : list Event) :
  filter_timeline_by_date_range parse events start_date end_date
  = Return (if (negb (truthy start_date) && negb (truthy end_date))%bool
            then events
            else filter (kept parse start_date end_date) events).
Proof.
  unfold filter_timeline_by_date_range.
  destruct (negb (truthy start_date) && negb (truthy end_date))%bool;
    [reflexivity | apply filter_loop].
Qed.

End DateRangeFacts.

(** X12.  [filter_timeline_by_date_range], for a parser that fails with
    [ValueError] only, always returns.  Without any bound it returns the
    events as they are.  With a bound it returns, in their order, exactly
    the events whose timestamp parses and lies between the bounds given,
    both included; an event whose timestamp does not parse is left out.
    Filtering the result again with the same bounds changes nothing. *)
Theorem X12_date_range_filter (parse : string -> Exc datetime)
    (events : list Event) (start_date end_date : option string) :
  value_errors_only parse ->
  exists l,
    filter_timeline_by_date_range parse events start_date end_date = Return l
    /\ (truthy start_date = false -> truthy end_date = false -> l = events)
    /\ (truthy start_date = true \/ truthy end_date = true ->
        forall e,
          In e l <->
          In e events /\ within_bounds parse start_date end_date e)
    /\ (exists f, l = filter f events)
    /\ filter_timeline_by_date_range parse l start_date end_date = Return l.
Proof.
  intros Hveo. rewrite (filter_timeline_eq parse start_date end_date Hveo).
  eexists. split; [reflexivity |].
  destruct (negb (truthy start_date) && negb (truthy end_date))%bool eqn:Hnb.
  - apply andb_true_iff in Hnb. destruct Hnb as [Hs He].
    apply negb_true_iff in Hs. apply negb_true_iff in He.
    split; [reflexivity |].
    split; [intros [H | H]; congruence |].
    split; [exists (fun _ => true); now rewrite filter_all |].
    rewrite (filter_timeline_eq parse _ _ Hveo), Hs, He. reflexivity.
  - split; [intros Hs He; rewrite Hs, He in Hnb; discriminate Hnb |].
    split; [intros _ e; rewrite filter_In, kept_true; reflexivity |].
    split; [eexists; reflexivity |].
    rewrite (filter_timeline_eq parse _ _ Hveo), Hnb, filter_idem.
    reflexivity.
Qed.

(** The events of the sample store from 2024-01-05 on: the prescription
    of 2024-01-01 is left out, the two later reports are kept. *)
Lemma X12_date_range_filter_witness :
  exists l,
    filter_timeline_by_date_range iso_parse (stored_events window_memory)
                                  (Some "2024-01-05") None
    = Return l
    /\ l = [dizzy_day7; dizzy_day8]
    /\ within_bounds iso_parse (Some "2024-01-05") None dizzy_day7.
Proof.
  destruct (X12_date_range_filter iso_parse (stored_events window_memory)
              (Some "2024-01-05") None iso_parse_value_errors)
    as [l [Hrun [_ [Hin _]]]].
  exists l. split; [exact Hrun |].
  assert (Hl : l = [dizzy_day7; dizzy_day8]).
  { vm_compute in Hrun. now inversion Hrun. }
  split; [exact Hl |].
  apply (Hin (or_introl eq_refl) dizzy_day7). rewrite Hl. now left.
Defined.

(** X13.  With a bound that is given but does not parse,
    [filter_timeline_by_date_range] returns no event at all: the failure
    of the bound is taken for a failure of every event. *)
Theorem X13_unparsable_bound_empties (parse : string -> Exc datetime)
    (events : list Event) (start_date end_date : option string) :
  value_errors_only parse ->
  (truthy start_date = true
   /\ parse (get_or start_date "") = Raise ValueError)
  \/ (truthy end_date = true
      /\ parse (get_or end_date "") = Raise ValueError) ->
  filter_timeline_by_date_range parse events start_date end_date = Return [].
Proof.
  intros Hveo Hbad.
  rewrite (filter_timeline_eq parse start_date end_date Hveo).
  assert (Hnb : (negb (truthy start_date) && negb (truthy end_date))%bool
                = false).
  { destruct Hbad as [[H _] | [H _]]; rewrite H; cbn [negb andb];
      [reflexivity | apply andb_false_r]. }
  rewrite Hnb. f_equal.
  assert (Hnone : forall e, kept parse start_date end_date e = false).
  { intros e. destruct (kept parse start_date end_date e) eqn:E;
      [| reflexivity].
    apply kept_true in E. destruct E as [dt [_ [Hs He]]].
    destruct Hbad as [[Ht Hp] | [Ht Hp]].
    - destruct (Hs Ht) as [x [Hx _]]. congruence.
    - destruct (He Ht) as [x [Hx _]]. congruence. }
  induction events as [| e l IH]; simpl; [reflexivity |].
  now rewrite Hnone.
Qed.

Lemma X13_unparsable_bound_empties_witness :
  filter_timeline_by_date_range iso_parse (stored_events window_memory)
                                (Some "last week") None
  = Return [].
Proof.
  apply X13_unparsable_bound_empties.
  - exact iso_parse_value_errors.
  - left. split; reflexivity.
Defined.

Section BulkDeleteFacts.

Variable Store : Type.
Variable delete_event : Store -> string -> Store * bool.

Lemma bulk_fold (ids : list string) :
  forall (store : Store) (r : BulkResult),
    total (snd (fold_left (bulk_step Store delete_event) ids (store, r)))
    = total r
    /\ Permutation
         (success (snd (fold_left (bulk_step Store delete_event) ids
                                  (store, r)))
          ++ failed (snd (fold_left (bulk_step Store delete_event) ids
                                    (store, r))))
         ((success r ++ failed r) ++ ids).
Proof.
  induction ids as [| id l IH]; intros store r.
  - simpl. now rewrite app_nil_r.
  - cbn [fold_left]. unfold bulk_step at 2 4 6.
    destruct (delete_event store id) as [store' [|]];
      match goal with
      | |- context [fold_left _ l (?s, ?r')] =>
          destruct (IH s r') as [Ht Hp]
      end;
      cbn [success failed total] in Ht, Hp; (split; [exact Ht |]);
      rewrite Hp.
    + rewrite <- !app_assoc. apply Permutation_app_head.
      simpl. apply Permutation_middle.
    + rewrite <- !app_assoc. reflexivity.
Qed.

End BulkDeleteFacts.

(** X14.  [bulk_delete_events] reports every point id it was given
    exactly once, as a success or as a failure, whatever the deletions
    answer: the two lists together are a rearrangement of the ids, their
    lengths add up to [total], the number of ids, and for distinct ids
    no id is in both lists. *)
Theorem X14_bulk_delete_partitions (Store : Type)
    (delete_event : Store -> string -> Store * bool) (store : Store)
    (point_ids : list string) :
  let results := snd (bulk_delete_events Store delete_event store point_ids) in
  total results = List.length point_ids
  /\ Permutation (success results ++ failed results) point_ids
  /\ List.length (success results) + List.length (failed results)
     = total results
  /\ (NoDup point_ids ->
      forall id, ~ (In id (success results) /\ In id (failed results))).
Proof.
  cbn zeta. unfold bulk_delete_events.
  destruct (bulk_fold Store delete_event point_ids store
              (mkBulkResult [] [] (List.length point_ids))) as [Ht Hp].
  cbn [success failed total app] in Ht, Hp.
  split; [exact Ht |]. split; [exact Hp |]. split.
  - rewrite Ht, <- length_app. now apply Permutation_length.
  - intros Hnd id [Hs Hf].
    apply (Permutation_NoDup (Permutation_sym Hp)) in Hnd.
    apply NoDup_app_remove_l in Hnd as Hnf.
    clear Hnf. revert Hnd Hs Hf.
    generalize (success (snd (fold_left (bulk_step Store delete_event)
                                point_ids
                                (store, mkBulkResult [] []
                                          (List.length point_ids))))).
    intros l Hnd Hs Hf. induction l as [| x l IH]; [contradiction |].
    simpl in Hnd. inversion Hnd as [| ? ? Hnotin Hnd']; subst.
    destruct Hs as [-> | Hs]; [| now apply IH].
    apply Hnotin. apply in_or_app. now right.
Qed.

Lemma X14_bulk_delete_partitions_witness :
  snd (bulk_delete_events (list string) sample_delete ["a"; "b"]
                          ["a"; "x"; "b"])
  = mkBulkResult ["a"; "b"] ["x"] 3
  /\ forall id,
       ~ (In id (success (snd (bulk_delete_events (list string) sample_delete
                                 ["a"; "b"] ["a"; "x"; "b"])))
          /\ In id (failed (snd (bulk_delete_events (list string)
                                   sample_delete ["a"; "b"]
                                   ["a"; "x"; "b"])))).
Proof.
  split; [reflexivity |].
  destruct (X14_bulk_delete_partitions (list string) sample_delete
              ["a"; "b"] ["a"; "x"; "b"]) as [_ [_ [_ H]]].
  apply H. repeat constructor; simpl; intros H'; intuition discriminate.
Defined.

End TimelineFacts.

(** ** memory_agent.py and safety_agent.py, continued *)

Module SafetyMore.
Import SafetyAgent.

Lemma firstn_incl {A : Type} (n : nat) (l : list A) (x : A) :
  In x (firstn n l) -> In x l.
Proof.
  intros H. rewrite <- (firstn_skipn n l). apply in_or_app. now left.
Qed.

Lemma matches_filter_requested (pid : string) (etype : option string)
    (e : Event) :
  matches_filter pid etype e = true <-> requested pid etype e.
Proof.
  unfold matches_filter, requested.
  rewrite andb_true_iff, String.eqb_eq. split.
  - intros [Hp Ht]. split; [exact Hp |]. intros t -> Hne.
    destruct t as [| c t]; [congruence |]. simpl in Ht.
    now apply String.eqb_eq.
  - intros [Hp Ht]. split; [exact Hp |].
    destruct etype as [[| c t] |]; [reflexivity | | reflexivity].
    simpl. apply String.eqb_eq. apply Ht; [reflexivity | discriminate].
Qed.

(** X15.  [get_patient_history] returns stored events of the patient
    asked for, of the type asked for when one is given, and at most
    [limit] of them; when the store holds no more than [limit] such
    events it returns them all. *)
Theorem X15_history_of_patient (m : MemoryAgent) (pid : string)
    (etype : option string) (limit : nat) :
  (forall e,
     In e (get_patient_history m pid etype limit) ->
     In e (stored_events m) /\ requested pid etype e)
  /\ List.length (get_patient_history m pid etype limit) <= limit
  /\ (List.length (filter (matches_filter pid etype) (stored_events m))
      <= limit ->
      forall e,
        In e (stored_events m) -> requested pid etype e ->
        In e (get_patient_history m pid etype limit)).
Proof.
  pose proof (sort_newest_first_perm
                (firstn limit (filter (matches_filter pid etype)
                                      (stored_events m)))) as Hperm.
  fold (get_patient_history m pid etype limit) in Hperm.
  split; [| split].
  - intros e Hin. apply (Permutation_in _ Hperm) in Hin.
    apply firstn_incl in Hin. apply filter_In in Hin.
    destruct Hin as [Hin Hm]. split; [exact Hin |].
    now apply matches_filter_requested.
  - rewrite (Permutation_length Hperm). apply firstn_le_length.
  - intros Hlen e Hin Hreq.
    apply (Permutation_in _ (Permutation_sym Hperm)).
    rewrite firstn_all2 by exact Hlen.
    apply filter_In. split; [exact Hin |].
    now apply matches_filter_requested.
Qed.

Lemma X15_history_of_patient_witness :
  get_patient_history window_memory "p1" (Some "symptom") 1 = [dizzy_day7]
  /\ requested "p1" (Some "symptom") dizzy_day7
  /\ In rx_day0 (get_patient_history window_memory "p1" (Some "prescription")
                                     default_limit).
Proof.
  destruct (X15_history_of_patient window_memory "p1" (Some "symptom") 1)
    as [Hsound _].
  destruct (X15_history_of_patient window_memory "p1" (Some "prescription")
              default_limit) as [_ [_ Hall]].
  split; [reflexivity |]. split.
  - apply Hsound. now left.
  - apply Hall.
    + vm_compute. lia.
    + now left.
    + split; [reflexivity |]. intros t E _. now inversion E.
Defined.

Lemma insert_sorted_perm (x : string) (l : list string) :
  Permutation (insert_sorted x l) (x :: l).
Proof.
  induction l as [| y l IH]; simpl; [reflexivity |].
  destruct (String.leb x y); [reflexivity |].
  rewrite IH. apply perm_swap.
Qed.

Lemma sorted_strings_perm (l : list string) :
  Permutation (sorted_strings l) l.
Proof.
  induction l as [| x l IH]; simpl; [reflexivity |].
  rewrite insert_sorted_perm. now constructor.
Qed.

Lemma leb_false_leb (a b : string) :
  String.leb a b = false -> String.leb b a = true.
Proof.
  intros H. destruct (String.leb_total a b) as [E | E]; congruence.
Qed.

Lemma insert_sorted_sorted (x : string) (l : list string) :
  Sorted (fun a b => String.leb a b = true) l ->
  Sorted (fun a b => String.leb a b = true) (insert_sorted x l).
Proof.
  induction l as [| y l IH]; intros Hs; simpl.
  - repeat constructor.
  - destruct (String.leb x y) eqn:E.
    + constructor; [assumption |]. now constructor.
    + inversion Hs as [| ? ? Hs' Hhd]; subst.
      constructor; [now apply IH |].
      destruct l as [| z l]; simpl.
      * constructor. now apply leb_false_leb.
      * destruct (String.leb x z).
        -- constructor. now apply leb_false_leb.
        -- constructor. now inversion Hhd.
Qed.

Lemma sorted_strings_sorted (l : list string) :
  Sorted (fun a b => String.leb a b = true) (sorted_strings l).
Proof.
  induction l as [| x l IH]; simpl; [constructor |].
  now apply insert_sorted_sorted.
Qed.

Lemma leb_neq_ltb (a b : string) :
  String.leb a b = true -> a <> b -> String.ltb a b = true.
Proof.
  unfold String.leb, String.ltb. intros Hle Hne.
  destruct (String.compare a b) eqn:E; [| reflexivity | discriminate].
  apply String.compare_eq_iff in E. contradiction.
Qed.

Lemma sorted_nodup_strict (l : list string) :
  Sorted (fun a b => String.leb a b = true) l -> NoDup l ->
  Sorted strictly_before l.
Proof.
  induction 1 as [| a l Hs IH Hhd]; intros Hnd; [constructor |].
  inversion Hnd as [| ? ? Hnotin Hnd']; subst.
  constructor; [now apply IH |].
  destruct Hhd as [| b l Hab]; constructor.
  apply leb_neq_ltb; [exact Hab |]. intros ->. apply Hnotin. now left.
Qed.

(** X1.  The current medications of a patient are listed in strictly
    ascending code-point order, each once, and they are exactly the
    drugs named by the prescriptions of the patient's history. *)
Theorem X1_medications_sorted_set (m : MemoryAgent) (pid : string) :
  Sorted strictly_before (_get_patient_medications m pid)
  /\ NoDup (_get_patient_medications m pid)
  /\ (forall d,
        In d (_get_patient_medications m pid) <->
        exists rx,
          In rx (prescription_history m pid)
          /\ In d (get_or (drugs rx) [])).
Proof.
  unfold _get_patient_medications. fold (prescription_history m pid).
  assert (Hnd : NoDup (sorted_strings
                         (nodup string_dec
                            (flat_map (fun rx => get_or (drugs rx) [])
                                      (prescription_history m pid))))).
  { apply (Permutation_NoDup (Permutation_sym (sorted_strings_perm _))).
    apply NoDup_nodup. }
  split; [| split; [exact Hnd |]].
  - apply sorted_nodup_strict; [apply sorted_strings_sorted | exact Hnd].
  - intros d. rewrite sorted_strings_In, nodup_In, in_flat_map. reflexivity.
Qed.

Lemma X1_medications_sorted_set_witness :
  _get_patient_medications repeat_memory "p1" = ["Aspirin"; "Warfarin"]
  /\ exists rx,
       In rx (prescription_history repeat_memory "p1")
       /\ In "Warfarin" (get_or (drugs rx) []).
Proof.
  split; [reflexivity |].
  destruct (X1_medications_sorted_set repeat_memory "p1") as [_ [_ H]].
  apply H. right. now left.
Defined.

Lemma applies_no_current (n : string) (i : Interaction) :
  applies n [] i = false.
Proof. unfold applies. simpl. now rewrite !andb_false_r. Qed.

Lemma find_no_current (m : MemoryAgent) (new_drug : string) :
  _find_interactions m new_drug [] = [].
Proof.
  unfold _find_interactions. simpl.
  induction (get_all_drug_interactions m) as [| i l IH]; simpl;
    [reflexivity |].
  now rewrite applies_no_current.
Qed.

Lemma applies_side (n : string) (cur : list string) (i : Interaction) :
  applies n cur i = true ->
  str_lower (drug_a i) = n \/ str_lower (drug_b i) = n.
Proof.
  unfold applies. rewrite orb_true_iff, !andb_true_iff, !String.eqb_eq.
  tauto.
Qed.

(** X2.  The verdict of [check_new_medication] names the candidate it
    was asked about and carries exactly the interactions found for the
    current medications.  It is safe exactly when it carries none, and
    it has a maximal severity exactly when it is unsafe.  Every
    interaction it carries is a stored one with the candidate, up to
    letter case, on one of its two sides. *)
Theorem X2_verdict_invariants (m : MemoryAgent) (pid candidate : string) :
  new_drug (check_new_medication m pid candidate) = candidate
  /\ interactions (check_new_medication m pid candidate)
     = _find_interactions m candidate (_get_patient_medications m pid)
  /\ (safe (check_new_medication m pid candidate) = true <->
      interactions (check_new_medication m pid candidate) = [])
  /\ (max_severity (check_new_medication m pid candidate) = None <->
      safe (check_new_medication m pid candidate) = true)
  /\ (forall i,
        In i (interactions (check_new_medication m pid candidate)) ->
        In i (get_all_drug_interactions m)
        /\ (str_lower (drug_a i) = str_lower candidate
            \/ str_lower (drug_b i) = str_lower candidate)).
Proof.
  assert (Hint : interactions (check_new_medication m pid candidate)
                 = _find_interactions m candidate
                     (_get_patient_medications m pid)).
  { unfold check_new_medication.
    destruct (_get_patient_medications m pid) as [| d ds].
    - now rewrite find_no_current.
    - now destruct (_find_interactions m candidate (d :: ds)). }
  split; [| split; [exact Hint |]].
  { unfold check_new_medication.
    destruct (_get_patient_medications m pid) as [| d ds]; [reflexivity |].
    now destruct (_find_interactions m candidate (d :: ds)). }
  split; [| split].
  - unfold check_new_medication.
    destruct (_get_patient_medications m pid) as [| d ds];
      [simpl; tauto |].
    destruct (_find_interactions m candidate (d :: ds)); simpl;
      split; congruence.
  - unfold check_new_medication.
    destruct (_get_patient_medications m pid) as [| d ds];
      [simpl; tauto |].
    destruct (_find_interactions m candidate (d :: ds)); simpl;
      split; congruence.
  - intros i Hin. rewrite Hint in Hin. unfold _find_interactions in Hin.
    apply filter_In in Hin. destruct Hin as [Hin Happ].
    split; [exact Hin |]. exact (applies_side _ _ _ Happ).
Qed.

Lemma X2_verdict_invariants_witness :
  interactions (check_new_medication sample_memory "p1" "warfarin")
  = [warfarin_aspirin]
  /\ safe (check_new_medication sample_memory "p1" "warfarin") = false
  /\ str_lower (drug_a warfarin_aspirin) = str_lower "warfarin".
Proof.
  destruct (X2_verdict_invariants sample_memory "p1" "warfarin")
    as [_ [Hint [Hsafe [_ Hside]]]].
  split; [reflexivity |]. split.
  - apply not_true_is_false. intros E. apply Hsafe in E.
    vm_compute in E. discriminate E.
  - destruct (Hside warfarin_aspirin) as [_ [H | H]];
      [now left | exact H | discriminate H].
Defined.

Lemma first_match_head (a b : string) (l : list Interaction) :
  first_match a b l = hd_error (filter (applies a [b]) l).
Proof.
  induction l as [| i l IH]; simpl; [reflexivity |].
  assert (E : applies a [b] i
              = ((String.eqb (str_lower (drug_a i)) a
                  && String.eqb (str_lower (drug_b i)) b)
                 || (String.eqb (str_lower (drug_a i)) b
                     && String.eqb (str_lower (drug_b i)) a))%bool).
  { unfold applies, str_mem. simpl. rewrite !orb_false_r.
    f_equal. apply andb_comm. }
  rewrite E.
  destruct ((String.eqb (str_lower (drug_a i)) a
             && String.eqb (str_lower (drug_b i)) b)
            || (String.eqb (str_lower (drug_a i)) b
                && String.eqb (str_lower (drug_b i)) a))%bool;
    [reflexivity | exact IH].
Qed.

(** X3.  [get_interaction_details a b] is the first interaction that the
    safety check finds for the candidate [a] against the single current
    drug [b], and nothing when the check finds none. *)
Theorem X3_details_first_found (m : MemoryAgent) (a b : string) :
  get_interaction_details m a b = hd_error (_find_interactions m a [b]).
Proof.
  unfold get_interaction_details, _find_interactions. simpl.
  apply first_match_head.
Qed.

(** X4.  The rank of the maximal severity of two lists of interactions
    put together is the greater of the ranks of their maximal
    severities: adding interactions never lowers the maximal
    severity. *)
Theorem X4_max_severity_of_union (l1 l2 : list Interaction) :
  severity_order (_get_max_severity (l1 ++ l2))
  = Nat.max (severity_order (_get_max_severity l1))
            (severity_order (_get_max_severity l2))
  /\ severity_order (_get_max_severity l1)
     <= severity_order (_get_max_severity (l1 ++ l2)).
Proof.
  destruct (SafetyFacts.get_max_severity_rank (l1 ++ l2)) as [_ H].
  destruct (SafetyFacts.get_max_severity_rank l1) as [_ H1].
  destruct (SafetyFacts.get_max_severity_rank l2) as [_ H2].
  rewrite H, H1, H2, map_app, list_max_app. lia.
Qed.

Lemma str_mem_ext (x : string) (l l' : list string) :
  (forall y, In y l <-> In y l') -> str_mem x l = str_mem x l'.
Proof.
  intros H. destruct (str_mem x l) eqn:E; symmetry.
  - apply str_mem_In. apply H. now apply str_mem_In.
  - destruct (str_mem x l') eqn:E'; [| reflexivity].
    apply str_mem_In in E'. apply H in E'. apply str_mem_In in E'.
    congruence.
Qed.

(** X5.  The interactions found depend on the current drugs as a set of
    lower-cased names only: two lists with the same names up to letter
    case, in any order and with any repetition, find the same
    interactions, and the interactions found for two lists put together
    are those found for one or for the other. *)
Theorem X5_current_drugs_as_set (m : MemoryAgent) (candidate : string)
    (cur cur' : list string) :
  ((forall d, In d (map str_lower cur) <-> In d (map str_lower cur')) ->
   _find_interactions m candidate cur = _find_interactions m candidate cur')
  /\ (forall i,
        In i (_find_interactions m candidate (cur ++ cur')) <->
        In i (_find_interactions m candidate cur)
        \/ In i (_find_interactions m candidate cur')).
Proof.
  split.
  - intros Hset. unfold _find_interactions. apply filter_ext.
    intros i. unfold applies.
    now rewrite (str_mem_ext _ _ _ Hset), (str_mem_ext _ _ _ Hset).
  - intros i. unfold _find_interactions. rewrite !filter_In.
    assert (Happ : applies (str_lower candidate) (map str_lower (cur ++ cur')) i
                   = (applies (str_lower candidate) (map str_lower cur) i
                      || applies (str_lower candidate) (map str_lower cur') i)%bool).
    { unfold applies, str_mem. rewrite map_app, !existsb_app.
      destruct (String.eqb (str_lower (drug_a i)) (str_lower candidate));
        destruct (String.eqb (str_lower (drug_b i)) (str_lower candidate));
        cbn [andb orb];
        repeat match goal with
               | |- context [existsb ?f ?l] => destruct (existsb f l)
               end; reflexivity. }
    rewrite Happ, orb_true_iff. tauto.
Qed.

Lemma X5_current_drugs_as_set_witness :
  _find_interactions sample_memory "Warfarin" ["ASPIRIN"; "aspirin"; "Tylenol"]
  = _find_interactions sample_memory "Warfarin" ["tylenol"; "Aspirin"].
Proof.
  apply (proj1 (X5_current_drugs_as_set sample_memory "Warfarin"
                  ["ASPIRIN"; "aspirin"; "Tylenol"] ["tylenol"; "Aspirin"])).
  intros d. simpl. intuition auto.
Defined.

End SafetyMore.

(** ** pattern_agent.py, continued *)

Module PatternMore.
Import PatternAgent.

Lemma NoDup_keys_filter (f : string * nat -> bool) (c : list (string * nat)) :
  NoDup (map fst c) -> NoDup (map fst (filter f c)).
Proof.
  induction c as [| e c IH]; simpl; intros H; [constructor |].
  inversion H as [| ? ? Hnotin Hnd]; subst.
  destruct (f e); simpl; [| now apply IH].
  constructor; [| now apply IH].
  intros Hin. apply Hnotin. apply in_map_iff in Hin.
  destruct Hin as [e' [E Hin]]. apply filter_In in Hin.
  apply in_map_iff. exists e'. tauto.
Qed.

Lemma pattern_keywords (occs : list KeywordOccurrence)
    (entries : list (string * nat)) :
  map symptom_keyword (map (pattern_of occs) entries) = map fst entries.
Proof.
  induction entries as [| [kw n] l IH]; simpl; [reflexivity |].
  now rewrite IH.
Qed.

Lemma mentions_counted (kw : string) (s : Event) :
  mentions kw s = true -> 1 <= count_in_report kw s.
Proof.
  unfold mentions, count_in_report. intros H. apply str_mem_In in H.
  now apply (count_occ_In string_dec).
Qed.

Lemma reports_le_occurrences (kw : string) (symptoms : list Event) :
  List.length (filter (mentions kw) symptoms)
  <= list_sum (map (count_in_report kw) symptoms).
Proof.
  induction symptoms as [| s l IH]; simpl; [lia |].
  destruct (mentions kw s) eqn:E; simpl; [| lia].
  pose proof (mentions_counted kw s E). lia.
Qed.

(** X16.  [detect_recurring_symptoms] answers that there are patterns
    exactly when it returns at least one, and returns none for a history
    of fewer than two reports, whatever they say.  The patterns returned
    have pairwise different keywords.  Each pattern has as many dates as
    reports, at least one, and no more than its occurrence count. *)
Theorem X16_pattern_result_shape (m : MemoryAgent) (pid : string) :
  (has_patterns (detect_recurring_symptoms m pid) = true <->
   patterns_of (detect_recurring_symptoms m pid) <> [])
  /\ (List.length (symptom_history m pid) < 2 ->
      has_patterns (detect_recurring_symptoms m pid) = false
      /\ recurring_symptoms (detect_recurring_symptoms m pid) = None)
  /\ NoDup (map symptom_keyword
                (patterns_of (detect_recurring_symptoms m pid)))
  /\ (forall p,
        In p (patterns_of (detect_recurring_symptoms m pid)) ->
        1 <= List.length (dates p)
        /\ List.length (dates p) = List.length (reports p)
        /\ List.length (reports p) <= occurrence_count p).
Proof.
  split; [| split; [| split]].
  - unfold detect_recurring_symptoms.
    destruct (Nat.ltb _ 2);
      [simpl; split; [discriminate | intros H; now elim H] |].
    destruct (filter _ (Counter _)); simpl.
    + split; [discriminate | intros H; now elim H].
    + split; [intros _; discriminate | reflexivity].
  - intros Hlt. unfold detect_recurring_symptoms.
    fold (symptom_history m pid).
    apply Nat.ltb_lt in Hlt. rewrite Hlt. split; reflexivity.
  - rewrite PatternFacts.patterns_of_detect.
    destruct (Nat.ltb _ 2); [constructor |].
    rewrite pattern_keywords. unfold recurring_entries.
    apply NoDup_keys_filter, Counter_NoDup.
  - intros p Hp. apply PatternFacts.pattern_In in Hp.
    destruct Hp as [_ [Hkw [_ Hp]]].
    assert (Hd : List.length (dates p)
                 = List.length (filter (mentions (symptom_keyword p))
                                       (symptom_history m pid)))
      by (rewrite Hp at 1; simpl; apply length_map).
    assert (Hr : List.length (reports p)
                 = List.length (filter (mentions (symptom_keyword p))
                                       (symptom_history m pid)))
      by (rewrite Hp at 1; simpl; apply length_map).
    assert (Hc : occurrence_count p
                 = count_occ string_dec
                     (all_keywords_of (symptom_history m pid))
                     (symptom_keyword p))
      by (rewrite Hp at 1; reflexivity).
    rewrite Hd, Hr, Hc, PatternFacts.count_occ_flat_map.
    split; [now apply PatternFacts.mentions_flat_map |].
    split; [reflexivity | apply reports_le_occurrences].
Qed.

Lemma X16_pattern_result_shape_witness :
  has_patterns (detect_recurring_symptoms headache_memory "p1") = true
  /\ has_patterns (detect_recurring_symptoms sample_memory "p1") = false
  /\ List.length (reports (mkPattern "headache" 2 ["2024-01-01"]
                                     ["headache headache"])) <= 2.
Proof.
  destruct (X16_pattern_result_shape headache_memory "p1") as [H1 _].
  destruct (X16_pattern_result_shape sample_memory "p1") as [_ [H2 _]].
  destruct (X16_pattern_result_shape repeated_memory "p1")
    as [_ [_ [_ H4]]].
  split; [apply H1; vm_compute; discriminate |].
  split; [apply H2; vm_compute; lia |].
  destruct (H4 (mkPattern "headache" 2 ["2024-01-01"] ["headache headache"]))
    as [_ [_ H]]; [left; reflexivity | exact H].
Defined.

End PatternMore.

(** ** The temporal correlator, continued *)

Module CorrelatorMore.
Import PatternAgent.

(** X17.  With no prescription in the history, or with no report that
    contains the keyword, [correlate_with_medications] returns a result
    without any correlation, for every parser: no timestamp is read, so
    none can make it fail. *)
Theorem X17_correlator_short_circuits (parse : string -> Exc datetime)
    (m : MemoryAgent) (pid kw : string) :
  prescription_history m pid = []
  \/ filter (matches_keyword kw) (symptom_history m pid) = [] ->
  exists r,
    correlate_with_medications parse m pid kw = Return r
    /\ correlation_found r = false
    /\ correlations r = None.
Proof.
  intros H. unfold correlate_with_medications.
  fold (symptom_history m pid). fold (prescription_history m pid).
  destruct (prescription_history m pid) as [| rx rxs].
  - eexists. repeat split.
  - destruct H as [H | H]; [discriminate H |]. rewrite H.
    eexists. repeat split.
Qed.

Lemma X17_correlator_short_circuits_witness :
  exists r,
    correlate_with_medications iso_parse undated_memory "p1" "fever"
    = Return r
    /\ correlation_found r = false
    /\ correlations r = None.
Proof.
  apply X17_correlator_short_circuits. right. reflexivity.
Defined.





Lemma prefix_iff (needle hay : string) :
  String.prefix needle hay = true <->
  exists post, hay = (needle ++ post)%string.
Proof.
  revert hay. induction needle as [| a needle IH]; intros hay.
  - destruct hay; simpl; (split; [intros _; eexists; reflexivity | auto]).
  - destruct hay as [| b hay]; simpl.
    + split; [discriminate | intros [post H]; discriminate H].
    + destruct (ascii_dec a b) as [-> | Hne].
      * rewrite IH. split; intros [post H]; exists post.
        -- now rewrite H.
        -- now inversion H.
      * split; [discriminate |]. intros [post H]. inversion H. congruence.
Qed.

Lemma str_contains_iff (needle hay : string) :
  str_contains needle hay = true <->
  exists pre post, hay = (pre ++ needle ++ post)%string.
Proof.
  induction hay as [| c hay IH].
  - cbn [str_contains]. rewrite orb_false_r, prefix_iff. split.
    + intros [post H]. now exists EmptyString, post.
    + intros [pre [post H]]. destruct pre; [| discriminate H].
      now exists post.
  - cbn [str_contains]. rewrite orb_true_iff, prefix_iff, IH. split.
    + intros [[post H] | [pre [post H]]].
      * now exists EmptyString, post.
      * exists (String c pre), post. simpl. now rewrite H.
    + intros [[| d pre] [post H]].
      * left. now exists post.
      * right. inversion H. now exists pre, post.
Qed.

(** X19.  A report matches the keyword of the correlator exactly when
    the lower-cased keyword occurs somewhere inside the lower-cased text
    of the report, as a run of characters and not as a word.  So the
    empty keyword matches every report, keywords that differ in letter
    case match the same reports, and a keyword whose lower-cased form
    is longer than the lower-cased text matches nothing. *)
Theorem X19_keyword_is_substring (kw : string) (s : Event) :
  (matches_keyword kw s = true <->
   exists pre post,
     str_lower (text s) = (pre ++ str_lower kw ++ post)%string)
  /\ matches_keyword EmptyString s = true
  /\ (forall kw', same_ignoring_case kw kw' ->
                  matches_keyword kw' s = matches_keyword kw s)
  /\ (matches_keyword kw s = true ->
      String.length (str_lower kw) <= String.length (str_lower (text s))).
Proof.
  split; [apply str_contains_iff |]. split; [| split].
  - apply str_contains_iff. exists EmptyString, (str_lower (text s)).
    reflexivity.
  - intros kw' H. unfold matches_keyword, same_ignoring_case in *.
    now rewrite H.
  - intros H. apply str_contains_iff in H. destruct H as [pre [post H]].
    apply (f_equal String.length) in H.
    rewrite !str_length_app in H. lia.
Qed.

Lemma X19_keyword_is_substring_witness :
  matches_keyword "ACHE" (mkEvent "p1" "symptom" "Bad headache today"
                                  None None) = true
  /\ String.length (str_lower "ACHE")
     <= String.length (str_lower "Bad headache today").
Proof.
  destruct (X19_keyword_is_substring "ACHE"
              (mkEvent "p1" "symptom" "Bad headache today" None None))
    as [Hiff [_ [_ Hlen]]].
  assert (H : matches_keyword "ACHE"
                (mkEvent "p1" "symptom" "Bad headache today" None None)
              = true).
  { apply Hiff. exists "bad head", " today". reflexivity. }
  split; [exact H | exact (Hlen H)].
Defined.

(** X20.  The day difference of the correlator on two naive datetimes is
    the same in both orders exactly when the datetimes are a whole
    number of days apart.  When the first datetime is the later one the
    difference is the number of whole days between the two; when it is
    the earlier one and the two are not whole days apart, the difference
    is one more. *)
Theorem X20_day_difference_orders (a b : datetime) :
  utcoffset a = None -> utcoffset b = None ->
  time_diff_of a b = Return (floor_days a b)
  /\ time_diff_of b a = Return (floor_days b a)
  /\ (floor_days a b = floor_days b a <->
      ((instant_us a - instant_us b) mod US_PER_DAY = 0)%Z)
  /\ ((instant_us a <= instant_us b)%Z ->
      floor_days b a = ((instant_us b - instant_us a) / US_PER_DAY)%Z
      /\ (((instant_us a - instant_us b) mod US_PER_DAY <> 0)%Z ->
          floor_days a b = (floor_days b a + 1)%Z)).
Proof.
  intros Ha Hb.
  split; [now apply CorrelatorFacts.time_diff_naive |].
  split; [now apply CorrelatorFacts.time_diff_naive |].
  unfold floor_days.
  assert (HD : (0 < US_PER_DAY)%Z) by (unfold US_PER_DAY; lia).
  set (d := (instant_us a - instant_us b)%Z).
  replace (instant_us b - instant_us a)%Z with (- d)%Z by (unfold d; lia).
  destruct (Z.eq_dec (d mod US_PER_DAY) 0) as [Hz | Hnz].
  - rewrite (Z.div_opp_l_z d US_PER_DAY) by (try lia; exact Hz).
    split; [split; [auto | intros _; symmetry; apply Z.abs_opp] |].
    intros Hle. split; [| intros H; contradiction].
    assert (Hd : (d <= 0)%Z) by (unfold d; lia).
    assert (Hq : (d / US_PER_DAY <= 0)%Z).
    { apply Z.div_le_upper_bound; lia. }
    lia.
  - rewrite (Z.div_opp_l_nz d US_PER_DAY) by (try lia; exact Hnz).
    split.
    + split; [| intros H; contradiction]. intros Habs. exfalso.
      destruct (Z.le_gt_cases 0 d) as [Hpos | Hneg].
      * assert (0 <= d / US_PER_DAY)%Z by (apply Z.div_pos; lia). lia.
      * assert (d / US_PER_DAY < 0)%Z by (apply Z.div_lt_upper_bound; lia).
        lia.
    + intros Hle.
      assert (Hd : (d <= 0)%Z) by (unfold d; lia).
      assert (Hq : (d / US_PER_DAY < 0)%Z).
      { apply Z.div_lt_upper_bound; [lia |].
        assert (d <> 0)%Z by (intros ->; apply Hnz; apply Z.mod_0_l; lia).
        lia. }
      split; [lia | intros _; lia].
Qed.

Lemma X20_day_difference_orders_witness :
  floor_days noon midnight = 0%Z /\ floor_days midnight noon = 1%Z.
Proof.
  destruct (X20_day_difference_orders midnight noon eq_refl eq_refl)
    as [_ [_ [_ H]]].
  destruct H as [Hwhole Hmore]; [vm_compute; discriminate |].
  split; [reflexivity |].
  rewrite Hmore; [reflexivity | vm_compute; discriminate].
Defined.

End CorrelatorMore.

(** ** population_agent.py *)

Module PopulationFacts.
Import PopulationAgent.

Lemma insert_by_count_perm (e : string * nat) (l : list (string * nat)) :
  Permutation (insert_by_count e l) (e :: l).
Proof.
  induction l as [| y l IH]; simpl; [reflexivity |].
  destruct (Nat.ltb (snd e) (snd y)); [| reflexivity].
  rewrite IH. apply perm_swap.
Qed.

Lemma sort_by_count_perm (c : list (string * nat)) :
  Permutation (sort_by_count c) c.
Proof.
  induction c as [| e c IH]; simpl; [reflexivity |].
  rewrite insert_by_count_perm. now constructor.
Qed.

Lemma insert_by_count_sorted (e : string * nat) (l : list (string * nat)) :
  Sorted by_count_desc l -> Sorted by_count_desc (insert_by_count e l).
Proof.
  induction l as [| y l IH]; intros Hs; simpl.
  - repeat constructor.
  - destruct (Nat.ltb_spec (snd e) (snd y)) as [Hlt | Hge].
    + inversion Hs as [| ? ? Hs' Hhd]; subst.
      constructor; [now apply IH |].
      destruct l as [| z l]; simpl.
      * constructor. unfold by_count_desc. lia.
      * destruct (Nat.ltb (snd e) (snd z)).
        -- constructor. now inversion Hhd.
        -- constructor. unfold by_count_desc. lia.
    + constructor; [assumption |]. constructor. exact Hge.
Qed.

Lemma by_count_desc_trans : Relations_1.Transitive by_count_desc.
Proof. intros a b c. unfold by_count_desc. lia. Qed.

Lemma sort_by_count_sorted (c : list (string * nat)) :
  StronglySorted by_count_desc (sort_by_count c).
Proof.
  apply Sorted_StronglySorted; [exact by_count_desc_trans |].
  induction c as [| e c IH]; simpl; [constructor |].
  now apply insert_by_count_sorted.
Qed.

Lemma strongly_sorted_app {A : Type} (R : A -> A -> Prop) (l1 l2 : list A) :
  StronglySorted R (l1 ++ l2) ->
  StronglySorted R l1
  /\ forall x y, In x l1 -> In y l2 -> R x y.
Proof.
  induction l1 as [| a l1 IH]; simpl; intros H.
  - split; [constructor | intros x y []].
  - inversion H as [| ? ? Hs Hall]; subst.
    destruct (IH Hs) as [Hs1 Hcross]. split.
    + constructor; [assumption |].
      rewrite Forall_forall in *. intros x Hx. apply Hall.
      apply in_or_app. now left.
    + intros x y [<- | Hx] Hy; [| now apply Hcross].
      rewrite Forall_forall in Hall. apply Hall. apply in_or_app. now right.
Qed.

Lemma most_common_facts (n : nat) (items : list string) :
  List.length (most_common n (Counter items)) <= n
  /\ StronglySorted by_count_desc (most_common n (Counter items))
  /\ NoDup (map fst (most_common n (Counter items)))
  /\ (forall x k,
        In (x, k) (most_common n (Counter items)) ->
        In x items /\ k = count_occ string_dec items x)
  /\ (forall x,
        In x items ->
        ~ In x (map fst (most_common n (Counter items))) ->
        forall y k,
          In (y, k) (most_common n (Counter items)) ->
          count_occ string_dec items x <= k)
  /\ (List.length (Counter items) <= n ->
      forall x, In x items ->
                In x (map fst (most_common n (Counter items)))).
Proof.
  unfold most_common.
  pose proof (sort_by_count_perm (Counter items)) as Hperm.
  pose proof (sort_by_count_sorted (Counter items)) as Hsorted.
  rewrite <- (firstn_skipn n (sort_by_count (Counter items))) in Hsorted.
  destruct (strongly_sorted_app _ _ _ Hsorted) as [Hfirst Hcross].
  assert (Hsound : forall x k,
            In (x, k) (firstn n (sort_by_count (Counter items))) ->
            In x items /\ k = count_occ string_dec items x).
  { intros x k Hin. apply Counter_In. apply (Permutation_in _ Hperm).
    rewrite <- (firstn_skipn n (sort_by_count (Counter items))).
    apply in_or_app. now left. }
  split; [apply firstn_le_length |]. split; [exact Hfirst |].
  split; [| split; [exact Hsound | split]].
  - assert (Hnd : NoDup (map fst (sort_by_count (Counter items)))).
    { apply (Permutation_NoDup
               (Permutation_map fst (Permutation_sym Hperm))).
      apply Counter_NoDup. }
    rewrite <- (firstn_skipn n (sort_by_count (Counter items))), map_app
      in Hnd.
    now apply NoDup_app_remove_r in Hnd.
  - intros x Hx Hnot y k Hy.
    assert (Hin : In (x, count_occ string_dec items x)
                     (sort_by_count (Counter items))).
    { apply (Permutation_in _ (Permutation_sym Hperm)).
      apply Counter_In. auto. }
    rewrite <- (firstn_skipn n (sort_by_count (Counter items))) in Hin.
    apply in_app_or in Hin. destruct Hin as [Hin | Hin].
    + exfalso. apply Hnot. apply in_map_iff.
      now exists (x, count_occ string_dec items x).
    + exact (Hcross _ _ Hy Hin).
  - intros Hlen x Hx.
    rewrite firstn_all2
      by (rewrite (Permutation_length Hperm); exact Hlen).
    apply (Permutation_in _ (Permutation_map fst (Permutation_sym Hperm))).
    now apply Counter_keys.
Qed.

(** X21.  Each population analysis lists at most 5 items, with pairwise
    different names, in order of non-increasing frequency.  The
    frequency of a listed item is the number of its occurrences in the
    lists of all similar patients, a patient without the list counting
    for none.  No item left out occurs more often than a listed one,
    and nothing is left out when there are at most 5 different items. *)
Theorem X21_most_common_items (field : Patient -> option (list string))
    (kind : string) (similar_patients : list Patient) :
  let items := flat_map (fun p => get_or (field p) []) similar_patients in
  let listed := common (analyze field kind similar_patients) in
  insight_type (analyze field kind similar_patients) = kind
  /\ List.length listed <= 5
  /\ StronglySorted by_count_desc listed
  /\ NoDup (map fst listed)
  /\ (forall x k,
        In (x, k) listed ->
        In x items /\ k = count_occ string_dec items x)
  /\ (forall x,
        In x items -> ~ In x (map fst listed) ->
        forall y k, In (y, k) listed -> count_occ string_dec items x <= k)
  /\ (List.length (Counter items) <= 5 ->
      forall x, In x items -> In x (map fst listed)).
Proof.
  cbn zeta. split; [reflexivity |]. unfold analyze. cbn [common].
  apply most_common_facts.
Qed.

Lemma X21_most_common_items_witness :
  common (_analyze_medication_patterns similar_sample)
  = [("Aspirin", 3); ("Lisinopril", 2); ("Metformin", 1)]
  /\ In "Metformin"
        (map fst (common (_analyze_medication_patterns similar_sample)))
  /\ count_occ string_dec
       (flat_map (fun p => get_or (medications p) []) similar_sample)
       "Aspirin" = 3.
Proof.
  destruct (X21_most_common_items medications "medications" similar_sample)
    as [_ [_ [_ [_ [Hcount [_ Hall]]]]]].
  split; [reflexivity |]. split.
  - apply Hall; [vm_compute; lia | simpl; auto].
  - destruct (Hcount "Aspirin" 3) as [_ H]; [left; reflexivity |].
    now rewrite <- H.
Defined.

End PopulationFacts.

(** ** The keyword extractors, continued *)

Module KeywordMore.
Import PatternAgent.

Lemma sub_nonword_no_upper (s : string) :
  all_chars no_upper s = true -> all_chars no_upper (sub_nonword s) = true.
Proof.
  induction s as [| c s IH]; simpl; [auto |].
  intros H. apply andb_true_iff in H. destruct H as [Hc Hs].
  rewrite (IH Hs), andb_true_r.
  destruct (isword c || isspace c)%bool; [exact Hc | reflexivity].
Qed.

Lemma all_chars_weaken (p q : ascii -> bool) (s : string) :
  (forall c, p c = true -> q c = true) ->
  all_chars p s = true -> all_chars q s = true.
Proof.
  intros Hpq. induction s as [| c s IH]; simpl; [auto |].
  intros H. apply andb_true_iff in H. destruct H as [Hc Hs].
  now rewrite (Hpq c Hc), (IH Hs).
Qed.

Lemma split_no_upper (s : string) (tok : string) :
  all_chars no_upper s = true -> In tok (str_split s) ->
  all_chars no_upper tok = true.
Proof.
  intros Hs Hin.
  assert (HF : Forall (fun t => all_chars no_upper t = true) (str_split s)).
  { apply split_from_chars; [reflexivity |].
    apply (all_chars_weaken no_upper); [| exact Hs].
    intros c Hc. rewrite Hc. apply orb_true_r. }
  rewrite Forall_forall in HF. now apply HF.
Qed.

(** X22.  Keyword extraction ignores letter case: two texts that differ
    in letter case only give the same keywords, with either extractor,
    and every keyword returned is in lower case. *)
Theorem X22_keywords_ignore_case (text other : string) (min_length : nat) :
  (same_ignoring_case text other ->
   extract_keywords_from_text text min_length
   = extract_keywords_from_text other min_length
   /\ _extract_keywords text = _extract_keywords other)
  /\ (forall tok,
        In tok (extract_keywords_from_text text min_length) ->
        str_lower tok = tok)
  /\ (forall tok, In tok (_extract_keywords text) -> str_lower tok = tok).
Proof.
  split; [| split].
  - unfold same_ignoring_case, extract_keywords_from_text, _extract_keywords.
    intros ->. split; reflexivity.
  - intros tok Hin. apply str_lower_fixed.
    unfold extract_keywords_from_text in Hin. apply filter_In in Hin.
    destruct Hin as [Hin _].
    apply (split_no_upper (sub_nonword (str_lower text))); [| exact Hin].
    apply sub_nonword_no_upper, str_lower_no_upper.
  - intros tok Hin. apply str_lower_fixed.
    unfold _extract_keywords in Hin. apply in_map_iff in Hin.
    destruct Hin as [word [<- Hin]]. apply filter_In in Hin.
    destruct Hin as [Hin _]. unfold str_strip_chars. apply strip_chars.
    apply (split_no_upper (str_lower text)); [| exact Hin].
    apply str_lower_no_upper.
Qed.

Lemma X22_keywords_ignore_case_witness :
  extract_keywords_from_text "Severe HEADACHE" 4
  = extract_keywords_from_text "severe headache" 4
  /\ _extract_keywords "Severe HEADACHE" = ["severe"; "headache"]
  /\ str_lower "headache" = "headache".
Proof.
  destruct (X22_keywords_ignore_case "Severe HEADACHE" "severe headache" 4)
    as [Hsame [Htok _]].
  split; [apply Hsame; reflexivity |]. split; [reflexivity |].
  apply Htok. vm_compute. auto.
Defined.

End KeywordMore.
